(** * Suno Local Studio: the task-tracking and asset-materialisation engine

    A shallow embedding of [server.js]: the response normaliser
    ([getStatusFromKieResp], [extractSunoData]), the asset materialiser
    ([downloadFileToPath], [downloadAssetsForTask]), the in-memory task
    registry with the poll scheduler ([startServerSidePoll] and the timer
    callback it installs) and the two client-facing handlers that read the
    registry ([GET /api/task/:taskId], [GET /download]).

    Part I holds the definitions, Part II the lemmas and theorems. *)

From Stdlib Require Import ZArith Lia Ascii String List.
From stdpp Require Import base option list gmap strings pretty.

Set Warnings "-register-all".
Open Scope string_scope.
Open Scope list_scope.

(* ===================================================================== *)
(** * Part I: definitions                                                  *)
(* ===================================================================== *)

(** ** JavaScript values

    The payloads handled by the server are whatever [axios] hands back in
    [r.data]: parsed JSON, or a plain string when the body is not JSON.
    Numbers are kept as integers: the code only tests them for truthiness
    and prints them.  Strings are sequences of 8-bit characters.  An object
    is the list of its own properties; a property read takes the first
    binding of the name. *)

Inductive value : Type :=
| VUndef
| VNull
| VBool (b : bool)
| VNum (n : Z)
| VStr (s : string)
| VArr (xs : list value)
| VObj (fields : list (string * value)).

(** A JavaScript completion: a normal value or a thrown exception. *)
Inductive completion (A : Type) : Type :=
| Normal (a : A)
| Throw.
Arguments Normal {A} a.
Arguments Throw {A}.

#[global] Instance completion_ret : MRet completion := @Normal.
#[global] Instance completion_bind : MBind completion :=
  fun A B f c => match c with Normal a => f a | Throw => Throw end.

(** [try { body } catch (e) { handler }] *)
Definition try_catch {A} (body : completion A) (handler : A) : A :=
  match body with Normal a => a | Throw => handler end.

(** ToBoolean *)
Definition truthy (v : value) : bool :=
  match v with
  | VUndef | VNull => false
  | VBool b => b
  | VNum n => negb (n =? 0)%Z
  | VStr s => negb (String.eqb s "")
  | VArr _ | VObj _ => true
  end.

Definition nullish (v : value) : bool :=
  match v with VUndef | VNull => true | _ => false end.

Fixpoint assoc (p : string) (fields : list (string * value)) : value :=
  match fields with
  | [] => VUndef
  | (k, v) :: rest => if String.eqb k p then v else assoc p rest
  end.

(** Reading a named property off a non-nullish value.  Only objects carry
    the property names the server reads ([data], [status], [response],
    [sunoData], [audioUrl], ...); on primitives and arrays they are
    undefined. *)
Definition prop (v : value) (p : string) : value :=
  match v with
  | VObj fields => assoc p fields
  | _ => VUndef
  end.

(** [v.p]: a TypeError on [null] and [undefined]. *)
Definition get (v : value) (p : string) : completion value :=
  if nullish v then Throw else Normal (prop v p).

(** [v?.p]: undefined on [null] and [undefined], so that a chain
    [a?.b?.c] is [opt_get (opt_get a b) c]. *)
Definition opt_get (v : value) (p : string) : value :=
  if nullish v then VUndef else prop v p.

(** [a || b] and [a && b]; the right operand is only looked at when the
    left one does not decide, so a throwing right operand is harmless
    behind a deciding left one. *)
Definition js_or (a b : completion value) : completion value :=
  match a with
  | Normal v => if truthy v then Normal v else b
  | Throw => Throw
  end.

Definition js_and (a b : completion value) : completion value :=
  match a with
  | Normal v => if truthy v then b else Normal v
  | Throw => Throw
  end.

Definition or_val (a b : value) : value := if truthy a then a else b.

Infix "|||" := js_or (at level 50, left associativity).
Infix "&&&" := js_and (at level 40, left associativity).
Notation "v ?. p" := (opt_get v p) (at level 8, left associativity).

Definition isArray (v : value) : bool :=
  match v with VArr _ => true | _ => false end.

(** [String.prototype.toUpperCase] on the 7-bit range, which covers the
    status vocabulary of the upstream API. *)
Definition upper_ascii (c : ascii) : ascii :=
  let n := nat_of_ascii c in
  if (97 <=? n)%nat && (n <=? 122)%nat then ascii_of_nat (n - 32) else c.

Fixpoint toUpperCase (s : string) : string :=
  match s with
  | EmptyString => EmptyString
  | String c rest => String (upper_ascii c) (toUpperCase rest)
  end.

(** ** Response normaliser *)

Module Normalizer.

(** The body of the [try] block of [getStatusFromKieResp]. *)
Definition getStatus_body (kieResp : value) : completion value :=
  data ← Normal (kieResp ?. "data") ||| Normal kieResp;
  status ← Normal (data ?. "status")
           ||| Normal (data ?. "response" ?. "status")
           ||| (Normal (kieResp ?. "data")
                &&& (d ← get kieResp "data"; get d "status"));
  match status with
  | VStr s => Normal (VStr (toUpperCase s))
  | _ => Normal VNull
  end.

Definition getStatusFromKieResp (kieResp : value) : value :=
  try_catch (getStatus_body kieResp) VNull.

(** [getStatusFromKieResp(kieResp) || 'UNKNOWN'], the status both call
    sites write to the registry. *)
Definition observed_status (kieResp : value) : value :=
  or_val (getStatusFromKieResp kieResp) (VStr "UNKNOWN").

(** The body of the [try] block of [extractSunoData]. *)
Definition extractSunoData_body (kieResp : value) : completion value :=
  data ← Normal (kieResp ?. "data") ||| Normal kieResp;
  s ← Normal (data ?. "response" ?. "sunoData")
      ||| Normal (data ?. "sunoData")
      ||| Normal (data ?. "response")
      ||| Normal (data ?. "data" ?. "response" ?. "sunoData");
  if isArray s then Normal s else
  maybe ← Normal (kieResp ?. "data" ?. "data")
          ||| Normal (kieResp ?. "data" ?. "response");
  if truthy (maybe ?. "sunoData") then get maybe "sunoData"
  else Normal (VArr []).

Definition extractSunoData (kieResp : value) : value :=
  try_catch (extractSunoData_body kieResp) (VArr []).

(** The envelope both functions start from: [kieResp?.data || kieResp]. *)
Definition envelope (kieResp : value) : value :=
  or_val (kieResp ?. "data") kieResp.

(** *** The normaliser as the specification words it

    Status: the top-level status field, then the nested
    [response.status] field; the first non-empty string found is
    upper-cased; absence yields [UNKNOWN]. *)
Definition nonempty_string (v : value) : option string :=
  match v with
  | VStr s => if String.eqb s "" then None else Some s
  | _ => None
  end.

Fixpoint first_nonempty_string (probes : list value) : option string :=
  match probes with
  | [] => None
  | v :: rest =>
      match nonempty_string v with
      | Some s => Some s
      | None => first_nonempty_string rest
      end
  end.

Definition status_probes (kieResp : value) : list value :=
  let data := envelope kieResp in
  [data ?. "status"; data ?. "response" ?. "status"].

Definition spec_status (kieResp : value) : value :=
  match first_nonempty_string (status_probes kieResp) with
  | Some s => VStr (toUpperCase s)
  | None => VStr "UNKNOWN"
  end.

(** Assets: the first structurally valid array among the probed nesting
    paths, the empty sequence if none is found. *)
Definition primary_probes (kieResp : value) : list value :=
  let data := envelope kieResp in
  [data ?. "response" ?. "sunoData";
   data ?. "sunoData";
   data ?. "response";
   data ?. "data" ?. "response" ?. "sunoData"].

Definition fallback_probe (kieResp : value) : value :=
  (or_val (kieResp ?. "data" ?. "data") (kieResp ?. "data" ?. "response"))
    ?. "sunoData".

Definition asset_probes (kieResp : value) : list value :=
  primary_probes kieResp ++ [fallback_probe kieResp].

Definition spec_assets (kieResp : value) : value :=
  match List.find isArray (asset_probes kieResp) with
  | Some a => a
  | None => VArr []
  end.

(** What the [||] chains select: the first truthy probe. *)
Definition first_truthy (probes : list value) : option value :=
  List.find truthy probes.

(** What the tail of [getStatusFromKieResp] and the [|| 'UNKNOWN'] of
    its callers make of the selected value. *)
Definition recorded (selected : value) : value :=
  or_val (match selected with
          | VStr s => VStr (toUpperCase s)
          | _ => VNull
          end) (VStr "UNKNOWN").

End Normalizer.

Import Normalizer.

(** ** ToString and the file-name helpers *)

Definition join_sep (sep : string) (parts : list string) : string :=
  String.concat sep parts.

(** [p] is an own property of the object. *)
Definition has_own (p : string) (fields : list (string * value)) : bool :=
  existsb (fun kv => String.eqb kv.1 p) fields.

(** ToString, as [x + ''] and [new URL(x)] apply it.  An object parsed
    from JSON inherits [toString] from [Object.prototype] unless it has an
    own property of that name; an own [toString] is data, never a
    function, and the conversion then throws a TypeError.  Inside
    [Array.prototype.join], [null] and [undefined] elements print as the
    empty string. *)
Fixpoint to_js_string (v : value) : completion string :=
  match v with
  | VUndef => Normal "undefined"
  | VNull => Normal "null"
  | VBool true => Normal "true"
  | VBool false => Normal "false"
  | VNum n => Normal (pretty n)
  | VStr s => Normal s
  | VArr xs =>
      match
        (fix elems (l : list value) : completion (list string) :=
           match l with
           | [] => Normal []
           | x :: rest =>
               match (if nullish x then Normal "" else to_js_string x) with
               | Normal s =>
                   match elems rest with
                   | Normal parts => Normal (s :: parts)
                   | Throw => Throw
                   end
               | Throw => Throw
               end
           end) xs
      with
      | Normal parts => Normal (join_sep "," parts)
      | Throw => Throw
      end
  | VObj fields =>
      if has_own "toString" fields then Throw else Normal "[object Object]"
  end.

Definition double_quote : ascii := ascii_of_nat 34.

(** The character class of the title sanitiser. *)
Definition unsafe_chars : list ascii :=
  ["/"; "\"; "?"; "%"; "*"; ":"; "|"; double_quote; "<"; ">"]%char.

Definition sanitize_char (c : ascii) : ascii :=
  if existsb (Ascii.eqb c) unsafe_chars then "-"%char else c.

Fixpoint replace_unsafe (s : string) : string :=
  match s with
  | EmptyString => EmptyString
  | String c rest => String (sanitize_char c) (replace_unsafe rest)
  end.

(** [s.slice(0, n)] *)
Definition slice0 (n : nat) (s : string) : string := String.substring 0 n s.

(** [needle] occurs in [s]: [s.includes(needle)] *)
Definition includes (s needle : string) : bool :=
  match String.index 0 needle s with Some _ => true | None => false end.

(** ** The Node.js environment

    [new URL(u).pathname], the [path] module, the configured download
    root and the operating system under [fs] are library and
    configuration; the development is parametric in them.
    [url_pathname u] is [None] when the [URL] constructor throws.
    [dir_size] is the size [fs.statSync] reports for a directory.
    [path_ancestors p] lists the directories above [p], outermost first.
    [mkdir_stops fs p] tells how [fs.mkdirSync(p, { recursive: true })]
    fares on the disk [fs]: [None] when it returns, [Some k] when it
    throws after having created the first [k] of the missing directories
    (a name too long, a permission refused).  [open_fails fs p] tells
    whether opening [p] for writing fails on [fs]. *)

Class NodeEnv : Type := {
  DOWNLOAD_DIR : string;
  url_pathname : string -> option string;
  path_extname : string -> string;
  path_basename : string -> string;
  path_join : string -> string -> string;
  dir_size : N;
  path_ancestors : string -> list string;
  mkdir_stops : gmap string N -> string -> option nat;
  open_fails : gmap string N -> string -> bool
}.

(** ** Asset materialiser *)

Inductive kind : Type := audio | audio_source | cover | cover_source.

#[global] Instance kind_eq_dec : EqDecision kind.
Proof. solve_decision. Defined.

(** One element of the [saved] array: [{ type, path, name }]. *)
Record saved_file : Type := SavedFile {
  type : kind;
  path : string;
  name : string
}.

(** What the materialiser does to the outside world: an existing file
    accepted as already fetched, or an HTTP GET and whether it delivered. *)
Inductive io_event : Type :=
| IoSkip (outPath : string)
| IoGet (fileUrl : value) (outPath : string) (delivered : bool).

(** The file system maps every existing path to the size [statSync]
    reports for it; [w_io] is the history of materialiser I/O. *)
Record world : Type := World {
  w_fs : gmap string N;
  w_io : list io_event
}.

Definition existsSync (w : world) (p : string) : bool :=
  bool_decide (is_Some (w_fs w !! p)).

Definition stat_size (w : world) (p : string) : N :=
  default 0%N (w_fs w !! p).

Definition write_file (p : string) (size : N) (w : world) : world :=
  World (<[p := size]> (w_fs w)) (w_io w).

Definition record_io (e : io_event) (w : world) : world :=
  World (w_fs w) (w_io w ++ [e]).

Definition is_get (e : io_event) : bool :=
  match e with IoGet _ _ _ => true | IoSkip _ => false end.

(** What a remote server does with a GET: it streams a body of [size]
    bytes to the end, or [axios.get] rejects (network error, non-2xx
    answer), or the answer starts and the connection is lost after [size]
    bytes of the body. *)
Inductive transfer : Type :=
| Delivered (size : N)
| Refused
| Cut (size : N).

Definition delivers (t : transfer) : bool :=
  match t with Delivered _ => true | _ => false end.

(** How an asynchronous call ends: its promise is fulfilled, or rejected
    (the caller's [catch] sees the exception), or an ['error'] event
    nobody listens to ends the process, or the promise never settles. *)
Inductive fate (A : Type) : Type :=
| Fulfilled (a : A)
| Raised
| Crash
| Hang.
Arguments Fulfilled {A} a.
Arguments Raised {A}.
Arguments Crash {A}.
Arguments Hang {A}.

(** [const a = await r; k(a)]: what comes after an [await] runs only when
    the awaited promise is fulfilled. *)
Definition and_then {A B : Type} (r : fate A * world)
    (k : A -> world -> fate B * world) : fate B * world :=
  match r with
  | (Fulfilled a, w) => k a w
  | (Raised, w) => (Raised, w)
  | (Crash, w) => (Crash, w)
  | (Hang, w) => (Hang, w)
  end.

(** Creating the directories of [dirs] in turn. *)
Definition make_dirs `{!NodeEnv} (dirs : list string) (w : world) : world :=
  fold_left (fun w d => write_file d dir_size w) dirs w.

Section Materializer.
Context `{!NodeEnv}.

(** The remote servers during one materialisation. *)
Variable remote : value -> transfer.

(** [fs.mkdirSync(dir, { recursive: true })]: the missing directories on
    the way to [dir] are created from the outermost on, [dir] last; when
    the call throws, the directories created before stay. *)
Definition mkdirSync (dir : string) (w : world) : completion unit * world :=
  let missing :=
    List.filter (fun d => negb (existsSync w d)) (path_ancestors dir ++ [dir]) in
  match mkdir_stops (w_fs w) dir with
  | None => (Normal tt, make_dirs missing w)
  | Some k => (Throw, make_dirs (take k missing) w)
  end.

(** [downloadFileToPath].  [createWriteStream] opens (and truncates) the
    destination before the GET is issued, and the ['error'] listener of
    the writer is attached only after [await axios.get]: a destination
    that cannot be opened emits its ['error'] unheard (the file system
    answers before the network does), which ends the process.  The
    promise the function awaits last settles on the writer's ['close'] or
    ['error'] alone: when the body is cut, [pipe] leaves the writer open
    and the promise never settles.  The disk takes every byte that is
    delivered. *)
Definition downloadFileToPath (fileUrl : value) (outPath : string)
    (w : world) : fate string * world :=
  if existsSync w outPath && (0 <? stat_size w outPath)%N then
    (Fulfilled outPath, record_io (IoSkip outPath) w)
  else if open_fails (w_fs w) outPath then
    (Crash, record_io (IoGet fileUrl outPath false) w)
  else
    let w1 := write_file outPath 0%N w in
    match remote fileUrl with
    | Delivered size =>
        (Fulfilled outPath,
         record_io (IoGet fileUrl outPath true) (write_file outPath size w1))
    | Refused => (Raised, record_io (IoGet fileUrl outPath false) w1)
    | Cut size =>
        (Hang, record_io (IoGet fileUrl outPath false) (write_file outPath size w1))
    end.

(** [a || b] on strings *)
Definition or_str (a b : string) : string :=
  if String.eqb a "" then b else a.

(** [new URL(url).pathname]; [None] when the conversion of [url] to a
    string or the constructor throws. *)
Definition url_path (url : value) : option string :=
  match to_js_string url with
  | Normal s => url_pathname s
  | Throw => None
  end.

(** One [try { ... saved.push(...) } catch (e) {}] block of the loop
    body; the four blocks differ in the kind, the name suffix and the
    default extension.  The [catch] swallows what [new URL] throws and a
    rejection of [downloadFileToPath]. *)
Definition try_download (k : kind) (suffix dflt : string) (url : value)
    (taskDir pfx : string) (saved : list saved_file) (w : world)
    : fate (list saved_file) * world :=
  match url_path url with
  | None => (Fulfilled saved, w)
  | Some pathname =>
      let ext := or_str (path_extname pathname) dflt in
      let fname := pfx +:+ suffix +:+ ext in
      let out := path_join taskDir fname in
      match downloadFileToPath url out w with
      | (Fulfilled _, w') => (Fulfilled (saved ++ [SavedFile k out fname]), w')
      | (Raised, w') => (Fulfilled saved, w')
      | (Crash, w') => (Crash, w')
      | (Hang, w') => (Hang, w')
      end
  end.

(** [((it.title || `track_${i+1}`) + '').replace(...).slice(0,100)]; the
    conversion to a string stands outside every [try] of the loop. *)
Definition safeTitle (it : value) (i : nat) : completion string :=
  match to_js_string (or_val (prop it "title") (VStr ("track_" +:+ pretty (i + 1)))) with
  | Normal s => Normal (slice0 100 (replace_unsafe s))
  | Throw => Throw
  end.

Definition prefix (it : value) (i : nat) : completion string :=
  match safeTitle it i with
  | Normal title => Normal (pretty (i + 1) +:+ "_" +:+ title)
  | Throw => Throw
  end.

(** The body of the [for] loop at index [i]. *)
Definition download_item (taskDir : string) (i : nat) (elem : value)
    (saved : list saved_file) (w : world) : fate (list saved_file) * world :=
  let it := or_val elem (VObj []) in
  let audioUrl :=
    or_val (prop it "audioUrl")
      (or_val (prop it "audio_url")
         (or_val (prop it "streamAudioUrl") (prop it "stream_audio_url"))) in
  let sourceAudioUrl :=
    or_val (prop it "sourceAudioUrl") (prop it "source_audio_url") in
  let imageUrl := or_val (prop it "imageUrl") (prop it "image_url") in
  let sourceImageUrl :=
    or_val (prop it "sourceImageUrl") (prop it "source_image_url") in
  match prefix it i with
  | Throw => (Raised, w)
  | Normal pfx =>
      and_then
        (if truthy audioUrl
         then try_download audio "" ".mp3" audioUrl taskDir pfx saved w
         else (Fulfilled saved, w))
        (fun saved w =>
           and_then
             (if truthy sourceAudioUrl
              then try_download audio_source "_source" ".mp3" sourceAudioUrl
                     taskDir pfx saved w
              else (Fulfilled saved, w))
             (fun saved w =>
                if truthy imageUrl
                then try_download cover "_cover" ".png" imageUrl taskDir pfx saved w
                else if truthy sourceImageUrl
                then try_download cover_source "_cover_source" ".png" sourceImageUrl
                       taskDir pfx saved w
                else (Fulfilled saved, w)))
  end.

Fixpoint download_loop (taskDir : string) (i : nat) (items : list value)
    (saved : list saved_file) (w : world) : fate (list saved_file) * world :=
  match items with
  | [] => (Fulfilled saved, w)
  | elem :: rest =>
      and_then (download_item taskDir i elem saved w)
        (download_loop taskDir (S i) rest)
  end.

Definition downloadAssetsForTask (taskId : string) (sunoDataArray : value)
    (w : world) : fate (list saved_file) * world :=
  match sunoDataArray with
  | VArr (first :: rest) =>
      let taskDir := path_join DOWNLOAD_DIR taskId in
      match (if existsSync w taskDir then (Normal tt, w) else mkdirSync taskDir w) with
      | (Normal _, w) => download_loop taskDir 0 (first :: rest) [] w
      | (Throw, w) => (Raised, w)
      end
  | _ => (Fulfilled [], w)
  end.

(** *** The download plan

    The calls to [downloadFileToPath] the loop makes, in order, as long
    as nothing stops it: they are fixed by the task id and the asset list
    alone.  The plan ends before the first asset whose title cannot be
    converted to a string. *)
Record job : Type := Job {
  j_kind : kind;
  j_url : value;
  j_out : string;
  j_name : string
}.

Definition job_file (j : job) : saved_file :=
  SavedFile (j_kind j) (j_out j) (j_name j).

Definition plan_one (k : kind) (suffix dflt : string) (url : value)
    (taskDir pfx : string) : list job :=
  if truthy url then
    match url_path url with
    | None => []
    | Some pathname =>
        let fname := pfx +:+ suffix +:+ or_str (path_extname pathname) dflt in
        [Job k url (path_join taskDir fname) fname]
    end
  else [].

Definition plan_item (taskDir pfx : string) (elem : value) : list job :=
  let it := or_val elem (VObj []) in
  let audioUrl :=
    or_val (prop it "audioUrl")
      (or_val (prop it "audio_url")
         (or_val (prop it "streamAudioUrl") (prop it "stream_audio_url"))) in
  let sourceAudioUrl :=
    or_val (prop it "sourceAudioUrl") (prop it "source_audio_url") in
  let imageUrl := or_val (prop it "imageUrl") (prop it "image_url") in
  let sourceImageUrl :=
    or_val (prop it "sourceImageUrl") (prop it "source_image_url") in
  plan_one audio "" ".mp3" audioUrl taskDir pfx
  ++ plan_one audio_source "_source" ".mp3" sourceAudioUrl taskDir pfx
  ++ (if truthy imageUrl
      then plan_one cover "_cover" ".png" imageUrl taskDir pfx
      else plan_one cover_source "_cover_source" ".png" sourceImageUrl taskDir pfx).

Fixpoint plan_loop (taskDir : string) (i : nat) (items : list value) : list job :=
  match items with
  | [] => []
  | elem :: rest =>
      match prefix (or_val elem (VObj [])) i with
      | Normal pfx => plan_item taskDir pfx elem ++ plan_loop taskDir (S i) rest
      | Throw => []
      end
  end.

Definition planned (taskId : string) (sunoDataArray : value) : list job :=
  match sunoDataArray with
  | VArr items => plan_loop (path_join DOWNLOAD_DIR taskId) 0 items
  | _ => []
  end.

(** Every title of the list, from index [i] on, converts to a string. *)
Fixpoint titles_ok (i : nat) (items : list value) : bool :=
  match items with
  | [] => true
  | elem :: rest =>
      match prefix (or_val elem (VObj [])) i with
      | Normal _ => titles_ok (S i) rest
      | Throw => false
      end
  end.

Definition titles_convert (sunoDataArray : value) : bool :=
  match sunoDataArray with
  | VArr items => titles_ok 0 items
  | _ => true
  end.

(** The directory step at the head of [downloadAssetsForTask], taken once
    a non-empty list came in. *)
Definition ensure_dir (taskId : string) (sunoDataArray : value) (w : world)
    : completion unit * world :=
  match sunoDataArray with
  | VArr (_ :: _) =>
      if existsSync w (path_join DOWNLOAD_DIR taskId) then (Normal tt, w)
      else mkdirSync (path_join DOWNLOAD_DIR taskId) w
  | _ => (Normal tt, w)
  end.

(** Running one job: the call, the push when it returns, the [catch]
    when it rejects. *)
Definition run_job (j : job) (saved : list saved_file) (w : world)
    : fate (list saved_file) * world :=
  match downloadFileToPath (j_url j) (j_out j) w with
  | (Fulfilled _, w') => (Fulfilled (saved ++ [job_file j]), w')
  | (Raised, w') => (Fulfilled saved, w')
  | (Crash, w') => (Crash, w')
  | (Hang, w') => (Hang, w')
  end.

Fixpoint run_jobs (js : list job) (saved : list saved_file) (w : world)
    : fate (list saved_file) * world :=
  match js with
  | [] => (Fulfilled saved, w)
  | j :: rest => and_then (run_job j saved w) (run_jobs rest)
  end.

(** The end of the loop: [return saved], unless a title stopped it. *)
Definition finish (ok : bool) (saved : list saved_file) (w : world)
    : fate (list saved_file) * world :=
  if ok then (Fulfilled saved, w) else (Raised, w).


(** The I/O a call for job [j] leaves behind when it settles: the
    existing file accepted, or one GET of the job's URL that delivers
    exactly when the remote side does. *)
Definition attempt_of (j : job) (e : io_event) : Prop :=
  e = IoSkip (j_out j)
  \/ e = IoGet (j_url j) (j_out j) (delivers (remote (j_url j))).

Definition event_ok (e : io_event) : bool :=
  match e with
  | IoGet _ _ false => false
  | _ => true
  end.

(** The files of the jobs whose I/O did not fail, in plan order. *)
Fixpoint kept (js : list job) (trace : list io_event) : list saved_file :=
  match js, trace with
  | j :: js', e :: trace' =>
      (if event_ok e then [job_file j] else []) ++ kept js' trace'
  | _, _ => []
  end.

End Materializer.

(** ** Task registry and poll scheduler

    The server runs on one event loop; what runs between two [await]s is
    one step of the machine below.  [setInterval] calls the async callback
    every period whether or not earlier invocations have settled, so
    several invocations of one timer can be suspended at once; they share
    the [attempts] variable of the closure.  Task identifiers are
    strings. *)

(** A registry record.  Properties a record may lack ([{}] is the
    fallback of [taskCache.get(taskId) || {}]) are optional. *)
Record entry : Type := Entry {
  lastRaw : value;
  status : value;
  updatedAt : option Z;
  sunoData : value;
  downloaded : option bool;
  localFiles : option (list saved_file)
}.

(** [{}] *)
Definition empty_object : entry := Entry VUndef VUndef None VUndef None None.

(** The value stored in [activePolls]: [{ timer, attempts: 0 }]. *)
Record handle : Type := Handle {
  timer : nat;
  attempts : nat
}.

(** The variables one [setInterval] callback closes over, and whether the
    interval is still scheduled ([clearInterval] not yet called on it). *)
Record closure : Type := Closure {
  c_taskId : string;
  c_attempts : nat;
  c_live : bool
}.

(** An invocation of the async callback is suspended at one of its two
    [await]s or has run to its end.  At the second [await] it holds the
    way the call of [downloadAssetsForTask] ends. *)
Inductive phase : Type :=
| AwaitFetch
| AwaitDownload (result : fate (list saved_file))
| Settled.

Record invocation : Type := Invocation {
  i_timer : nat;
  i_phase : phase
}.

Inductive log_line : Type :=
| LogStart (taskId : string)
| LogStatus (taskId : string) (status : value) (attempts : nat)
| LogFinal (taskId : string) (status : value)
| LogSaved (taskId : string) (count : nat)
| LogStopped (taskId : string) (status : value) (attempts : nat)
| LogFetchError (taskId : string)
| LogDownloadError (taskId : string).

Record state : Type := State {
  taskCache : gmap string entry;
  activePolls : gmap string handle;
  timers : list closure;
  calls : list invocation;
  disk : world;
  console : list log_line
}.

Definition FINAL_STATUSES : gset string := {[ "SUCCESS"; "FIRST_SUCCESS" ]}.
Definition ERROR_STATUSES : gset string :=
  {[ "CREATE_TASK_FAILED"; "GENERATE_AUDIO_FAILED";
     "SENSITIVE_WORD_ERROR"; "CALLBACK_EXCEPTION" ]}.

(** [Set.prototype.has] *)
Definition set_has (s : gset string) (v : value) : bool :=
  match v with
  | VStr x => bool_decide (x ∈ s)
  | _ => false
  end.

Definition maxAttempts : nat := 120.

Definition set_taskCache (f : gmap string entry -> gmap string entry) (st : state) : state :=
  State (f (taskCache st)) (activePolls st) (timers st) (calls st) (disk st) (console st).
Definition set_activePolls (f : gmap string handle -> gmap string handle) (st : state) : state :=
  State (taskCache st) (f (activePolls st)) (timers st) (calls st) (disk st) (console st).
Definition set_timers (f : list closure -> list closure) (st : state) : state :=
  State (taskCache st) (activePolls st) (f (timers st)) (calls st) (disk st) (console st).
Definition set_calls (f : list invocation -> list invocation) (st : state) : state :=
  State (taskCache st) (activePolls st) (timers st) (f (calls st)) (disk st) (console st).
Definition set_disk (w : world) (st : state) : state :=
  State (taskCache st) (activePolls st) (timers st) (calls st) w (console st).
Definition log (l : log_line) (st : state) : state :=
  State (taskCache st) (activePolls st) (timers st) (calls st) (disk st) (console st ++ [l]).

(** [clearInterval(timer)] *)
Definition clearInterval (tid : nat) (st : state) : state :=
  set_timers (alter (fun c => Closure (c_taskId c) (c_attempts c) false) tid) st.

(** [attempts++] in the closure of timer [tid] *)
Definition bump_attempts (tid : nat) (st : state) : state :=
  set_timers (alter (fun c => Closure (c_taskId c) (S (c_attempts c)) (c_live c)) tid) st.

Definition settle (call : nat) (ph : phase) (st : state) : state :=
  set_calls (alter (fun i => Invocation (i_timer i) ph) call) st.

(** [taskCache.get(taskId) || {}] *)
Definition cache_get_or_empty (st : state) (taskId : string) : entry :=
  default empty_object (taskCache st !! taskId).

(** The process has ended: a materialisation it started went down on an
    unheard ['error'] event. *)
Definition ended (i : invocation) : bool :=
  match i_phase i with
  | AwaitDownload Crash => true
  | _ => false
  end.

Definition exited (st : state) : bool := existsb ended (calls st).

Section Scheduler.
Context `{!NodeEnv}.

(** [startServerSidePoll(taskId)]; [now] is what [Date.now()] returns. *)
Definition startServerSidePoll (taskId : string) (now : Z) (st : state) : state :=
  if String.eqb taskId "" then st else
  if bool_decide (is_Some (activePolls st !! taskId)) then st else
  let st := log (LogStart taskId) st in
  let st :=
    if bool_decide (is_Some (taskCache st !! taskId)) then st
    else set_taskCache
           (insert taskId (Entry VNull VNull (Some now) VUndef (Some false) (Some [])))
           st in
  let tid := length (timers st) in
  let st := set_timers (fun ts => ts ++ [Closure taskId 0 true]) st in
  set_activePolls (insert taskId (Handle tid 0)) st.

(** The interval of timer [tid] elapses: the callback starts, counts the
    attempt and suspends at [await kieRecordInfo(taskId)]. *)
Definition fire (tid : nat) (st : state) : option state :=
  match timers st !! tid with
  | Some c =>
      if c_live c then
        Some (set_calls (fun cs => cs ++ [Invocation tid AwaitFetch])
                (bump_attempts tid st))
      else None
  | None => None
  end.

(** Invocation [call] resumes with the upstream answer [kieResp]: the
    rest of the [try] block.  On a final status the call of
    [downloadAssetsForTask] is made here, its I/O taken as one step
    against [remote]; the invocation then waits at the [await] with the
    way the call ends until [download_done] resumes it. *)
Definition fetch_ok (call : nat) (kieResp : value)
    (remote : value -> transfer) (now : Z) (st : state) : option state :=
  match calls st !! call with
  | Some (Invocation tid AwaitFetch) =>
      match timers st !! tid with
      | Some c =>
          let taskId := c_taskId c in
          let attempts := c_attempts c in
          let status := observed_status kieResp in
          let sunoData := extractSunoData kieResp in
          let current := cache_get_or_empty st taskId in
          let current :=
            Entry kieResp status (Some now) sunoData
                  (downloaded current) (localFiles current) in
          let st := set_taskCache (insert taskId current) st in
          let st := log (LogStatus taskId status attempts) st in
          if set_has FINAL_STATUSES status then
            let st := clearInterval tid st in
            let st := set_activePolls (delete taskId) st in
            let st := log (LogFinal taskId status) st in
            let '(result, w) := downloadAssetsForTask remote taskId sunoData (disk st) in
            Some (settle call (AwaitDownload result) (set_disk w st))
          else if set_has ERROR_STATUSES status || (maxAttempts <=? attempts)%nat then
            let st := clearInterval tid st in
            let st := set_activePolls (delete taskId) st in
            let st := log (LogStopped taskId status attempts) st in
            Some (settle call Settled st)
          else Some (settle call Settled st)
      | None => None
      end
  | _ => None
  end.

(** Invocation [call] resumes with a rejected [kieRecordInfo]: the
    [catch] block. *)
Definition fetch_err (call : nat) (st : state) : option state :=
  match calls st !! call with
  | Some (Invocation tid AwaitFetch) =>
      match timers st !! tid with
      | Some c =>
          let taskId := c_taskId c in
          let st := log (LogFetchError taskId) st in
          let st :=
            if (maxAttempts <=? c_attempts c)%nat then
              set_activePolls (delete taskId) (clearInterval tid st)
            else st in
          Some (settle call Settled st)
      | None => None
      end
  | _ => None
  end.

(** Invocation [call] resumes after [await downloadAssetsForTask(...)]:
    with the saved files when the promise is fulfilled, in the inner
    [catch] when it is rejected.  It does not resume when the promise
    never settles or the process has ended. *)
Definition download_done (call : nat) (now : Z) (st : state) : option state :=
  match calls st !! call with
  | Some (Invocation tid (AwaitDownload result)) =>
      match timers st !! tid with
      | Some c =>
          let taskId := c_taskId c in
          match result with
          | Fulfilled saved =>
              let entry := cache_get_or_empty st taskId in
              let entry :=
                Entry (lastRaw entry) (status entry) (Some now) (sunoData entry)
                      (Some true) (Some saved) in
              let st := set_taskCache (insert taskId entry) st in
              let st := log (LogSaved taskId (length saved)) st in
              Some (settle call Settled st)
          | Raised =>
              Some (settle call Settled (log (LogDownloadError taskId) st))
          | Crash | Hang => None
          end
      | None => None
      end
  | _ => None
  end.

(** The uncached branch of [GET /api/task/:taskId] once its
    [kieRecordInfo] has answered: the record is written and a poller
    started. *)
Definition query_miss (taskId : string) (r : value) (now : Z) (st : state) : state :=
  let status := observed_status r in
  let sunoData := extractSunoData r in
  let st :=
    set_taskCache
      (insert taskId (Entry r status (Some now) sunoData (Some false) (Some [])))
      st in
  startServerSidePoll taskId now st.

(** What the event loop can run next. *)
Inductive event : Type :=
| Start (taskId : string) (now : Z)
| Fire (tid : nat)
| FetchOk (call : nat) (kieResp : value) (remote : value -> transfer) (now : Z)
| FetchErr (call : nat)
| DownloadDone (call : nat) (now : Z)
| QueryMiss (taskId : string) (r : value) (now : Z).

(** What the server does with an event. *)
Definition react (e : event) (st : state) : option state :=
  match e with
  | Start taskId now => Some (startServerSidePoll taskId now st)
  | Fire tid => fire tid st
  | FetchOk call kieResp remote now => fetch_ok call kieResp remote now st
  | FetchErr call => fetch_err call st
  | DownloadDone call now => download_done call now st
  | QueryMiss taskId r now => Some (query_miss taskId r now st)
  end.

(** One step of the event loop; a process that has ended runs nothing. *)
Definition step (e : event) (st : state) : option state :=
  if exited st then None else react e st.

Fixpoint run (es : list event) (st : state) : option state :=
  match es with
  | [] => Some st
  | e :: rest =>
      match step e st with
      | Some st' => run rest st'
      | None => None
      end
  end.

(** The server right after start-up: the download root exists, and so
    do the directories above it. *)
Definition initial : state :=
  State ∅ ∅ [] []
    (make_dirs (path_ancestors DOWNLOAD_DIR ++ [DOWNLOAD_DIR]) (World ∅ [])) [].

Definition reachable (st : state) : Prop :=
  exists es, run es initial = Some st.

(** Every handle names a scheduled timer whose callback polls the task
    the handle is filed under. *)
Definition handles_live_in (polls : gmap string handle) (ts : list closure) : Prop :=
  forall t h,
    polls !! t = Some h ->
    exists c, ts !! timer h = Some c /\ c_taskId c = t /\ c_live c = true.

Definition handles_live (st : state) : Prop :=
  handles_live_in (activePolls st) (timers st).

(** The events [es] can run from [st], and [P] holds of the state they
    lead to. *)
Definition after (es : list event) (st : state) (P : state -> Prop) : Prop :=
  match run es st with
  | Some st' => P st'
  | None => False
  end.

(** The state [es] lead to from [st] ([st] itself when they cannot run). *)
Definition state_after (es : list event) (st : state) : state :=
  default st (run es st).

(** Events that complete no poll tick: a timer firing, a fetch failing, a
    start request. *)
Definition quiet (e : event) : bool :=
  match e with
  | Fire _ | FetchErr _ | Start _ _ => true
  | _ => false
  end.

(** The poller calls the materialiser at one place, right after writing
    the "reached final status" line, and sets [downloaded] at one place,
    right before writing the "assets saved" line. *)
Definition is_final_line (taskId : string) (l : log_line) : bool :=
  match l with
  | LogFinal t _ => String.eqb t taskId
  | _ => false
  end.

Definition is_saved_line (taskId : string) (l : log_line) : bool :=
  match l with
  | LogSaved t _ => String.eqb t taskId
  | _ => false
  end.

Definition materializer_invocations (taskId : string) (st : state) : nat :=
  length (List.filter (is_final_line taskId) (console st)).

Definition downloaded_writes (taskId : string) (st : state) : nat :=
  length (List.filter (is_saved_line taskId) (console st)).

End Scheduler.

(** ** Client-facing handlers *)

(** The [data] object of the cached answer of [GET /api/task/:taskId]. *)
Record task_view : Type := TaskView {
  v_taskId : string;
  v_status : value;
  v_lastUpdated : option Z;
  v_sunoData : value;
  v_downloaded : bool;
  v_localFiles : list saved_file
}.

(** The cached branch of [GET /api/task/:taskId]; [None] when the registry
    has no record and the handler goes on to fetch. *)
Definition task_query_cached (taskId : string) (st : state) : option task_view :=
  match taskCache st !! taskId with
  | Some cached =>
      Some (TaskView taskId (status cached) (updatedAt cached)
              (or_val (sunoData cached) (VArr []))
              (default false (downloaded cached))
              (default [] (localFiles cached)))
  | None => None
  end.

(** The outcomes of [GET /download]. *)
Inductive response : Type :=
| SendFile (path name : string)
| BadRequest
| StreamRemote (filename : string)
| DownloadFailed
| Uncaught.

(** A query parameter that passes an [if (param)] test. *)
Definition given (param : option string) : option string :=
  match param with
  | Some s => if String.eqb s "" then None else Some s
  | None => None
  end.

(** [(f.name && f.name.includes(basename)) || f.name === basename] *)
Definition name_matches (basename : string) (f : saved_file) : bool :=
  (negb (String.eqb (name f) "") && includes (name f) basename)
  || String.eqb (name f) basename.

Definition is_audio (f : saved_file) : bool := bool_decide (type f = audio).

Section Download.
Context `{!NodeEnv}.

(** The part of the handler that looks for a local file: [Normal None]
    when it falls through to the remote part, [Throw] when
    [new URL(fileUrl)] throws there. *)
Definition serve_local (fileUrl taskId : option string) (st : state)
    : completion (option response) :=
  match given taskId with
  | None => Normal None
  | Some t =>
      match taskCache st !! t with
      | None => Normal None
      | Some entry =>
          match localFiles entry with
          | Some (first :: others) =>
              let files := first :: others in
              matched ←
                match given fileUrl with
                | None => Normal None
                | Some u =>
                    match url_pathname u with
                    | None => Throw
                    | Some pathname =>
                        let basename := path_basename pathname in
                        match List.find (name_matches basename) files with
                        | Some found =>
                            if existsSync (disk st) (path found)
                            then Normal (Some (SendFile (path found) (name found)))
                            else Normal None
                        | None => Normal None
                        end
                    end
                end;
              match matched with
              | Some r => Normal (Some r)
              | None =>
                  let audioLocal := default first (List.find is_audio files) in
                  if existsSync (disk st) (path audioLocal)
                  then Normal (Some (SendFile (path audioLocal) (name audioLocal)))
                  else Normal None
              end
          | _ => Normal None
          end
      end
  end.

(** The remote part; [remote_ok] tells whether [axios.get(fileUrl)]
    resolves. *)
Definition serve_remote (fileUrl : option string) (remote_ok : bool) : response :=
  match given fileUrl with
  | None => BadRequest
  | Some u =>
      if remote_ok then
        match url_pathname u with
        | Some pathname => StreamRemote (or_str (path_basename pathname) "file.bin")
        | None => DownloadFailed
        end
      else DownloadFailed
  end.

Definition download_route (fileUrl taskId : option string) (remote_ok : bool)
    (st : state) : response :=
  match serve_local fileUrl taskId st with
  | Throw => Uncaught
  | Normal (Some r) => r
  | Normal None => serve_remote fileUrl remote_ok
  end.

(** *** The resolution order as the specification words it

    A materialised local file whose name matches the URL's path
    basename, else a first-available local audio file, else the remote
    URL streamed with an attachment name taken from its path. *)
Definition task_files (taskId : option string) (st : state) : list saved_file :=
  match given taskId with
  | Some t =>
      match taskCache st !! t with
      | Some entry => default [] (localFiles entry)
      | None => []
      end
  | None => []
  end.

Definition url_basename (fileUrl : option string) : option string :=
  u ← given fileUrl; pathname ← url_pathname u; Some (path_basename pathname).

Definition on_disk (st : state) (f : saved_file) : bool :=
  existsSync (disk st) (path f).

(** The three stages, with the choice of the second-stage candidate left
    open. *)
Definition resolve (candidate : list saved_file -> option saved_file)
    (fileUrl taskId : option string) (remote_ok : bool) (st : state) : response :=
  let files := task_files taskId st in
  let by_name :=
    b ← url_basename fileUrl;
    f ← List.find (name_matches b) files;
    if on_disk st f then Some f else None in
  let second :=
    f ← candidate files;
    if on_disk st f then Some f else None in
  match by_name, second with
  | Some f, _ => SendFile (path f) (name f)
  | None, Some f => SendFile (path f) (name f)
  | None, None => serve_remote fileUrl remote_ok
  end.

(** Second stage as worded: a local audio file. *)
Definition first_audio (files : list saved_file) : option saved_file :=
  List.find is_audio files.

Definition spec_download : option string -> option string -> bool -> state -> response :=
  resolve first_audio.

(** Second stage as coded: [find(f => f.type === 'audio') || localFiles[0]]. *)
Definition first_audio_or_first (files : list saved_file) : option saved_file :=
  match List.find is_audio files with
  | Some f => Some f
  | None => head files
  end.

End Download.

(** ** A small POSIX instance of the environment

    Enough of [URL] and [path] to run the definitions on concrete
    requests: [http(s)://host/path?query#fragment] URLs and [/]-separated
    paths. *)

Module Posix.

Fixpoint strip (pre s : string) : option string :=
  match pre, s with
  | EmptyString, _ => Some s
  | String a pre', String b s' => if Ascii.eqb a b then strip pre' s' else None
  | String _ _, EmptyString => None
  end.

Fixpoint drop_until (stop : ascii -> bool) (s : string) : string :=
  match s with
  | EmptyString => EmptyString
  | String c rest => if stop c then s else drop_until stop rest
  end.

Fixpoint take_until (stop : ascii -> bool) (s : string) : string :=
  match s with
  | EmptyString => EmptyString
  | String c rest => if stop c then EmptyString else String c (take_until stop rest)
  end.

Definition is_slash (c : ascii) : bool := Ascii.eqb c "/".
Definition ends_path (c : ascii) : bool := Ascii.eqb c "?" || Ascii.eqb c "#".

Definition pathname_of (u : string) : option string :=
  let after_scheme :=
    match strip "https://" u with
    | Some rest => Some rest
    | None => strip "http://" u
    end in
  match after_scheme with
  | Some rest =>
      if String.eqb (take_until is_slash rest) "" then None else
      let p := take_until ends_path (drop_until is_slash rest) in
      Some (if String.eqb p "" then "/" else p)
  | None => None
  end.

Fixpoint basename_from (current s : string) : string :=
  match s with
  | EmptyString => current
  | String c rest =>
      if is_slash c then basename_from EmptyString rest
      else basename_from (current +:+ String c EmptyString) rest
  end.

Definition basename (p : string) : string := basename_from EmptyString p.

Fixpoint ext_from (current : option string) (s : string) : option string :=
  match s with
  | EmptyString => current
  | String c rest =>
      if Ascii.eqb c "." then ext_from (Some ".") rest
      else ext_from ((fun e => e +:+ String c EmptyString) <$> current) rest
  end.

Definition extname (p : string) : string :=
  match basename p with
  | EmptyString => EmptyString
  | String _ rest => default EmptyString (ext_from None rest)
  end.

Definition join (a b : string) : string := a +:+ "/" +:+ b.

(** The directories above an absolute path, outermost first (the root is
    left out: it always exists). *)
Fixpoint ancestors_from (done current s : string) : list string :=
  match s with
  | EmptyString => []
  | String c rest =>
      if is_slash c then
        (if String.eqb current "" then [] else [done +:+ current])
        ++ ancestors_from (done +:+ current +:+ "/") EmptyString rest
      else ancestors_from done (current +:+ String c EmptyString) rest
  end.

Definition ancestors (p : string) : list string :=
  ancestors_from EmptyString EmptyString p.

(** The directory a path lies in. *)
Definition dirname (p : string) : string :=
  default "/" (last (ancestors p)).

(** NAME_MAX: no file name is longer than 255 bytes. *)
Definition name_too_long (p : string) : bool :=
  (255 <? String.length (basename p))%nat.

Fixpoint first_too_long (k : nat) (dirs : list string) : option nat :=
  match dirs with
  | [] => None
  | d :: rest => if name_too_long d then Some k else first_too_long (S k) rest
  end.

(** [mkdir] refuses a name that is too long, after the directories above
    it have been made. *)
Definition mkdir_stops_at (fs : gmap string N) (p : string) : option nat :=
  first_too_long 0
    (List.filter (fun d => negb (bool_decide (is_Some (fs !! d))))
       (ancestors p ++ [p])).

(** A file cannot be opened for writing under a name that is too long or
    in a directory that does not exist. *)
Definition cannot_open (fs : gmap string N) (p : string) : bool :=
  name_too_long p || negb (bool_decide (is_Some (fs !! dirname p))).

#[export] Instance env : NodeEnv := {|
  DOWNLOAD_DIR := "/srv/downloads";
  url_pathname := pathname_of;
  path_extname := extname;
  path_basename := basename;
  path_join := join;
  dir_size := 4096%N;
  path_ancestors := ancestors;
  mkdir_stops := mkdir_stops_at;
  open_fails := cannot_open
|}.

End Posix.

Import Posix.

(** ** Concrete payloads and runs *)

Definition track (title : string) (fields : list (string * value)) : value :=
  VObj (("title", VStr title) :: fields).

(** A record-info answer in the documented shape. *)
Definition record_info (st : string) (tracks : value) : value :=
  VObj [("code", VNum 200); ("msg", VStr "success");
        ("data", VObj [("taskId", VStr "t1"); ("status", VStr st);
                       ("response", VObj [("sunoData", tracks)])])].

Definition two_tracks : value :=
  VArr [track "Guild/Stars" [("audioUrl", VStr "https://cdn.kie.ai/a.mp3");
                             ("imageUrl", VStr "https://cdn.kie.ai/a.jpeg")];
        track "" [("audio_url", VStr "https://cdn.kie.ai/b")]].

(** Every server answers with a ten-byte body. *)
Definition all_up (u : value) : transfer := Delivered 10%N.

(** The first track's audio is unreachable. *)
Definition first_audio_down (u : value) : transfer :=
  match u with
  | VStr "https://cdn.kie.ai/a.mp3" => Refused
  | _ => Delivered 10%N
  end.

(** The server polling [t1], its first tick waiting for the upstream
    answer. *)
Definition polling_t1 : state :=
  state_after [Start "t1" 0; Fire 0] initial.

(** No server answers. *)
Definition all_down (u : value) : transfer := Refused.

Definition one_track : value :=
  VArr [track "Guild/Stars" [("audioUrl", VStr "https://cdn.kie.ai/a.mp3");
                             ("imageUrl", VStr "https://cdn.kie.ai/a.jpeg")]].

(** [t1] materialised while the audio server was down: only the cover was
    saved. *)
Definition cover_only : state :=
  state_after
    [Start "t1" 0; Fire 0;
     FetchOk 0 (record_info "SUCCESS" one_track) first_audio_down 1;
     DownloadDone 0 2]
    initial.

(** Two ticks of the same timer in flight at once, both answered
    [SUCCESS]. *)
Definition overlapping_ticks : list event :=
  [Start "t1" 0; Fire 0; Fire 0;
   FetchOk 0 (record_info "SUCCESS" two_tracks) all_up 1;
   FetchOk 1 (record_info "SUCCESS" two_tracks) all_up 2;
   DownloadDone 0 3; DownloadDone 1 4].

(** A start request for the task arrives while its download is in
    flight. *)
Definition restart_during_download : list event :=
  [Start "t1" 0; Fire 0;
   FetchOk 0 (record_info "SUCCESS" two_tracks) all_up 1;
   Start "t1" 2; Fire 1;
   FetchOk 1 (record_info "SUCCESS" two_tracks) all_up 3;
   DownloadDone 0 4; DownloadDone 1 5].

(** [n] ticks of timer 0, numbered from [call], each answered [PENDING]
    before the next one fires. *)
Fixpoint pending_rounds (n call : nat) : list event :=
  match n with
  | O => []
  | S n' =>
      Fire 0 :: FetchOk call (record_info "PENDING" (VArr [])) all_down 0
      :: pending_rounds n' (S call)
  end.

(** The poller of [t1] after 119 [PENDING] answers, its 120th tick waiting
    for the upstream answer. *)
Definition at_ceiling : state :=
  state_after (Start "t1" 0 :: pending_rounds 119 0 ++ [Fire 0]) initial.

(** A payload whose envelope carries a numeric status next to the nested
    textual one. *)
Definition numeric_status_payload : value :=
  VObj [("data", VObj [("status", VNum 200);
                       ("response", VObj [("status", VStr "SUCCESS")])])].

(** A payload whose only [sunoData] is not a list. *)
Definition scalar_sunoData_payload : value :=
  VObj [("data", VObj [("response", VObj [("sunoData", VNum 5)])])].

(** A payload with a truthy non-list ahead of the track list. *)
Definition shadowed_list_payload : value :=
  VObj [("response", VObj [("sunoData", VNum 1)]);
        ("sunoData", VArr [track "a" []])].

(** The connection to the first track's audio is lost four bytes into the
    body. *)
Definition first_audio_cut (u : value) : transfer :=
  match u with
  | VStr "https://cdn.kie.ai/a.mp3" => Cut 4%N
  | _ => Delivered 10%N
  end.

(** A name of 300 characters, longer than a file system takes. *)
Definition long_name : string := string_of_list_ascii (repeat "x"%char 300).

(** A track whose audio URL ends in an extension of 300 characters. *)
Definition long_extension_track : value :=
  VArr [track "a" [("audioUrl", VStr ("https://cdn.kie.ai/a." +:+ long_name));
                   ("imageUrl", VStr "https://cdn.kie.ai/a.jpeg")]].

(** One good track, then one whose title is an object with an own
    [toString] property. *)
Definition unprintable_title_tracks : value :=
  VArr [track "a" [("audioUrl", VStr "https://cdn.kie.ai/a.mp3")];
        VObj [("title", VObj [("toString", VNum 1)]);
              ("audioUrl", VStr "https://cdn.kie.ai/b.mp3")]].

(** The server polling the task whose identifier is [long_name], its
    first tick waiting for the upstream answer. *)
Definition polling_long : state :=
  state_after [Start long_name 0; Fire 0] initial.

(** ** Further definitions: the materialiser on a second look *)

Section MaterializerMore.
Context `{!NodeEnv}.
Variable remote : value -> transfer.

(** The test at the head of [downloadFileToPath]. *)
Definition already_fetched (w : world) (p : string) : bool :=
  existsSync w p && (0 <? stat_size w p)%N.

(** The I/O the call for job [j] performs in world [w]. *)
Definition io_of (w : world) (j : job) : io_event :=
  if already_fetched w (j_out j) then IoSkip (j_out j)
  else IoGet (j_url j) (j_out j) (delivers (remote (j_url j))).

Definition is_unsafe (c : ascii) : bool := existsb (Ascii.eqb c) unsafe_chars.

End MaterializerMore.


(** ** Further definitions: the scheduler on a second look *)

Section SchedulerMore.
Context `{!NodeEnv}.



(** The events of the poller that come before the download settles. *)
Definition before_download (e : event) : bool :=
  match e with
  | Start _ _ | Fire _ | FetchOk _ _ _ _ | FetchErr _ => true
  | DownloadDone _ _ | QueryMiss _ _ _ => false
  end.

(** Every timer polls a task that has a registry record. *)
Definition timers_have_records (st : state) : Prop :=
  forall tid c,
    timers st !! tid = Some c -> is_Some (taskCache st !! c_taskId c).

(** A scheduled timer whose counter has reached the ceiling has a tick
    waiting for the upstream answer. *)
Definition over_budget_in_flight (st : state) : Prop :=
  forall tid c,
    timers st !! tid = Some c -> c_live c = true ->
    maxAttempts <= c_attempts c ->
    exists call, calls st !! call = Some (Invocation tid AwaitFetch).

(** The [data] object the uncached branch of [GET /api/task/:taskId]
    answers with; it has no [lastUpdated]. *)
Definition task_query_miss_answer (taskId : string) (r : value) : task_view :=
  TaskView taskId (observed_status r) None (extractSunoData r) false [].

(** [r.data?.data?.taskId || r.data?.taskId] of the submission routes,
    [body] being [r.data]. *)
Definition submitted_taskId (body : value) : value :=
  or_val (body ?. "data" ?. "taskId") (body ?. "taskId").

(** What a submission route does to the server once the upstream has
    answered with [body]: [if (taskId) startServerSidePoll(taskId)].  The
    registry is keyed by strings; a truthy identifier of another type is
    outside the model ([None]). *)
Definition after_submission (body : value) (now : Z) (st : state) : option state :=
  match submitted_taskId body with
  | VStr taskId => Some (startServerSidePoll taskId now st)
  | other => if truthy other then None else Some st
  end.

End SchedulerMore.


(** ** The stand-alone script [download_tracks.js] *)

Module DownloadTracks.

(** An element of [files]: [{ url, name }]. *)
Record file : Type := File {
  url : string;
  name : string
}.

(** What [https.get] hands to its callback: the status code, the
    [location] header when present, and the size of the body. *)
Record incoming : Type := Incoming {
  statusCode : nat;
  location : option string;
  body : N
}.

(** A request either gets an answer or emits ['error']. *)
Inductive reply : Type :=
| Answer (r : incoming)
| NetError (message : string).

(** How the promise of [download] ends.  The request for a redirect
    target has no ['error'] listener: its failure is an uncaught
    exception, which ends the process. *)
Inductive settled : Type :=
| Resolved (outPath : string)
| Rejected (message : string)
| Crashed.

Inductive line : Type :=
| Downloading (name : string)
| SavedTo (outPath : string)
| AllDone
| DownloadFailedLine (message : string).

(** How the loop of the main function ends. *)
Inductive loop_end : Type :=
| LoopDone
| LoopRejected (message : string)
| LoopCrashed.

Definition files : list file :=
  [File "https://musicfile.kie.ai/NGRmZjRjZmQtNGE5Yy00MDg5LWE1YjctYjNhOGNlMWRiNzEx.mp3"
        "GuildOfStars_1.mp3";
   File "https://musicfile.kie.ai/MTFiMTZkNjgtYjJiMi00OGE3LTlkM2QtZTI1N2E5NTg3OTA2.mp3"
        "GuildOfStars_2.mp3"].

Section Script.
Context `{!NodeEnv}.

(** [__dirname] *)
Variable dirname : string.

(** The network as the script meets it. *)
Variable https_get : string -> reply.

Definition outDir : string := path_join dirname "downloads".

(** [r.statusCode >= 300 && r.statusCode < 400 && r.headers.location] *)
Definition redirect_target (r : incoming) : option string :=
  if (300 <=? statusCode r)%nat && (statusCode r <? 400)%nat
  then given (location r) else None.

Definition download (f : file) (fs : gmap string N) : settled * gmap string N :=
  let outPath := path_join outDir (name f) in
  let fs := <[outPath := 0%N]> fs in
  match https_get (url f) with
  | NetError message => (Rejected message, fs)
  | Answer r =>
      match redirect_target r with
      | Some target =>
          match https_get target with
          | Answer r2 => (Resolved outPath, <[outPath := body r2]> fs)
          | NetError _ => (Crashed, fs)
          end
      | None =>
          if (statusCode r =? 200)%nat
          then (Resolved outPath, <[outPath := body r]> fs)
          else (Rejected ("HTTP " +:+ pretty (statusCode r)), fs)
      end
  end.

(** The [for] loop of the main function. *)
Fixpoint loop (fl : list file) (fs : gmap string N) (out : list line)
    : loop_end * gmap string N * list line :=
  match fl with
  | [] => (LoopDone, fs, out)
  | f :: rest =>
      let out := out ++ [Downloading (name f)] in
      match download f fs with
      | (Resolved p, fs') => loop rest fs' (out ++ [SavedTo p])
      | (Rejected message, fs') => (LoopRejected message, fs', out)
      | (Crashed, fs') => (LoopCrashed, fs', out)
      end
  end.

(** [if (!fs.existsSync(outDir)) fs.mkdirSync(outDir, { recursive: true })] *)
Definition ensure_outDir (fs : gmap string N) : gmap string N :=
  if bool_decide (is_Some (fs !! outDir)) then fs else <[outDir := dir_size]> fs.

(** The script on the list [fl]: the directory check at the top of the
    file, then the main function with its [try]/[catch]. *)
Definition main (fl : list file) (fs : gmap string N) : gmap string N * list line :=
  let fs := ensure_outDir fs in
  match loop fl fs [] with
  | (LoopDone, fs', out) => (fs', out ++ [AllDone])
  | (LoopRejected message, fs', out) => (fs', out ++ [DownloadFailedLine message])
  | (LoopCrashed, fs', out) => (fs', out)
  end.

End Script.

(** A network for examples: the first file sits behind a redirect, every
    other address answers 404. *)
Definition sample_net (u : string) : reply :=
  if String.eqb u "https://musicfile.kie.ai/NGRmZjRjZmQtNGE5Yy00MDg5LWE1YjctYjNhOGNlMWRiNzEx.mp3"
  then Answer (Incoming 302 (Some "https://cdn.kie.ai/one.mp3") 0)
  else if String.eqb u "https://cdn.kie.ai/one.mp3"
  then Answer (Incoming 200 None 700)
  else Answer (Incoming 404 None 9).

End DownloadTracks.


(** ** Further definitions: polling in sequence *)

Section Rounds.
Context `{!NodeEnv}.

(** Ticks of timer [tid] that do not overlap: each fires, is numbered
    from [call] on, and gets its answer (with the time of arrival) before
    the next one fires. *)
Fixpoint rounds (tid call : nat) (answers : list (value * Z)) : list event :=
  match answers with
  | [] => []
  | (kieResp, now) :: rest =>
      Fire tid :: FetchOk call kieResp (fun _ => Refused) now
      :: rounds tid (S call) rest
  end.

(** An answer whose status is in neither terminal set. *)
Definition nonterminal (kieResp : value) : bool :=
  negb (set_has FINAL_STATUSES (observed_status kieResp))
  && negb (set_has ERROR_STATUSES (observed_status kieResp)).

End Rounds.


(* ===================================================================== *)
(** * Part II: lemmas and theorems                                         *)
(* ===================================================================== *)

(** ** JavaScript values *)

Lemma opt_get_truthy_get v p :
  truthy (v ?. p) = true -> get v p = Normal (v ?. p).
Proof. unfold get, opt_get. destruct (nullish v); [discriminate | reflexivity]. Qed.

Lemma truthy_not_nullish v : truthy v = true -> nullish v = false.
Proof. destruct v; simpl; congruence. Qed.

Lemma toUpperCase_empty s : toUpperCase s = "" <-> s = "".
Proof. destruct s; simpl; split; congruence. Qed.

Lemma truthy_upper s : truthy (VStr (toUpperCase s)) = truthy (VStr s).
Proof. destruct s; reflexivity. Qed.

(** ** Response normaliser *)

(** Finishes a goal about an [||] chain once the truthiness of its
    operands is among the hypotheses. *)
Ltac by_truthy :=
  repeat match goal with
         | H : truthy ?v = _ |- context [truthy ?v] => rewrite H
         | _ => progress cbn [truthy nullish]
         end;
  auto.

Section NormalizerFacts.
Import Normalizer.

Lemma recorded_falsy v : truthy v = false -> recorded v = VStr "UNKNOWN".
Proof.
  unfold recorded, or_val. destruct v; try reflexivity.
  rewrite truthy_upper. intros ->. reflexivity.
Qed.

Lemma recorded_string s :
  truthy (VStr s) = true -> recorded (VStr s) = VStr (toUpperCase s).
Proof. unfold recorded, or_val. rewrite truthy_upper. intros ->. reflexivity. Qed.

Lemma recorded_other v :
  (forall s, v <> VStr s) -> recorded v = VStr "UNKNOWN".
Proof. destruct v; intros Hv; try reflexivity. destruct (Hv s eq_refl). Qed.

Lemma js_or_normal a b : Normal a ||| Normal b = Normal (or_val a b).
Proof. unfold js_or, or_val. destruct (truthy a); reflexivity. Qed.

(** The third operand of the status chain never throws and is falsy
    whenever the first one is. *)
Lemma status_guard kieResp :
  exists v,
    Normal (kieResp ?. "data") &&& (d ← get kieResp "data"; get d "status")
    = Normal v
    /\ (truthy ((envelope kieResp) ?. "status") = false -> truthy v = false).
Proof.
  unfold js_and, envelope, or_val.
  destruct (truthy (kieResp ?. "data")) eqn:Hd.
  - rewrite (opt_get_truthy_get _ _ Hd). simpl.
    unfold get. rewrite (truthy_not_nullish _ Hd).
    exists (prop (kieResp ?. "data") "status"). split; [reflexivity |].
    unfold opt_get at 1. rewrite (truthy_not_nullish _ Hd). auto.
  - exists (kieResp ?. "data"). split; [reflexivity | auto].
Qed.

Lemma getStatus_body_selects kieResp :
  exists v,
    getStatus_body kieResp
    = Normal (match v with VStr s => VStr (toUpperCase s) | _ => VNull end)
    /\ match first_truthy (status_probes kieResp) with
       | Some p => v = p
       | None => truthy v = false
       end.
Proof.
  destruct (status_guard kieResp) as (g & Hg & Hfalsy).
  unfold getStatus_body, first_truthy, status_probes.
  rewrite js_or_normal. fold (envelope kieResp).
  unfold mbind at 1. unfold completion_bind at 1. cbv beta iota.
  set (data := envelope kieResp) in *.
  rewrite Hg, !js_or_normal.
  exists (or_val (or_val (data ?. "status") (data ?. "response" ?. "status")) g).
  split.
  - unfold mbind, completion_bind.
    destruct (or_val _ g); reflexivity.
  - unfold or_val. simpl.
    destruct (truthy (data ?. "status")) eqn:H1; [by_truthy |].
    destruct (truthy (data ?. "response" ?. "status")) eqn:H2; by_truthy.
Qed.

Lemma extract_fallback kieResp :
  let maybe := or_val (kieResp ?. "data" ?. "data") (kieResp ?. "data" ?. "response") in
  (if truthy (maybe ?. "sunoData") then get maybe "sunoData" else Normal (VArr []))
  = Normal (if truthy (fallback_probe kieResp)
            then fallback_probe kieResp else VArr []).
Proof.
  intros maybe. fold maybe. unfold fallback_probe. fold maybe.
  destruct (truthy (maybe ?. "sunoData")) eqn:Hs; [| reflexivity].
  apply opt_get_truthy_get, Hs.
Qed.

Lemma extractSunoData_body_selects kieResp :
  exists s,
    extractSunoData_body kieResp
    = Normal (if isArray s then s
              else if truthy (fallback_probe kieResp)
                   then fallback_probe kieResp else VArr [])
    /\ match first_truthy (primary_probes kieResp) with
       | Some p => s = p
       | None => truthy s = false
       end.
Proof.
  unfold extractSunoData_body, first_truthy, primary_probes.
  rewrite !js_or_normal. fold (envelope kieResp).
  unfold mbind at 1. unfold completion_bind at 1. cbv beta iota.
  set (data := envelope kieResp).
  rewrite !js_or_normal.
  unfold mbind at 1. unfold completion_bind at 1. cbv beta iota.
  set (s := or_val (or_val (or_val _ _) _) _).
  exists s. split.
  - destruct (isArray s); [reflexivity |].
    unfold mbind, completion_bind. apply extract_fallback.
  - subst s. unfold or_val. simpl.
    destruct (truthy (data ?. "response" ?. "sunoData")) eqn:H1; [by_truthy |].
    destruct (truthy (data ?. "sunoData")) eqn:H2; [by_truthy |].
    destruct (truthy (data ?. "response")) eqn:H3; [by_truthy |].
    destruct (truthy (data ?. "data" ?. "response" ?. "sunoData")) eqn:H4;
      by_truthy.
Qed.

Lemma observed_status_recorded kieResp :
  exists v,
    getStatus_body kieResp
    = Normal (match v with VStr s => VStr (toUpperCase s) | _ => VNull end)
    /\ observed_status kieResp = recorded v
    /\ match first_truthy (status_probes kieResp) with
       | Some p => v = p
       | None => truthy v = false
       end.
Proof.
  destruct (getStatus_body_selects kieResp) as (v & Hbody & Hsel).
  exists v. split; [exact Hbody | split; [| exact Hsel]].
  unfold observed_status, getStatusFromKieResp. rewrite Hbody. reflexivity.
Qed.

(** The registry always receives a non-empty string. *)
Lemma observed_status_string kieResp :
  exists s, observed_status kieResp = VStr s /\ s <> "".
Proof.
  destruct (observed_status_recorded kieResp) as (v & _ & -> & _).
  unfold recorded, or_val.
  destruct v; simpl; try (eexists; split; [reflexivity | discriminate]).
  destruct s as [| c s]; simpl; eexists; (split; [reflexivity | discriminate]).
Qed.

(** Where the code and the wording of the specification meet: whenever
    the envelope's own status is a string or falsy. *)
Lemma observed_status_meets_spec kieResp :
  (truthy ((envelope kieResp) ?. "status") = true ->
   exists s, (envelope kieResp) ?. "status" = VStr s) ->
  observed_status kieResp = spec_status kieResp.
Proof.
  intros Htop.
  destruct (observed_status_recorded kieResp) as (v & _ & -> & Hsel).
  unfold spec_status, first_truthy, status_probes in *. simpl in *.
  set (data := envelope kieResp) in *.
  destruct (truthy (data ?. "status")) eqn:H1.
  - subst v. destruct (Htop eq_refl) as (s & Hs). rewrite Hs in *.
    unfold nonempty_string. simpl in H1.
    destruct (String.eqb s "") eqn:E; [discriminate |].
    apply recorded_string. simpl. rewrite E. reflexivity.
  - assert (Hn1 : nonempty_string (data ?. "status") = None).
    { destruct (data ?. "status"); try reflexivity. simpl in H1 |- *.
      destruct (String.eqb s ""); [reflexivity | discriminate]. }
    rewrite Hn1.
    destruct (truthy (data ?. "response" ?. "status")) eqn:H2.
    + subst v. destruct (data ?. "response" ?. "status") eqn:E2;
        try (apply recorded_other; intros; discriminate).
      simpl in H2 |- *. destruct (String.eqb s "") eqn:E; [discriminate |].
      apply recorded_string. simpl. rewrite E. reflexivity.
    + rewrite (recorded_falsy _ Hsel).
      destruct (data ?. "response" ?. "status"); try reflexivity.
      simpl in H2 |- *. destruct (String.eqb s ""); [reflexivity | discriminate].
Qed.

(** The complete selection made by [extractSunoData]. *)
Lemma extractSunoData_selects kieResp :
  extractSunoData kieResp
  = match first_truthy (primary_probes kieResp) with
    | Some (VArr xs) => VArr xs
    | _ => if truthy (fallback_probe kieResp)
           then fallback_probe kieResp else VArr []
    end.
Proof.
  destruct (extractSunoData_body_selects kieResp) as (s & Hbody & Hsel).
  unfold extractSunoData. rewrite Hbody. unfold try_catch.
  destruct (first_truthy (primary_probes kieResp)) as [p |].
  - subst s. destruct p; reflexivity.
  - destruct s; try reflexivity. discriminate.
Qed.

End NormalizerFacts.

(** C6, as amended.  For every raw payload the body of
    [getStatusFromKieResp] completes normally, and the status written to
    the registry is decided by the first truthy value among the
    envelope's [status] and its nested [response.status]: a string is
    recorded upper-cased, and [UNKNOWN] is recorded when that value is not
    a string or no probe is truthy. *)
Theorem status_normalization_first_truthy (kieResp : value) :
  (exists v, getStatus_body kieResp = Normal v)
  /\ observed_status kieResp
     = match first_truthy (status_probes kieResp) with
       | Some (VStr s) => VStr (toUpperCase s)
       | _ => VStr "UNKNOWN"
       end.
Proof.
  destruct (observed_status_recorded kieResp) as (v & Hbody & -> & Hsel).
  split; [eexists; exact Hbody |].
  destruct (first_truthy (status_probes kieResp)) as [p |] eqn:Hfind.
  - subst v. apply List.find_some in Hfind as [_ Hp].
    destruct p; try (apply recorded_other; intros; discriminate).
    apply recorded_string, Hp.
  - apply recorded_falsy, Hsel.
Qed.

(** C6 as stated fails: a numeric envelope status hides the textual
    nested one, although a non-empty string was there to be found. *)
Lemma status_first_string_refuted :
  spec_status numeric_status_payload = VStr "SUCCESS"
  /\ observed_status numeric_status_payload = VStr "UNKNOWN"
  /\ observed_status numeric_status_payload <> spec_status numeric_status_payload.
Proof. repeat split; try reflexivity. discriminate. Qed.

(** C2, as amended.  For every raw payload the body of [extractSunoData]
    completes normally.  The first truthy value among the four primary
    probes is returned when it is a list; otherwise the fallback probe is
    returned when it is a list, and the empty list when it is falsy. *)
Theorem extractSunoData_first_truthy (kieResp : value) :
  (exists v, extractSunoData_body kieResp = Normal v)
  /\ match first_truthy (primary_probes kieResp) with
     | Some (VArr xs) => extractSunoData kieResp = VArr xs
     | _ =>
         match fallback_probe kieResp with
         | VArr ys => extractSunoData kieResp = VArr ys
         | other =>
             if truthy other then True else extractSunoData kieResp = VArr []
         end
     end.
Proof.
  split; [destruct (extractSunoData_body_selects kieResp) as (s & Hbody & _);
          eexists; exact Hbody |].
  rewrite extractSunoData_selects.
  destruct (first_truthy (primary_probes kieResp)) as [[| | | | | xs |] |];
    try reflexivity;
    (destruct (fallback_probe kieResp) as [| | [] | z | str | ys | fs];
     simpl; try reflexivity; try exact I;
     [destruct (z =? 0)%Z | destruct (String.eqb str "")];
     simpl; try reflexivity; exact I).
Qed.

(** C2 as stated fails: the fallback return hands back whatever truthy
    value sits under [sunoData], here a number, where no list exists. *)
Lemma extractSunoData_sequence_refuted :
  extractSunoData scalar_sunoData_payload = VNum 5
  /\ isArray (extractSunoData scalar_sunoData_payload) = false
  /\ spec_assets scalar_sunoData_payload = VArr [].
Proof. repeat split; reflexivity. Qed.

(** A truthy non-list ahead of the track list hides it. *)
Example extractSunoData_list_shadowed :
  extractSunoData shadowed_list_payload = VArr []
  /\ spec_assets shadowed_list_payload = VArr [track "a" []].
Proof. split; reflexivity. Qed.


(** ** Asset materialiser *)

Section FateFacts.

Lemma and_then_ret {A : Type} (r : fate A * world) :
  and_then r (fun a w => (Fulfilled a, w)) = r.
Proof. destruct r as [[a | | |] w]; reflexivity. Qed.

Lemma and_then_ext {A B : Type} (r : fate A * world)
    (k1 k2 : A -> world -> fate B * world) :
  (forall a w, k1 a w = k2 a w) -> and_then r k1 = and_then r k2.
Proof. intros Hk. destruct r as [[a | | |] w]; simpl; auto. Qed.

Lemma and_then_assoc {A B C : Type} (r : fate A * world)
    (k1 : A -> world -> fate B * world) (k2 : B -> world -> fate C * world) :
  and_then (and_then r k1) k2 = and_then r (fun a w => and_then (k1 a w) k2).
Proof. destruct r as [[a | | |] w]; reflexivity. Qed.

(** What follows an [await] has run only if the awaited call returned. *)
Lemma and_then_fulfilled {A B : Type} (r : fate A * world)
    (k : A -> world -> fate B * world) (b : B) (w' : world) :
  and_then r k = (Fulfilled b, w') ->
  exists a w1, r = (Fulfilled a, w1) /\ k a w1 = (Fulfilled b, w').
Proof. destruct r as [[a | | |] w]; simpl; try discriminate. eauto. Qed.

End FateFacts.

Section MaterializerFacts.
Context `{!NodeEnv}.
Variable remote : value -> transfer.




(** A call touches no path but its destination. *)
Lemma downloadFileToPath_other fileUrl outPath w p :
  p <> outPath ->
  w_fs (downloadFileToPath remote fileUrl outPath w).2 !! p = w_fs w !! p.
Proof.
  intros Hne. unfold downloadFileToPath.
  destruct (existsSync w outPath && _); [reflexivity |].
  destruct (open_fails _ _); [reflexivity |].
  destruct (remote fileUrl); simpl; rewrite ?lookup_insert_ne by congruence;
    reflexivity.
Qed.

(** No call removes a path. *)
Lemma downloadFileToPath_keeps fileUrl outPath w p :
  is_Some (w_fs w !! p) ->
  is_Some (w_fs (downloadFileToPath remote fileUrl outPath w).2 !! p).
Proof.
  intros Hp. destruct (decide (p = outPath)) as [-> |];
    [| rewrite downloadFileToPath_other by assumption; exact Hp].
  unfold downloadFileToPath.
  destruct (existsSync w outPath && _); [exact Hp |].
  destruct (open_fails _ _); [exact Hp |].
  destruct (remote fileUrl); simpl; rewrite ?lookup_insert_eq; eauto.
Qed.

(** A call that returns leaves its destination on disk. *)
Lemma downloadFileToPath_normal_exists fileUrl outPath w out w' :
  downloadFileToPath remote fileUrl outPath w = (Fulfilled out, w') ->
  is_Some (w_fs w' !! outPath).
Proof.
  unfold downloadFileToPath, existsSync.
  case_bool_decide as Hex; simpl.
  - destruct (0 <? stat_size w outPath)%N.
    + intros [= _ <-]. exact Hex.
    + destruct (open_fails _ _); [discriminate |].
      destruct (remote fileUrl); try discriminate.
      intros [= _ <-]. simpl. rewrite lookup_insert_eq. eauto.
  - destruct (open_fails _ _); [discriminate |].
    destruct (remote fileUrl); try discriminate.
    intros [= _ <-]. simpl. rewrite lookup_insert_eq. eauto.
Qed.

(** *** The loop runs the plan *)

Lemma run_jobs_app js1 js2 : forall saved w,
  run_jobs remote (js1 ++ js2) saved w
  = and_then (run_jobs remote js1 saved w) (run_jobs remote js2).
Proof.
  induction js1 as [| j js1 IH]; intros saved w; simpl; [reflexivity |].
  rewrite and_then_assoc. apply and_then_ext, IH.
Qed.

Lemma run_jobs_one j saved w :
  run_jobs remote [j] saved w = run_job remote j saved w.
Proof. simpl. apply and_then_ret. Qed.

Lemma try_download_plan k suffix dflt url taskDir pfx saved w :
  (if truthy url then try_download remote k suffix dflt url taskDir pfx saved w
   else (Fulfilled saved, w))
  = run_jobs remote (plan_one k suffix dflt url taskDir pfx) saved w.
Proof.
  unfold plan_one, try_download.
  destruct (truthy url); [| reflexivity].
  destruct (url_path url); [| reflexivity].
  rewrite run_jobs_one. reflexivity.
Qed.

Lemma download_item_plan taskDir i elem saved w :
  download_item remote taskDir i elem saved w
  = match prefix (or_val elem (VObj [])) i with
    | Normal pfx => run_jobs remote (plan_item taskDir pfx elem) saved w
    | Throw => (Raised, w)
    end.
Proof.
  unfold download_item, plan_item. cbv zeta.
  destruct (prefix (or_val elem (VObj [])) i) as [pfx |]; [| reflexivity].
  rewrite run_jobs_app, <- try_download_plan.
  apply and_then_ext. intros saved1 w1.
  rewrite run_jobs_app, <- try_download_plan.
  apply and_then_ext. intros saved2 w2.
  set (imageUrl := or_val (prop _ "imageUrl") _).
  destruct (truthy imageUrl) eqn:Hi;
    rewrite <- try_download_plan, ?Hi; reflexivity.
Qed.

Lemma download_loop_plan taskDir items : forall i saved w,
  download_loop remote taskDir i items saved w
  = and_then (run_jobs remote (plan_loop taskDir i items) saved w)
      (finish (titles_ok i items)).
Proof.
  induction items as [| elem rest IH]; intros i saved w;
    cbn [download_loop plan_loop titles_ok]; [reflexivity |].
  rewrite download_item_plan.
  destruct (prefix (or_val elem (VObj [])) i) as [pfx |]; [| reflexivity].
  rewrite run_jobs_app, and_then_assoc. apply and_then_ext, IH.
Qed.

(** The materialiser is the directory step, then the plan, then the
    return, unless a title stopped the loop. *)
Lemma downloadAssetsForTask_plan taskId sunoDataArray w :
  downloadAssetsForTask remote taskId sunoDataArray w
  = match ensure_dir taskId sunoDataArray w with
    | (Normal _, w1) =>
        and_then (run_jobs remote (planned taskId sunoDataArray) [] w1)
          (finish (titles_convert sunoDataArray))
    | (Throw, w1) => (Raised, w1)
    end.
Proof.
  unfold downloadAssetsForTask, planned, ensure_dir, titles_convert.
  destruct sunoDataArray as [| | | | | [| first rest] |]; try reflexivity.
  cbv zeta.
  destruct (if existsSync w _ then _ else _) as [[u |] w1]; [| reflexivity].
  apply download_loop_plan.
Qed.

(** *** What running a plan does *)

Lemma run_job_world j saved w :
  (run_job remote j saved w).2
  = (downloadFileToPath remote (j_url j) (j_out j) w).2.
Proof.
  unfold run_job.
  destruct (downloadFileToPath remote (j_url j) (j_out j) w) as [[] ?]; reflexivity.
Qed.

(** The world a plan leaves behind is reached from the world after its
    first job. *)
Lemma run_jobs_cons_world j js saved w :
  exists saved1,
    (run_jobs remote (j :: js) saved w).2
    = (run_jobs remote js saved1 (run_job remote j saved w).2).2
    \/ (run_jobs remote (j :: js) saved w).2 = (run_job remote j saved w).2.
Proof.
  simpl. destruct (run_job remote j saved w) as [[saved1 | | |] w1]; simpl;
    [exists saved1; left; reflexivity | exists [] ..]; right; reflexivity.
Qed.

Lemma run_job_trace j saved w saved' w' :
  run_job remote j saved w = (Fulfilled saved', w') ->
  exists e,
    w_io w' = w_io w ++ [e]
    /\ attempt_of remote j e
    /\ saved' = saved ++ (if event_ok e then [job_file j] else []).
Proof.
  unfold run_job, downloadFileToPath, attempt_of.
  destruct (existsSync w (j_out j) && _).
  - intros [= <- <-]. exists (IoSkip (j_out j)). simpl. auto.
  - destruct (open_fails _ _); [discriminate |].
    destruct (remote (j_url j)) eqn:Hr; try discriminate; intros [= <- <-].
    + exists (IoGet (j_url j) (j_out j) true). simpl. repeat split; auto.
    + exists (IoGet (j_url j) (j_out j) false). simpl.
      rewrite app_nil_r. repeat split; auto.
Qed.

Lemma run_jobs_trace js : forall saved w saved' w',
  run_jobs remote js saved w = (Fulfilled saved', w') ->
  exists trace,
    w_io w' = w_io w ++ trace
    /\ Forall2 (attempt_of remote) js trace
    /\ saved' = saved ++ kept js trace.
Proof.
  induction js as [| j js IH]; intros saved w saved' w' Hrun.
  - injection Hrun as <- <-. exists []. rewrite !app_nil_r.
    repeat split; constructor.
  - simpl in Hrun.
    apply and_then_fulfilled in Hrun as (saved1 & w1 & Hjob & Hrest).
    destruct (run_job_trace j saved w saved1 w1 Hjob) as (e & Hio & Hatt & Hsaved).
    destruct (IH saved1 w1 saved' w' Hrest) as (trace & Hio' & Hall & Hsaved').
    exists (e :: trace). rewrite Hio', Hio, Hsaved', Hsaved. simpl.
    rewrite <- !app_assoc. repeat split; [constructor; assumption].
Qed.

Lemma run_jobs_other js p : forall saved w,
  p ∉ map j_out js ->
  w_fs (run_jobs remote js saved w).2 !! p = w_fs w !! p.
Proof.
  induction js as [| j js IH]; intros saved w Hp; [reflexivity |].
  simpl in Hp. apply not_elem_of_cons in Hp as [Hne Hp].
  pose proof (downloadFileToPath_other (j_url j) (j_out j) w p Hne) as Hjob.
  rewrite <- run_job_world with (saved := saved) in Hjob.
  destruct (run_jobs_cons_world j js saved w) as (saved1 & [-> | ->]);
    [rewrite IH by exact Hp |]; exact Hjob.
Qed.

Lemma run_jobs_keeps js p : forall saved w,
  is_Some (w_fs w !! p) ->
  is_Some (w_fs (run_jobs remote js saved w).2 !! p).
Proof.
  induction js as [| j js IH]; intros saved w Hp; [exact Hp |].
  pose proof (downloadFileToPath_keeps (j_url j) (j_out j) w p Hp) as Hjob.
  rewrite <- run_job_world with (saved := saved) in Hjob.
  destruct (run_jobs_cons_world j js saved w) as (saved1 & [-> | ->]);
    [apply IH |]; exact Hjob.
Qed.



(** *** The directory step *)

Lemma make_dirs_io dirs : forall w, w_io (make_dirs dirs w) = w_io w.
Proof.
  unfold make_dirs. induction dirs as [| d dirs IH]; intros w; simpl;
    [reflexivity | rewrite IH; reflexivity].
Qed.

Lemma make_dirs_lookup dirs p : forall w,
  w_fs (make_dirs dirs w) !! p
  = if bool_decide (p ∈ dirs) then Some dir_size else w_fs w !! p.
Proof.
  unfold make_dirs. induction dirs as [| d dirs IH]; intros w; cbn [fold_left].
  - rewrite bool_decide_eq_false_2 by apply not_elem_of_nil. reflexivity.
  - rewrite IH. cbn [write_file w_fs]. case_bool_decide as Hin.
    + rewrite bool_decide_eq_true_2 by (right; exact Hin). reflexivity.
    + destruct (decide (p = d)) as [-> | Hne].
      * rewrite lookup_insert_eq, bool_decide_eq_true_2 by left. reflexivity.
      * rewrite lookup_insert_ne by congruence.
        rewrite bool_decide_eq_false_2; [reflexivity |].
        intros Hin'. apply elem_of_cons in Hin' as [-> | Hin']; contradiction.
Qed.

(** [mkdirSync] writes no path but missing directories on the way to
    [dir]. *)
Lemma mkdirSync_frame dir w p :
  w_fs (mkdirSync dir w).2 !! p = w_fs w !! p
  \/ (w_fs w !! p = None
      /\ p ∈ path_ancestors dir ++ [dir]
      /\ w_fs (mkdirSync dir w).2 !! p = Some dir_size).
Proof.
  unfold mkdirSync. cbv zeta.
  set (missing := List.filter _ _).
  assert (Hmissing : forall q,
             q ∈ missing ->
             w_fs w !! q = None /\ q ∈ path_ancestors dir ++ [dir]).
  { intros q Hq. apply list_elem_of_In, List.filter_In in Hq as [Hin Habs].
    split; [| apply list_elem_of_In, Hin].
    apply negb_true_iff in Habs. unfold existsSync in Habs.
    apply bool_decide_eq_false in Habs.
    destruct (w_fs w !! q); [destruct Habs; eauto | reflexivity]. }
  assert (Hsub : forall dirs,
             (forall q, q ∈ dirs -> q ∈ missing) ->
             w_fs (make_dirs dirs w) !! p = w_fs w !! p
             \/ (w_fs w !! p = None
                 /\ p ∈ path_ancestors dir ++ [dir]
                 /\ w_fs (make_dirs dirs w) !! p = Some dir_size)).
  { intros dirs Hdirs. rewrite make_dirs_lookup. case_bool_decide as Hin; [| auto].
    right. destruct (Hmissing p (Hdirs p Hin)). auto. }
  destruct (mkdir_stops (w_fs w) dir) as [k |]; simpl; apply Hsub; [| auto].
  intros q Hq. eapply subseteq_take, Hq.
Qed.

Lemma mkdirSync_io dir w : w_io (mkdirSync dir w).2 = w_io w.
Proof.
  unfold mkdirSync. cbv zeta.
  destruct (mkdir_stops (w_fs w) dir); simpl; apply make_dirs_io.
Qed.

Lemma mkdirSync_made dir w u w1 :
  mkdirSync dir w = (Normal u, w1) -> is_Some (w_fs w1 !! dir).
Proof.
  unfold mkdirSync. cbv zeta.
  destruct (mkdir_stops (w_fs w) dir); [discriminate |].
  intros [= _ <-]. rewrite make_dirs_lookup. case_bool_decide as Hin; [eauto |].
  destruct (w_fs w !! dir) eqn:Hdir; [eauto |].
  destruct Hin. apply list_elem_of_In, List.filter_In. split.
  - apply in_or_app. right. left. reflexivity.
  - apply negb_true_iff. unfold existsSync. apply bool_decide_eq_false.
    rewrite Hdir. apply is_Some_None.
Qed.

Lemma ensure_dir_frame taskId sunoDataArray w p :
  w_fs (ensure_dir taskId sunoDataArray w).2 !! p = w_fs w !! p
  \/ (w_fs w !! p = None
      /\ p ∈ path_ancestors (path_join DOWNLOAD_DIR taskId)
             ++ [path_join DOWNLOAD_DIR taskId]
      /\ w_fs (ensure_dir taskId sunoDataArray w).2 !! p = Some dir_size).
Proof.
  unfold ensure_dir.
  destruct sunoDataArray as [| | | | | [| first rest] |]; try (left; reflexivity).
  destruct (existsSync w _); [left; reflexivity | apply mkdirSync_frame].
Qed.

Lemma ensure_dir_keeps taskId sunoDataArray w p :
  is_Some (w_fs w !! p) ->
  is_Some (w_fs (ensure_dir taskId sunoDataArray w).2 !! p).
Proof.
  intros Hp.
  destruct (ensure_dir_frame taskId sunoDataArray w p) as [-> | (Hnone & _)];
    [exact Hp |].
  rewrite Hnone in Hp. destruct (is_Some_None Hp).
Qed.

Lemma ensure_dir_io taskId sunoDataArray w :
  w_io (ensure_dir taskId sunoDataArray w).2 = w_io w.
Proof.
  unfold ensure_dir. destruct sunoDataArray as [| | | | | [| first rest] |];
    try reflexivity.
  destruct (existsSync w _); [reflexivity | apply mkdirSync_io].
Qed.

Lemma ensure_dir_exists taskId first rest w u w1 :
  ensure_dir taskId (VArr (first :: rest)) w = (Normal u, w1) ->
  is_Some (w_fs w1 !! path_join DOWNLOAD_DIR taskId).
Proof.
  unfold ensure_dir, existsSync. case_bool_decide as Hd.
  - intros [= _ <-]. exact Hd.
  - apply mkdirSync_made.
Qed.

(** A materialisation that returned went through the directory step and
    the whole plan, and no title stopped it. *)
Lemma downloadAssetsForTask_returned taskId sunoDataArray w saved w' :
  downloadAssetsForTask remote taskId sunoDataArray w = (Fulfilled saved, w') ->
  exists u w1,
    ensure_dir taskId sunoDataArray w = (Normal u, w1)
    /\ run_jobs remote (planned taskId sunoDataArray) [] w1 = (Fulfilled saved, w')
    /\ titles_convert sunoDataArray = true.
Proof.
  rewrite downloadAssetsForTask_plan.
  destruct (ensure_dir taskId sunoDataArray w) as [[u |] w1]; [| discriminate].
  intros Hrun. apply and_then_fulfilled in Hrun as (saved1 & w2 & Hjobs & Hfin).
  unfold finish in Hfin.
  destruct (titles_convert sunoDataArray); [| discriminate].
  injection Hfin as <- <-. eauto.
Qed.

(** Once a materialisation has returned, the directory step of the next
    one changes nothing. *)
Lemma ensure_dir_settled taskId sunoDataArray w saved w' :
  downloadAssetsForTask remote taskId sunoDataArray w = (Fulfilled saved, w') ->
  ensure_dir taskId sunoDataArray w' = (Normal tt, w').
Proof.
  intros Hrun.
  destruct (downloadAssetsForTask_returned _ _ _ _ _ Hrun)
    as (u & w1 & Hdir & Hjobs & _).
  destruct sunoDataArray as [| | | | | [| first rest] |]; try reflexivity.
  assert (Hd : is_Some (w_fs w' !! path_join DOWNLOAD_DIR taskId)).
  { pose proof (run_jobs_keeps (planned taskId (VArr (first :: rest)))
                  (path_join DOWNLOAD_DIR taskId) [] w1
                  (ensure_dir_exists _ _ _ _ _ _ Hdir)) as Hk.
    rewrite Hjobs in Hk. exact Hk. }
  unfold ensure_dir, existsSync. rewrite bool_decide_eq_true_2 by exact Hd.
  reflexivity.
Qed.

End MaterializerFacts.




(** ** Task registry and poll scheduler *)

Section SchedulerFacts.
Context `{!NodeEnv}.

Lemma start_noop taskId now st :
  is_Some (activePolls st !! taskId) -> startServerSidePoll taskId now st = st.
Proof.
  intros Hh. unfold startServerSidePoll.
  destruct (String.eqb taskId ""); [reflexivity |].
  rewrite bool_decide_eq_true_2 by exact Hh. reflexivity.
Qed.

Lemma start_cache_kept taskId now st t :
  is_Some (taskCache st !! t) ->
  taskCache (startServerSidePoll taskId now st) !! t = taskCache st !! t.
Proof.
  intros Ht. unfold startServerSidePoll.
  destruct (String.eqb taskId ""); [reflexivity |].
  case_bool_decide; [reflexivity |]. simpl.
  case_bool_decide as Hc; simpl; [reflexivity |].
  rewrite lookup_insert_ne; [reflexivity |].
  intros ->. apply Hc, Ht.
Qed.

Lemma start_fresh taskId now st :
  taskId <> "" ->
  taskCache st !! taskId = None ->
  activePolls st !! taskId = None ->
  taskCache (startServerSidePoll taskId now st) !! taskId
  = Some (Entry VNull VNull (Some now) VUndef (Some false) (Some [])).
Proof.
  intros Hne Hc Ha. unfold startServerSidePoll.
  destruct (String.eqb_spec taskId ""); [contradiction |].
  rewrite bool_decide_eq_false_2 by (rewrite Ha; apply is_Some_None).
  simpl. rewrite bool_decide_eq_false_2 by (rewrite Hc; apply is_Some_None).
  simpl. apply lookup_insert_eq.
Qed.

Lemma fire_cache tid st st' : fire tid st = Some st' -> taskCache st' = taskCache st.
Proof.
  unfold fire. destruct (timers st !! tid) as [c |]; [| discriminate].
  destruct (c_live c); [| discriminate]. intros [= <-]. reflexivity.
Qed.

Lemma fetch_err_cache call st st' :
  fetch_err call st = Some st' -> taskCache st' = taskCache st.
Proof.
  unfold fetch_err.
  destruct (calls st !! call) as [[tid []] |]; try discriminate.
  destruct (timers st !! tid) as [c |]; [| discriminate].
  destruct (maxAttempts <=? c_attempts c)%nat; intros [= <-]; reflexivity.
Qed.

(** A step is the server's reaction, in a process that runs. *)
Lemma step_react e st st' : step e st = Some st' -> react e st = Some st'.
Proof. unfold step. destruct (exited st); [discriminate | auto]. Qed.

Lemma step_running e st st' : step e st = Some st' -> exited st = false.
Proof. unfold step. destruct (exited st); [discriminate | reflexivity]. Qed.

Lemma react_step e st : exited st = false -> step e st = react e st.
Proof. unfold step. intros ->. reflexivity. Qed.

Lemma quiet_step_cache e st st' t :
  quiet e = true -> step e st = Some st' ->
  is_Some (taskCache st !! t) ->
  taskCache st' !! t = taskCache st !! t.
Proof.
  intros Hq Hstep. apply step_react in Hstep. revert Hq Hstep.
  destruct e; try discriminate; intros _; simpl.
  - intros [= <-]. apply start_cache_kept.
  - intros Hf _. rewrite (fire_cache _ _ _ Hf). reflexivity.
  - intros Hf _. rewrite (fetch_err_cache _ _ _ Hf). reflexivity.
Qed.

Lemma quiet_run_cache es : forall st st' t,
  forallb quiet es = true -> run es st = Some st' ->
  is_Some (taskCache st !! t) ->
  taskCache st' !! t = taskCache st !! t.
Proof.
  induction es as [| e es IH]; intros st st' t Hq Hrun Ht; simpl in *.
  - injection Hrun as <-. reflexivity.
  - apply andb_prop in Hq as [He Hq].
    destruct (step e st) as [st1 |] eqn:Hstep; [| discriminate].
    pose proof (quiet_step_cache _ _ _ t He Hstep Ht) as H1.
    rewrite (IH st1 st' t Hq Hrun) by (rewrite H1; exact Ht). exact H1.
Qed.

End SchedulerFacts.

(** C10.  A poller started for a task the registry does not know yet
    creates the record with status [null]; until a poll tick completes,
    the status query answers with status [null], no assets,
    [downloaded = false] and no local files. *)
Theorem fresh_task_reads_null `{!NodeEnv}
    (st : state) (taskId : string) (now : Z) (es : list event) (st' : state) :
  taskId <> "" ->
  taskCache st !! taskId = None ->
  activePolls st !! taskId = None ->
  forallb quiet es = true ->
  run es (startServerSidePoll taskId now st) = Some st' ->
  task_query_cached taskId st'
  = Some (TaskView taskId VNull (Some now) (VArr []) false []).
Proof.
  intros Hne Hc Ha Hq Hrun.
  pose proof (start_fresh taskId now st Hne Hc Ha) as Hfresh.
  unfold task_query_cached.
  rewrite (quiet_run_cache es _ _ taskId Hq Hrun) by (rewrite Hfresh; eauto).
  rewrite Hfresh. reflexivity.
Qed.

(** A poller for [t1] on the fresh server; its first tick fails and the
    second is still in flight when the query arrives. *)
Lemma fresh_task_reads_null_witness :
  after [Fire 0; FetchErr 0; Fire 0] (startServerSidePoll "t1" 7 initial)
    (fun st' =>
       task_query_cached "t1" st'
       = Some (TaskView "t1" VNull (Some 7%Z) (VArr []) false [])).
Proof.
  unfold after.
  destruct (run [Fire 0; FetchErr 0; Fire 0] (startServerSidePoll "t1" 7 initial))
    as [st' |] eqn:Hrun; [| vm_compute in Hrun; discriminate].
  apply (fresh_task_reads_null initial "t1" 7%Z [Fire 0; FetchErr 0; Fire 0]).
  - discriminate.
  - reflexivity.
  - reflexivity.
  - reflexivity.
  - exact Hrun.
Defined.

Section TickFacts.
Context `{!NodeEnv}.

Lemma count_final_app taskId (l1 l2 : list log_line) :
  length (List.filter (is_final_line taskId) (l1 ++ l2))
  = length (List.filter (is_final_line taskId) l1)
    + length (List.filter (is_final_line taskId) l2).
Proof. rewrite List.filter_app, length_app. reflexivity. Qed.

Lemma count_saved_app taskId (l1 l2 : list log_line) :
  length (List.filter (is_saved_line taskId) (l1 ++ l2))
  = length (List.filter (is_saved_line taskId) l1)
    + length (List.filter (is_saved_line taskId) l2).
Proof. rewrite List.filter_app, length_app. reflexivity. Qed.

(** The firing of a live timer counts one attempt and suspends a new
    invocation at the fetch. *)
Lemma fire_counts tid c st :
  timers st !! tid = Some c -> c_live c = true ->
  exists st1,
    fire tid st = Some st1
    /\ timers st1 !! tid = Some (Closure (c_taskId c) (S (c_attempts c)) true)
    /\ calls st1 !! length (calls st) = Some (Invocation tid AwaitFetch)
    /\ taskCache st1 = taskCache st /\ activePolls st1 = activePolls st
    /\ disk st1 = disk st /\ console st1 = console st.
Proof.
  intros Ht Hlive. unfold fire. rewrite Ht, Hlive.
  eexists. split; [reflexivity |]. simpl.
  rewrite list_lookup_alter_eq, Ht. simpl. rewrite Hlive.
  repeat split. apply list_lookup_middle. reflexivity.
Qed.

(** The [catch] block, spelt out. *)
Lemma fetch_err_effect st call tid c :
  calls st !! call = Some (Invocation tid AwaitFetch) ->
  timers st !! tid = Some c ->
  exists st',
    fetch_err call st = Some st'
    /\ taskCache st' = taskCache st
    /\ disk st' = disk st
    /\ console st' = console st ++ [LogFetchError (c_taskId c)]
    /\ calls st' !! call = Some (Invocation tid Settled)
    /\ (if (maxAttempts <=? c_attempts c)%nat
        then activePolls st' = delete (c_taskId c) (activePolls st)
             /\ timers st'
                = alter (fun c => Closure (c_taskId c) (c_attempts c) false) tid (timers st)
        else activePolls st' = activePolls st /\ timers st' = timers st).
Proof.
  intros Hcall Ht. unfold fetch_err. rewrite Hcall, Ht.
  eexists. split; [reflexivity |].
  destruct (maxAttempts <=? c_attempts c)%nat; simpl;
    rewrite list_lookup_alter_eq, Hcall; repeat split; reflexivity.
Qed.

End TickFacts.

Section CountFacts.
Context `{!NodeEnv}.

Lemma alter_counts (f : closure -> closure) (ts : list closure)
    (tid0 tid : nat) (c : closure) :
  (forall c, c_taskId (f c) = c_taskId c /\ c_attempts c <= c_attempts (f c)) ->
  ts !! tid = Some c ->
  exists c',
    alter f tid0 ts !! tid = Some c'
    /\ c_taskId c' = c_taskId c /\ c_attempts c <= c_attempts c'.
Proof.
  intros Hf Hl. destruct (decide (tid0 = tid)) as [-> | Hne].
  - exists (f c). rewrite list_lookup_alter_eq, Hl. destruct (Hf c). auto.
  - exists c. rewrite list_lookup_alter_ne by exact Hne. auto.
Qed.

Lemma start_timers_kept taskId now st tid c :
  timers st !! tid = Some c ->
  timers (startServerSidePoll taskId now st) !! tid = Some c.
Proof.
  intros Hl. unfold startServerSidePoll.
  destruct (String.eqb taskId ""); [exact Hl |].
  case_bool_decide; [exact Hl |]. simpl.
  case_bool_decide; simpl; apply lookup_app_l_Some, Hl.
Qed.

(** No step takes a timer away, hands it to another task or lowers its
    counter. *)
Lemma step_counts e st st' tid c :
  step e st = Some st' ->
  timers st !! tid = Some c ->
  exists c',
    timers st' !! tid = Some c'
    /\ c_taskId c' = c_taskId c /\ c_attempts c <= c_attempts c'.
Proof.
  intros Hstep Hl. apply step_react in Hstep.
  assert (Hsame : exists c', timers st !! tid = Some c'
                             /\ c_taskId c' = c_taskId c
                             /\ c_attempts c <= c_attempts c') by eauto.
  assert (Hclear : forall tid0,
             exists c',
               alter (fun c => Closure (c_taskId c) (c_attempts c) false) tid0
                 (timers st) !! tid = Some c'
               /\ c_taskId c' = c_taskId c /\ c_attempts c <= c_attempts c').
  { intros tid0. apply alter_counts; [| exact Hl]. intros c0. simpl. auto. }
  destruct e as [taskId now | tid0 | call kieResp remote now
                 | call | call now | taskId r now]; simpl in Hstep.
  - injection Hstep as <-. exists c. split; [apply start_timers_kept, Hl | auto].
  - unfold fire in Hstep. destruct (timers st !! tid0) as [c0 |]; [| discriminate].
    destruct (c_live c0); [| discriminate]. injection Hstep as <-. simpl.
    apply alter_counts; [| exact Hl]. intros c1. simpl. split; [reflexivity | lia].
  - unfold fetch_ok in Hstep.
    destruct (calls st !! call) as [[tid0 []] |]; try discriminate.
    destruct (timers st !! tid0) as [c0 |]; [| discriminate]. cbv zeta in Hstep.
    destruct (set_has FINAL_STATUSES _).
    + destruct (downloadAssetsForTask _ _ _ _) as [result w].
      injection Hstep as <-. simpl. apply Hclear.
    + destruct (_ || _); injection Hstep as <-; simpl; [apply Hclear | exact Hsame].
  - unfold fetch_err in Hstep.
    destruct (calls st !! call) as [[tid0 []] |]; try discriminate.
    destruct (timers st !! tid0) as [c0 |]; [| discriminate]. cbv zeta in Hstep.
    destruct (maxAttempts <=? c_attempts c0)%nat; injection Hstep as <-; simpl;
      [apply Hclear | exact Hsame].
  - unfold download_done in Hstep.
    destruct (calls st !! call) as [[tid0 [| result |]] |]; try discriminate.
    destruct (timers st !! tid0) as [c0 |]; [| discriminate]. cbv zeta in Hstep.
    destruct result; try discriminate; injection Hstep as <-; exact Hsame.
  - injection Hstep as <-. exists c. split; [| auto].
    unfold query_miss. apply start_timers_kept. exact Hl.
Qed.

Lemma run_counts es : forall st st' tid c,
  run es st = Some st' ->
  timers st !! tid = Some c ->
  exists c',
    timers st' !! tid = Some c'
    /\ c_taskId c' = c_taskId c /\ c_attempts c <= c_attempts c'.
Proof.
  induction es as [| e es IH]; intros st st' tid c Hrun Hl; simpl in Hrun.
  - injection Hrun as <-. eauto.
  - destruct (step e st) as [st1 |] eqn:Hstep; [| discriminate].
    destruct (step_counts e st st1 tid c Hstep Hl) as (c1 & Hl1 & Htask1 & Hle1).
    destruct (IH st1 st' tid c1 Hrun Hl1) as (c' & Hl' & Htask' & Hle').
    exists c'. split; [exact Hl' |]. split; [congruence | lia].
Qed.

End CountFacts.

(** C8.  A tick counts its attempt when it fires, before the fetch is
    made, and touches nothing else then (registry, handles, disk).
    Whatever the event loop runs until the fetch of that tick
    fails, the attempt stays counted: the counter is at least one above
    what the tick found, and exactly one above when nothing ran in
    between.  The failure itself writes the error to the log and leaves
    the registry, the disk and the counter as they were.  Below the
    ceiling of 120 attempts it stops nothing: handle and timer are
    untouched and the timer, if it is still scheduled, can fire again.
    At the ceiling the timer is cleared and the handle removed. *)
Theorem fetch_error_is_transient `{!NodeEnv}
    (st : state) (tid : nat) (c : closure) :
  timers st !! tid = Some c ->
  c_live c = true ->
  exists st1,
    fire tid st = Some st1
    /\ timers st1 !! tid = Some (Closure (c_taskId c) (S (c_attempts c)) true)
    /\ calls st1 !! length (calls st) = Some (Invocation tid AwaitFetch)
    /\ taskCache st1 = taskCache st
    /\ activePolls st1 = activePolls st
    /\ disk st1 = disk st
    /\ forall es st2,
         run es st1 = Some st2 ->
         calls st2 !! length (calls st) = Some (Invocation tid AwaitFetch) ->
         exists c2 st',
           timers st2 !! tid = Some c2
           /\ S (c_attempts c) <= c_attempts c2
           /\ (es = [] -> c_attempts c2 = S (c_attempts c))
           /\ fetch_err (length (calls st)) st2 = Some st'
           /\ taskCache st' = taskCache st2
           /\ disk st' = disk st2
           /\ console st' = console st2 ++ [LogFetchError (c_taskId c)]
           /\ c_attempts <$> timers st' !! tid = Some (c_attempts c2)
           /\ (if (maxAttempts <=? c_attempts c2)%nat
               then activePolls st' !! c_taskId c = None
                    /\ c_live <$> timers st' !! tid = Some false
               else activePolls st' = activePolls st2
                    /\ timers st' = timers st2
                    /\ (is_Some (fire tid st') <-> c_live c2 = true)).
Proof.
  intros Ht Hlive.
  destruct (fire_counts tid c st Ht Hlive)
    as (st1 & Hfire & Ht1 & Hcall1 & Hcache1 & Hpolls1 & Hdisk1 & _).
  exists st1. do 6 (split; [assumption |]).
  intros es st2 Hrun Hcall2.
  destruct (run_counts es st1 st2 tid _ Hrun Ht1) as (c2 & Ht2 & Htask & Hle).
  simpl in Htask, Hle.
  destruct (fetch_err_effect st2 _ tid c2 Hcall2 Ht2)
    as (st' & Hstep & Hcache & Hdisk & Hlog & _ & Hstop).
  rewrite Htask in Hlog, Hstop.
  exists c2, st'. do 2 (split; [assumption |]). split.
  { intros ->. simpl in Hrun. injection Hrun as <-.
    rewrite Ht1 in Ht2. injection Ht2 as <-. reflexivity. }
  do 4 (split; [assumption |]).
  destruct (maxAttempts <=? c_attempts c2)%nat.
  - destruct Hstop as [-> ->].
    rewrite list_lookup_alter_eq, Ht2, lookup_delete_eq. auto.
  - destruct Hstop as [-> Htimers]. rewrite Htimers, Ht2.
    repeat split; try reflexivity.
    + unfold fire. rewrite Htimers, Ht2.
      destruct (c_live c2); [reflexivity | intros []; discriminate].
    + unfold fire. rewrite Htimers, Ht2. intros ->. eauto.
Qed.

(** The first tick of the poller of [t1] fails while a second tick is
    already in flight: both attempts are counted and the poller goes
    on. *)
Lemma fetch_error_is_transient_witness :
  exists st1 st2 st',
    fire 0 (startServerSidePoll "t1" 0 initial) = Some st1
    /\ run [Fire 0] st1 = Some st2
    /\ fetch_err 0 st2 = Some st'
    /\ c_attempts <$> timers st' !! 0 = Some 2
    /\ taskCache st' = taskCache st2
    /\ activePolls st' = activePolls st2
    /\ is_Some (fire 0 st').
Proof.
  destruct (fetch_error_is_transient (startServerSidePoll "t1" 0 initial) 0
              (Closure "t1" 0 true))
    as (st1 & Hfire & Ht1 & Hcall1 & _ & _ & _ & Hrest).
  - reflexivity.
  - reflexivity.
  - destruct (run [Fire 0] st1) as [st2 |] eqn:Hrun;
      [| vm_compute in Hfire; injection Hfire as <-; vm_compute in Hrun;
         discriminate].
    destruct (Hrest [Fire 0] st2 Hrun) as (c2 & st' & Ht2 & _ & _ & Herr & Hcache
                                            & _ & _ & Hcount & Hgo).
    + vm_compute in Hfire. injection Hfire as <-.
      vm_compute in Hrun. injection Hrun as <-. reflexivity.
    + assert (Hc2 : c2 = Closure "t1" 2 true).
      { vm_compute in Hfire. injection Hfire as <-.
        vm_compute in Hrun. injection Hrun as <-.
        vm_compute in Ht2. injection Ht2 as <-. reflexivity. }
      subst c2. exists st1, st2, st'.
      change (maxAttempts <=? c_attempts (Closure "t1" 2 true))%nat with false in Hgo.
      destruct Hgo as (Hpolls & _ & Hfire').
      repeat split; try assumption. apply Hfire'. reflexivity.
Defined.

(** C7, as amended.  A tick that observes a terminal-error status, or a
    status outside the terminal-success set once the attempt counter has
    reached the ceiling of 120, clears the timer and removes the handle
    without materialising: the disk is untouched (no task directory), the
    materialiser is not called, the record keeps its [downloaded] and
    [localFiles] and shows the status just observed. *)
Theorem stop_without_materialization `{!NodeEnv}
    (st : state) (call tid : nat) (c : closure)
    (kieResp : value) (remote : value -> transfer) (now : Z) :
  calls st !! call = Some (Invocation tid AwaitFetch) ->
  timers st !! tid = Some c ->
  set_has FINAL_STATUSES (observed_status kieResp) = false ->
  set_has ERROR_STATUSES (observed_status kieResp) = true
  \/ maxAttempts <= c_attempts c ->
  exists st' e,
    fetch_ok call kieResp remote now st = Some st'
    /\ c_live <$> timers st' !! tid = Some false
    /\ activePolls st' !! c_taskId c = None
    /\ disk st' = disk st
    /\ materializer_invocations (c_taskId c) st'
       = materializer_invocations (c_taskId c) st
    /\ calls st' !! call = Some (Invocation tid Settled)
    /\ taskCache st' !! c_taskId c = Some e
    /\ status e = observed_status kieResp
    /\ downloaded e = downloaded (cache_get_or_empty st (c_taskId c))
    /\ localFiles e = localFiles (cache_get_or_empty st (c_taskId c)).
Proof.
  intros Hcall Ht Hfinal Hstop.
  assert (Hcond : set_has ERROR_STATUSES (observed_status kieResp)
                  || (maxAttempts <=? c_attempts c)%nat = true).
  { destruct Hstop as [-> | Hle]; [reflexivity |].
    apply orb_true_intro. right. apply Nat.leb_le, Hle. }
  unfold fetch_ok. rewrite Hcall, Ht. cbv zeta. rewrite Hfinal, Hcond.
  eexists. eexists. split; [reflexivity |]. simpl.
  rewrite !list_lookup_alter_eq, Ht, Hcall, lookup_delete_eq, lookup_insert_eq.
  unfold materializer_invocations. simpl.
  rewrite <- app_assoc, count_final_app. simpl.
  repeat split; auto.
Qed.

(** The scenario of the specification: [SENSITIVE_WORD_ERROR] on the
    first tick. *)
Lemma stop_without_materialization_witness :
  exists st',
    fetch_ok 0 (record_info "SENSITIVE_WORD_ERROR" (VArr [])) all_up 1 polling_t1
    = Some st'
    /\ activePolls st' !! "t1" = None
    /\ disk st' = disk polling_t1
    /\ downloaded <$> taskCache st' !! "t1" = Some (Some false).
Proof.
  destruct (stop_without_materialization polling_t1 0 0 (Closure "t1" 1 true)
              (record_info "SENSITIVE_WORD_ERROR" (VArr [])) all_up 1)
    as (st' & e & Hstep & _ & Hpolls & Hdisk & _ & _ & He & _ & Hd & _).
  - reflexivity.
  - reflexivity.
  - reflexivity.
  - left. reflexivity.
  - exists st'. simpl in Hpolls, He. rewrite He. simpl. rewrite Hd.
    repeat split; assumption.
Defined.

(** C7 as stated fails: when the 120th tick observes [SUCCESS] the
    counter has reached the ceiling, yet the materialiser runs and the
    task directory is created. *)
Lemma ceiling_success_materializes :
  c_attempts <$> timers at_ceiling !! 0 = Some maxAttempts
  /\ calls at_ceiling !! 119 = Some (Invocation 0 AwaitFetch)
  /\ w_fs (disk at_ceiling) !! "/srv/downloads/t1" = None
  /\ after [FetchOk 119 (record_info "SUCCESS" two_tracks) all_up 1] at_ceiling
       (fun st' =>
          materializer_invocations "t1" st' = 1
          /\ w_fs (disk st') !! "/srv/downloads/t1" = Some 4096%N
          /\ w_fs (disk st') !! "/srv/downloads/t1/2_track_2.mp3" = Some 10%N).
Proof. vm_compute. repeat split; reflexivity. Qed.

Section HandleFacts.
Context `{!NodeEnv}.

Lemma handles_live_stop polls ts tid c :
  handles_live_in polls ts ->
  ts !! tid = Some c ->
  handles_live_in (delete (c_taskId c) polls)
    (alter (fun c => Closure (c_taskId c) (c_attempts c) false) tid ts).
Proof.
  intros Hinv Htid t h Hh.
  apply lookup_delete_Some in Hh as [Hne Hh].
  destruct (Hinv t h Hh) as (c' & Hc' & Htask & Hlive).
  exists c'. split; [| auto].
  rewrite list_lookup_alter_ne; [exact Hc' |].
  intros Heq. rewrite <- Heq, Htid in Hc'. injection Hc' as <-. congruence.
Qed.

Lemma handles_live_bump polls ts tid :
  handles_live_in polls ts ->
  handles_live_in polls
    (alter (fun c => Closure (c_taskId c) (S (c_attempts c)) (c_live c)) tid ts).
Proof.
  intros Hinv t h Hh. destruct (Hinv t h Hh) as (c & Hc & Htask & Hlive).
  destruct (decide (tid = timer h)) as [Heq | Hne].
  - exists (Closure (c_taskId c) (S (c_attempts c)) (c_live c)).
    rewrite Heq, list_lookup_alter_eq, Hc. auto.
  - exists c. rewrite list_lookup_alter_ne by exact Hne. auto.
Qed.

Lemma handles_live_start polls ts t :
  handles_live_in polls ts ->
  handles_live_in (<[t := Handle (length ts) 0]> polls) (ts ++ [Closure t 0 true]).
Proof.
  intros Hinv t' h Hh. apply lookup_insert_Some in Hh as [[<- <-] | [Hne Hh]].
  - simpl. exists (Closure t 0 true). split; [| auto].
    apply list_lookup_middle. reflexivity.
  - destruct (Hinv t' h Hh) as (c & Hc & Htask & Hlive).
    exists c. split; [| auto]. apply lookup_app_l_Some, Hc.
Qed.

Lemma start_handles_live taskId now st :
  handles_live st -> handles_live (startServerSidePoll taskId now st).
Proof.
  intros Hinv. unfold startServerSidePoll.
  destruct (String.eqb taskId ""); [exact Hinv |].
  case_bool_decide; [exact Hinv |].
  unfold handles_live. simpl.
  case_bool_decide; simpl; apply handles_live_start, Hinv.
Qed.

Lemma step_handles_live e st st' :
  handles_live st -> step e st = Some st' -> handles_live st'.
Proof.
  intros Hinv Hstep. apply step_react in Hstep. revert Hstep.
  destruct e as [taskId now | tid | call kieResp remote now
                 | call | call now | taskId r now]; simpl.
  - intros [= <-]. apply start_handles_live, Hinv.
  - unfold fire. destruct (timers st !! tid) as [c |]; [| discriminate].
    destruct (c_live c); [| discriminate]. intros [= <-].
    apply handles_live_bump, Hinv.
  - unfold fetch_ok.
    destruct (calls st !! call) as [[tid []] |]; try discriminate.
    destruct (timers st !! tid) as [c |] eqn:Ht; [| discriminate]. cbv zeta.
    destruct (set_has FINAL_STATUSES _).
    + destruct (downloadAssetsForTask _ _ _ _) as [saved w].
      intros [= <-]. apply (handles_live_stop _ _ _ _ Hinv Ht).
    + destruct (_ || _); intros [= <-];
        [apply (handles_live_stop _ _ _ _ Hinv Ht) | exact Hinv].
  - unfold fetch_err.
    destruct (calls st !! call) as [[tid []] |]; try discriminate.
    destruct (timers st !! tid) as [c |] eqn:Ht; [| discriminate].
    destruct (maxAttempts <=? c_attempts c)%nat; intros [= <-];
      [apply (handles_live_stop _ _ _ _ Hinv Ht) | exact Hinv].
  - unfold download_done.
    destruct (calls st !! call) as [[tid [| result |]] |]; try discriminate.
    destruct (timers st !! tid) as [c |]; [| discriminate].
    destruct result; try discriminate; intros [= <-]; exact Hinv.
  - intros [= <-]. apply start_handles_live. exact Hinv.
Qed.

Lemma run_handles_live es : forall st st',
  handles_live st -> run es st = Some st' -> handles_live st'.
Proof.
  induction es as [| e es IH]; intros st st' Hinv Hrun; simpl in Hrun.
  - injection Hrun as <-. exact Hinv.
  - destruct (step e st) as [st1 |] eqn:Hstep; [| discriminate].
    apply (IH st1); [eapply step_handles_live; eassumption | exact Hrun].
Qed.

Lemma reachable_handles_live st : reachable st -> handles_live st.
Proof.
  intros [es Hrun]. apply (run_handles_live es initial); [| exact Hrun].
  intros t h Hh. simpl in Hh. rewrite lookup_empty in Hh. discriminate.
Qed.

(** The stop paths of an answered tick. *)
Lemma fetch_ok_stops st call tid c kieResp remote now :
  calls st !! call = Some (Invocation tid AwaitFetch) ->
  timers st !! tid = Some c ->
  set_has FINAL_STATUSES (observed_status kieResp)
  || set_has ERROR_STATUSES (observed_status kieResp)
  || (maxAttempts <=? c_attempts c)%nat = true ->
  exists st',
    fetch_ok call kieResp remote now st = Some st'
    /\ activePolls st' !! c_taskId c = None
    /\ c_live <$> timers st' !! tid = Some false.
Proof.
  intros Hcall Ht Hcond. unfold fetch_ok. rewrite Hcall, Ht. cbv zeta.
  destruct (set_has FINAL_STATUSES _).
  - destruct (downloadAssetsForTask _ _ _ _) as [saved w].
    eexists. split; [reflexivity |]. simpl.
    rewrite list_lookup_alter_eq, Ht, lookup_delete_eq. auto.
  - cbn [orb] in Hcond. rewrite Hcond.
    eexists. split; [reflexivity |]. simpl.
    rewrite list_lookup_alter_eq, Ht, lookup_delete_eq. auto.
Qed.

End HandleFacts.

(** C3.  At any time every handle in [activePolls] (one per task
    identifier, the table being a map) names a scheduled timer polling
    that task; [startServerSidePoll] for a task that has a handle changes
    nothing; and every stop path, a terminal-success status, a
    terminal-error status or the exhausted budget, on an answered or a
    failed tick, clears the timer and removes the handle. *)
Theorem one_handle_per_task `{!NodeEnv} (st : state) :
  reachable st ->
  (forall t h,
      activePolls st !! t = Some h ->
      exists c, timers st !! timer h = Some c /\ c_taskId c = t /\ c_live c = true)
  /\ (forall t now,
         is_Some (activePolls st !! t) -> startServerSidePoll t now st = st)
  /\ (forall call tid c kieResp remote now,
         calls st !! call = Some (Invocation tid AwaitFetch) ->
         timers st !! tid = Some c ->
         set_has FINAL_STATUSES (observed_status kieResp)
         || set_has ERROR_STATUSES (observed_status kieResp)
         || (maxAttempts <=? c_attempts c)%nat = true ->
         exists st',
           fetch_ok call kieResp remote now st = Some st'
           /\ activePolls st' !! c_taskId c = None
           /\ c_live <$> timers st' !! tid = Some false)
  /\ (forall call tid c,
         calls st !! call = Some (Invocation tid AwaitFetch) ->
         timers st !! tid = Some c ->
         (maxAttempts <=? c_attempts c)%nat = true ->
         exists st',
           fetch_err call st = Some st'
           /\ activePolls st' !! c_taskId c = None
           /\ c_live <$> timers st' !! tid = Some false).
Proof.
  intros Hreach. split; [exact (reachable_handles_live st Hreach) |].
  split; [intros t now; apply start_noop |].
  split; [intros *; apply fetch_ok_stops |].
  intros call tid c Hcall Ht Hmax.
  destruct (fetch_err_effect st call tid c Hcall Ht)
    as (st' & Hstep & _ & _ & _ & _ & Hstop).
  rewrite Hmax in Hstop. destruct Hstop as [Hpolls Htimers].
  exists st'. rewrite Hpolls, Htimers, list_lookup_alter_eq, Ht, lookup_delete_eq.
  auto.
Qed.

(** While [t1] is being polled, a second start request changes nothing
    and the handle names the live timer 0. *)
Lemma one_handle_per_task_witness :
  startServerSidePoll "t1" 5 polling_t1 = polling_t1
  /\ exists c, timers polling_t1 !! 0 = Some c /\ c_taskId c = "t1" /\ c_live c = true.
Proof.
  assert (Hreach : reachable polling_t1)
    by (exists [Start "t1" 0%Z; Fire 0]; reflexivity).
  destruct (one_handle_per_task polling_t1 Hreach) as (Hlive & Hnoop & _).
  split.
  - apply Hnoop. exists (Handle 0 0). reflexivity.
  - apply (Hlive "t1" (Handle 0 0)). reflexivity.
Defined.

Section MaterializeOnSuccess.
Context `{!NodeEnv}.

(** What a call of the materialiser that returns hands back and leaves in
    the I/O history. *)
Lemma downloadAssetsForTask_trace remote taskId sunoDataArray w saved w' :
  downloadAssetsForTask remote taskId sunoDataArray w = (Fulfilled saved, w') ->
  exists trace,
    w_io w' = w_io w ++ trace
    /\ Forall2 (attempt_of remote) (planned taskId sunoDataArray) trace
    /\ saved = kept (planned taskId sunoDataArray) trace.
Proof.
  intros Hrun.
  destruct (downloadAssetsForTask_returned _ _ _ _ _ _ Hrun)
    as (u & w1 & Hdir & Hjobs & _).
  destruct (run_jobs_trace remote _ _ _ _ _ Hjobs) as (trace & Hio & Hall & Hsaved).
  exists trace. rewrite Hio.
  pose proof (ensure_dir_io taskId sunoDataArray w) as Hdio.
  rewrite Hdir in Hdio. simpl in Hdio. rewrite Hdio. auto.
Qed.

(** A job settles when its destination can be opened and the body is not
    cut. *)
Lemma run_job_returns remote j saved w :
  open_fails (w_fs w) (j_out j) = false ->
  (forall size, remote (j_url j) <> Cut size) ->
  exists saved' w', run_job remote j saved w = (Fulfilled saved', w').
Proof.
  intros Hopen Hcut. unfold run_job, downloadFileToPath.
  destruct (existsSync w (j_out j) && _); [eauto |].
  rewrite Hopen.
  destruct (remote (j_url j)) as [size | | size] eqn:Hr; eauto.
  destruct (Hcut size eq_refl).
Qed.

Lemma run_jobs_returns remote dir js : forall saved w,
  is_Some (w_fs w !! dir) ->
  (forall j fs, j ∈ js -> is_Some (fs !! dir) -> open_fails fs (j_out j) = false) ->
  (forall j size, j ∈ js -> remote (j_url j) <> Cut size) ->
  exists saved' w', run_jobs remote js saved w = (Fulfilled saved', w').
Proof.
  induction js as [| j js IH]; intros saved w Hdir Hopen Hcut; [simpl; eauto |].
  destruct (run_job_returns remote j saved w) as (saved1 & w1 & Hjob).
  { apply Hopen; [left | exact Hdir]. }
  { intros size. apply Hcut. left. }
  cbn [run_jobs]. rewrite Hjob. cbn [and_then]. apply IH.
  - pose proof (downloadFileToPath_keeps remote (j_url j) (j_out j) w dir Hdir) as Hk.
    rewrite <- run_job_world with (saved := saved) in Hk.
    rewrite Hjob in Hk. exact Hk.
  - intros j' fs Hj'. apply Hopen. right. exact Hj'.
  - intros j' size Hj'. apply Hcut. right. exact Hj'.
Qed.

(** The materialiser returns when the task directory is there or can be
    made, every title converts to a string, every planned destination can
    be opened in the task directory and no body is cut. *)
Lemma downloadAssetsForTask_returns remote taskId sunoDataArray w :
  is_Some (w_fs w !! path_join DOWNLOAD_DIR taskId)
  \/ mkdir_stops (w_fs w) (path_join DOWNLOAD_DIR taskId) = None ->
  titles_convert sunoDataArray = true ->
  (forall j fs,
      j ∈ planned taskId sunoDataArray ->
      is_Some (fs !! path_join DOWNLOAD_DIR taskId) ->
      open_fails fs (j_out j) = false) ->
  (forall j size,
      j ∈ planned taskId sunoDataArray -> remote (j_url j) <> Cut size) ->
  exists saved w',
    downloadAssetsForTask remote taskId sunoDataArray w = (Fulfilled saved, w').
Proof.
  intros Hmk Htitles Hopen Hcut. rewrite downloadAssetsForTask_plan, Htitles.
  assert (Hdir : exists u w1,
             ensure_dir taskId sunoDataArray w = (Normal u, w1)
             /\ (planned taskId sunoDataArray <> [] ->
                 is_Some (w_fs w1 !! path_join DOWNLOAD_DIR taskId))).
  { unfold ensure_dir, planned.
    destruct sunoDataArray as [| | | | | [| first rest] |];
      try (exists tt, w; split; [reflexivity | intros []; reflexivity]).
    unfold existsSync. case_bool_decide as Hd.
    - exists tt, w. auto.
    - destruct Hmk as [Hmk | Hmk]; [contradiction |].
      destruct (mkdirSync (path_join DOWNLOAD_DIR taskId) w) as [[u |] w1] eqn:Hcall.
      + exists u, w1. split; [reflexivity |]. intros _.
        eapply mkdirSync_made, Hcall.
      + unfold mkdirSync in Hcall. cbv zeta in Hcall. rewrite Hmk in Hcall.
        discriminate. }
  destruct Hdir as (u & w1 & -> & Hthere).
  destruct (planned taskId sunoDataArray) as [| j js] eqn:Hplan; [simpl; eauto |].
  destruct (run_jobs_returns remote (path_join DOWNLOAD_DIR taskId) (j :: js) [] w1)
    as (saved & w' & ->); [apply Hthere; discriminate | auto .. |].
  simpl. eauto.
Qed.

(** Settling one invocation leaves every other one as it is. *)
Lemma settle_other call ph st call' i :
  call' <> call ->
  calls st !! call' = Some i ->
  calls (settle call ph st) !! call' = Some i.
Proof.
  intros Hne Hi. simpl. rewrite list_lookup_alter_ne by congruence. exact Hi.
Qed.

(** An invocation whose download never settles stays where it is,
    whatever the server runs. *)
Lemma stalled_step e st st' call tid :
  calls st !! call = Some (Invocation tid (AwaitDownload Hang)) ->
  step e st = Some st' ->
  calls st' !! call = Some (Invocation tid (AwaitDownload Hang)).
Proof.
  intros Hcall Hstep. apply step_react in Hstep.
  destruct e as [taskId now | tid0 | call0 kieResp remote now
                 | call0 | call0 now | taskId r now]; simpl in Hstep.
  - injection Hstep as <-. unfold startServerSidePoll.
    destruct (String.eqb taskId ""); [exact Hcall |].
    case_bool_decide; [exact Hcall |]. simpl.
    case_bool_decide; exact Hcall.
  - unfold fire in Hstep. destruct (timers st !! tid0) as [c0 |]; [| discriminate].
    destruct (c_live c0); [| discriminate]. injection Hstep as <-. simpl.
    apply lookup_app_l_Some, Hcall.
  - unfold fetch_ok in Hstep.
    destruct (calls st !! call0) as [[tid0 []] |] eqn:Hcall0; try discriminate.
    assert (Hne : call <> call0) by (intros ->; congruence).
    destruct (timers st !! tid0) as [c0 |]; [| discriminate]. cbv zeta in Hstep.
    destruct (set_has FINAL_STATUSES _).
    + destruct (downloadAssetsForTask _ _ _ _) as [result w].
      injection Hstep as <-. apply settle_other; [exact Hne | exact Hcall].
    + destruct (_ || _); injection Hstep as <-;
        (apply settle_other; [exact Hne | exact Hcall]).
  - unfold fetch_err in Hstep.
    destruct (calls st !! call0) as [[tid0 []] |] eqn:Hcall0; try discriminate.
    assert (Hne : call <> call0) by (intros ->; congruence).
    destruct (timers st !! tid0) as [c0 |]; [| discriminate]. cbv zeta in Hstep.
    destruct (maxAttempts <=? c_attempts c0)%nat; injection Hstep as <-;
      (apply settle_other; [exact Hne | exact Hcall]).
  - unfold download_done in Hstep.
    destruct (calls st !! call0) as [[tid0 [| result |]] |] eqn:Hcall0;
      try discriminate.
    destruct (timers st !! tid0) as [c0 |]; [| discriminate].
    destruct result; try discriminate;
      (assert (Hne : call <> call0) by (intros ->; congruence));
      injection Hstep as <-; (apply settle_other; [exact Hne | exact Hcall]).
  - injection Hstep as <-. unfold query_miss, startServerSidePoll.
    destruct (String.eqb taskId ""); [exact Hcall |].
    case_bool_decide; [exact Hcall |]. simpl.
    case_bool_decide; exact Hcall.
Qed.

Lemma stalled_download_never_resumes es : forall st st' call tid,
  calls st !! call = Some (Invocation tid (AwaitDownload Hang)) ->
  run es st = Some st' ->
  calls st' !! call = Some (Invocation tid (AwaitDownload Hang))
  /\ forall now, download_done call now st' = None.
Proof.
  induction es as [| e es IH]; intros st st' call tid Hcall Hrun; simpl in Hrun.
  - injection Hrun as <-. split; [exact Hcall |].
    intros now. unfold download_done. rewrite Hcall.
    destruct (timers st !! tid); reflexivity.
  - destruct (step e st) as [st1 |] eqn:Hstep; [| discriminate].
    apply (IH st1 st' call tid); [| exact Hrun].
    eapply stalled_step; eassumption.
Qed.

(** A materialisation that ends the process leaves a server that runs
    nothing more. *)
Lemma crashed_download_ends_process st call tid c kieResp remote now w :
  calls st !! call = Some (Invocation tid AwaitFetch) ->
  timers st !! tid = Some c ->
  set_has FINAL_STATUSES (observed_status kieResp) = true ->
  downloadAssetsForTask remote (c_taskId c) (extractSunoData kieResp) (disk st)
  = (Crash, w) ->
  exists st1,
    fetch_ok call kieResp remote now st = Some st1
    /\ disk st1 = w
    /\ exited st1 = true
    /\ forall e, step e st1 = None.
Proof.
  intros Hcall Ht Hfinal Hrun. unfold fetch_ok. rewrite Hcall, Ht. cbv zeta.
  rewrite Hfinal. simpl disk. rewrite Hrun.
  eexists. split; [reflexivity |]. split; [reflexivity |].
  assert (Hexit : exited
                    (settle call (AwaitDownload Crash)
                       (set_disk w
                          (log (LogFinal (c_taskId c) (observed_status kieResp))
                             (set_activePolls (delete (c_taskId c))
                                (clearInterval tid
                                   (log (LogStatus (c_taskId c) (observed_status kieResp)
                                           (c_attempts c))
                                      (set_taskCache
                                         (insert (c_taskId c)
                                            (Entry kieResp (observed_status kieResp)
                                               (Some now) (extractSunoData kieResp)
                                               (downloaded (cache_get_or_empty st (c_taskId c)))
                                               (localFiles (cache_get_or_empty st (c_taskId c)))))
                                         st)))))))
                  = true).
  { unfold exited. apply existsb_exists.
    exists (Invocation tid (AwaitDownload Crash)). split; [| reflexivity].
    apply list_elem_of_In. eapply list_elem_of_lookup_2 with (i := call).
    simpl. rewrite list_lookup_alter_eq, Hcall. reflexivity. }
  split; [exact Hexit |]. intros e. unfold step. rewrite Hexit. reflexivity.
Qed.

End MaterializeOnSuccess.

(** C5 fails on the code: a download that fails after its answer has
    begun is not swallowed.  The connection to the first track's audio is
    lost mid-body: the promise of [downloadFileToPath] never settles, so
    the materialiser never returns, the two remaining downloads of the
    plan (the cover and the second track) are never attempted, and the
    invocation never resumes to mark the task as downloaded. *)
Lemma cut_download_stalls_materialization :
  length (planned "t1" two_tracks) = 3
  /\ after [FetchOk 0 (record_info "SUCCESS" two_tracks) first_audio_cut 1] polling_t1
       (fun st1 =>
          calls st1 !! 0 = Some (Invocation 0 (AwaitDownload Hang))
          /\ w_io (disk st1)
             = [IoGet (VStr "https://cdn.kie.ai/a.mp3")
                  "/srv/downloads/t1/1_Guild-Stars.mp3" false]
          /\ downloaded <$> taskCache st1 !! "t1" = Some (Some false)
          /\ (forall es st2,
                 run es st1 = Some st2 ->
                 forall now, download_done 0 now st2 = None)).
Proof.
  split; [reflexivity |]. unfold after.
  destruct (run [FetchOk 0 (record_info "SUCCESS" two_tracks) first_audio_cut 1]
              polling_t1) as [st1 |] eqn:Hrun; [| vm_compute in Hrun; discriminate].
  assert (Hcall : calls st1 !! 0 = Some (Invocation 0 (AwaitDownload Hang)))
    by (vm_compute in Hrun; injection Hrun as <-; reflexivity).
  split; [exact Hcall |].
  split; [vm_compute in Hrun; injection Hrun as <-; reflexivity |].
  split; [vm_compute in Hrun; injection Hrun as <-; reflexivity |].
  intros es st2 Hrun2.
  apply (stalled_download_never_resumes es st1 st2 0 0 Hcall Hrun2).
Qed.

(** A destination that cannot be opened ends the process: the extension
    taken from the audio URL makes a file name of more than 255
    characters, the cover of the same track is never attempted and the
    server runs nothing more. *)
Example unopenable_destination_ends_process :
  length (planned "t1" long_extension_track) = 2
  /\ after [FetchOk 0 (record_info "SUCCESS" long_extension_track) all_up 1] polling_t1
       (fun st1 =>
          calls st1 !! 0 = Some (Invocation 0 (AwaitDownload Crash))
          /\ length (w_io (disk st1)) = 1
          /\ forall e, step e st1 = None).
Proof.
  split; [vm_compute; reflexivity |]. unfold after.
  destruct (run [FetchOk 0 (record_info "SUCCESS" long_extension_track) all_up 1]
              polling_t1) as [st1 |] eqn:Hrun; [| vm_compute in Hrun; discriminate].
  assert (Hexit : exited st1 = true)
    by (vm_compute in Hrun; injection Hrun as <-; reflexivity).
  split; [vm_compute in Hrun; injection Hrun as <-; reflexivity |].
  split; [vm_compute in Hrun; injection Hrun as <-; reflexivity |].
  intros e. unfold step. rewrite Hexit. reflexivity.
Qed.

(** A task directory that cannot be made, here for an identifier of 300
    characters, and a title that cannot be converted to a string make
    the materialiser throw: the inner [catch] of the callback logs the
    error and the record is not marked as downloaded. *)
Example rejected_materialization_is_logged :
  after [FetchOk 0 (record_info "SUCCESS" two_tracks) all_up 1; DownloadDone 0 2]
    polling_long
    (fun st =>
       downloaded <$> taskCache st !! long_name = Some (Some false)
       /\ last (console st) = Some (LogDownloadError long_name)
       /\ w_io (disk st) = []
       /\ w_fs (disk st) = w_fs (disk initial))
  /\ after [FetchOk 0 (record_info "SUCCESS" unprintable_title_tracks) all_up 1;
            DownloadDone 0 2]
       polling_t1
       (fun st =>
          downloaded <$> taskCache st !! "t1" = Some (Some false)
          /\ last (console st) = Some (LogDownloadError "t1")
          /\ length (w_io (disk st)) = 1).
Proof. vm_compute. repeat split; reflexivity. Qed.

(** A tick that observes a terminal-success status calls the materialiser
    once and leaves a timer that fires no more. *)
Lemma final_tick_materializes_once `{!NodeEnv}
    (st : state) (call tid : nat) (c : closure)
    (kieResp : value) (remote : value -> transfer) (now : Z) :
  calls st !! call = Some (Invocation tid AwaitFetch) ->
  timers st !! tid = Some c ->
  set_has FINAL_STATUSES (observed_status kieResp) = true ->
  exists st',
    fetch_ok call kieResp remote now st = Some st'
    /\ fire tid st' = None
    /\ materializer_invocations (c_taskId c) st'
       = S (materializer_invocations (c_taskId c) st).
Proof.
  intros Hcall Ht Hfinal. unfold fetch_ok. rewrite Hcall, Ht. cbv zeta.
  rewrite Hfinal.
  destruct (downloadAssetsForTask _ _ _ _) as [saved w].
  eexists. split; [reflexivity |]. split.
  - unfold fire. simpl. rewrite list_lookup_alter_eq, Ht. reflexivity.
  - unfold materializer_invocations. simpl.
    rewrite <- app_assoc, count_final_app. simpl.
    rewrite String.eqb_refl. simpl. lia.
Qed.

(** C1 fails on the code: with two ticks of one timer in flight, each
    answered [SUCCESS], the materialiser is called twice for the task and
    [downloaded] is written twice. *)
Lemma overlapping_ticks_materialize_twice :
  after overlapping_ticks initial
    (fun st =>
       materializer_invocations "t1" st = 2
       /\ downloaded_writes "t1" st = 2
       /\ length (List.filter is_get (w_io (disk st))) = 3).
Proof. vm_compute. repeat split; reflexivity. Qed.

(** A start request during the download finds no handle, starts a second
    poller and leads to a second materialisation. *)
Lemma restart_materializes_twice :
  after restart_during_download initial
    (fun st =>
       materializer_invocations "t1" st = 2
       /\ downloaded_writes "t1" st = 2
       /\ length (timers st) = 2).
Proof. vm_compute. repeat split; reflexivity. Qed.

(** Splits on the disk lookups left in the goal. *)
Ltac by_existsSync :=
  repeat match goal with
         | |- context [existsSync ?w ?p] => destruct (existsSync w p); simpl
         end;
  reflexivity.

Section DownloadFacts.
Context `{!NodeEnv}.

Lemma resolve_no_files candidate fileUrl taskId remote_ok st :
  task_files taskId st = [] ->
  candidate [] = None ->
  resolve candidate fileUrl taskId remote_ok st = serve_remote fileUrl remote_ok.
Proof.
  intros Hfiles Hcand. unfold resolve. rewrite Hfiles, Hcand. simpl.
  destruct (url_basename fileUrl); reflexivity.
Qed.

Lemma serve_local_no_files fileUrl taskId st :
  task_files taskId st = [] -> serve_local fileUrl taskId st = Normal None.
Proof.
  unfold task_files, serve_local.
  destruct (given taskId) as [t |]; [| reflexivity].
  destruct (taskCache st !! t) as [entry |]; [| reflexivity].
  destruct (localFiles entry) as [[| first others] |]; try reflexivity.
  discriminate.
Qed.

Lemma serve_local_files fileUrl taskId st first others :
  task_files taskId st = first :: others ->
  (forall u, given fileUrl = Some u -> is_Some (url_pathname u)) ->
  serve_local fileUrl taskId st
  = Normal
      (let files := first :: others in
       match
         (b ← url_basename fileUrl;
          f ← List.find (name_matches b) files;
          if on_disk st f then Some f else None)
       with
       | Some f => Some (SendFile (path f) (name f))
       | None =>
           let audioLocal := default first (List.find is_audio files) in
           if on_disk st audioLocal
           then Some (SendFile (path audioLocal) (name audioLocal))
           else None
       end).
Proof.
  unfold task_files, serve_local, url_basename, on_disk.
  destruct (given taskId) as [t |]; [| discriminate].
  destruct (taskCache st !! t) as [entry |]; [| discriminate].
  destruct (localFiles entry) as [[| first' others'] |]; try discriminate.
  simpl. intros [= -> ->] Hparse.
  destruct (given fileUrl) as [u |]; [| simpl; by_existsSync].
  simpl. destruct (Hparse u eq_refl) as [pathname ->].
  destruct (List.find (name_matches (path_basename pathname)) (first :: others))
    as [found |] eqn:Hfind; simpl in Hfind |- *; rewrite Hfind; simpl;
    by_existsSync.
Qed.

End DownloadFacts.

(** C9, as amended.  For a request whose URL, when given, is well-formed,
    [GET /download] resolves in this order: the first local file of the
    task whose name contains the basename of the URL's path, if it is on
    disk; else the first local audio file or, when the task has none, its
    first local file, if that file is on disk; else the remote URL,
    streamed with the basename of its path ([file.bin] when empty) as
    attachment name. *)
Theorem download_resolution_order `{!NodeEnv}
    (st : state) (fileUrl taskId : option string) (remote_ok : bool) :
  (forall u, given fileUrl = Some u -> is_Some (url_pathname u)) ->
  download_route fileUrl taskId remote_ok st
  = resolve first_audio_or_first fileUrl taskId remote_ok st
  /\ (forall u pathname,
         given fileUrl = Some u -> url_pathname u = Some pathname ->
         serve_remote fileUrl true
         = StreamRemote (or_str (path_basename pathname) "file.bin")).
Proof.
  intros Hparse. split.
  - unfold download_route.
    destruct (task_files taskId st) as [| first others] eqn:Hfiles.
    + rewrite serve_local_no_files, resolve_no_files by auto. reflexivity.
    + rewrite (serve_local_files _ _ _ _ _ Hfiles Hparse).
      unfold resolve, first_audio_or_first. rewrite Hfiles. cbv zeta.
      destruct (url_basename fileUrl ≫= _) as [f |]; [reflexivity |].
      destruct (List.find is_audio (first :: others)) as [a |]; simpl;
        [destruct (on_disk st a) | destruct (on_disk st first)]; reflexivity.
  - intros u pathname Hu Hp. unfold serve_remote. rewrite Hu, Hp. reflexivity.
Qed.

(** With the cover as the only local file of [t1], a request for the
    cover's own name is served from disk, and so is a request naming no
    URL at all. *)
Lemma download_resolution_order_witness :
  download_route (Some "https://cdn.kie.ai/x/1_Guild-Stars_cover.jpeg") (Some "t1")
    true cover_only
  = resolve first_audio_or_first
      (Some "https://cdn.kie.ai/x/1_Guild-Stars_cover.jpeg") (Some "t1")
      true cover_only.
Proof.
  apply (download_resolution_order cover_only
           (Some "https://cdn.kie.ai/x/1_Guild-Stars_cover.jpeg") (Some "t1") true).
  intros u [= <-]. vm_compute. eauto.
Defined.

(** C9 as stated fails: the task has no local audio file, yet a request
    for the audio URL is answered with the cover from disk instead of the
    remote stream. *)
Lemma download_serves_non_audio :
  task_files (Some "t1") cover_only
  = [SavedFile cover "/srv/downloads/t1/1_Guild-Stars_cover.jpeg"
       "1_Guild-Stars_cover.jpeg"]
  /\ download_route (Some "https://cdn.kie.ai/a.mp3") (Some "t1") true cover_only
     = SendFile "/srv/downloads/t1/1_Guild-Stars_cover.jpeg"
         "1_Guild-Stars_cover.jpeg"
  /\ spec_download (Some "https://cdn.kie.ai/a.mp3") (Some "t1") true cover_only
     = StreamRemote "a.mp3".
Proof. vm_compute. repeat split; reflexivity. Qed.

(** ** The scenario of the specification, end to end

    Three [PENDING] answers, then [SUCCESS] with two tracks: the poller is
    gone, the record is marked downloaded and the files carry the
    ordinals 1 and 2. *)
Example pending_then_success :
  after (Start "t1" 0 :: pending_rounds 3 0
         ++ [Fire 0; FetchOk 3 (record_info "SUCCESS" two_tracks) all_up 9;
             DownloadDone 3 10])
    initial
    (fun st =>
       activePolls st !! "t1" = None
       /\ (fun e => (downloaded e, map name <$> localFiles e)) <$> taskCache st !! "t1"
          = Some (Some true,
                  Some ["1_Guild-Stars.mp3"; "1_Guild-Stars_cover.jpeg";
                        "2_track_2.mp3"])
       /\ materializer_invocations "t1" st = 1).
Proof. vm_compute. repeat split; reflexivity. Qed.

(* ===================================================================== *)
(** * Part III: further properties of the code                            *)
(* ===================================================================== *)

(** ** Response normaliser *)

Lemma upper_ascii_idem c : upper_ascii (upper_ascii c) = upper_ascii c.
Proof. destruct c as [[] [] [] [] [] [] [] []]; reflexivity. Qed.

Lemma toUpperCase_idem s : toUpperCase (toUpperCase s) = toUpperCase s.
Proof.
  induction s as [| c s IH]; simpl; [reflexivity |].
  rewrite upper_ascii_idem, IH. reflexivity.
Qed.

(** X1.  Whatever the upstream answer, the status a tick writes to the
    registry is a non-empty string already in upper case: never [null],
    never empty. *)
Theorem observed_status_canonical (kieResp : value) :
  exists s,
    observed_status kieResp = VStr s /\ s <> "" /\ toUpperCase s = s.
Proof.
  destruct (observed_status_recorded kieResp) as (v & _ & -> & _).
  unfold recorded, or_val.
  destruct v; simpl; try (exists "UNKNOWN"; repeat split; [discriminate]).
  destruct s as [| c s]; simpl.
  - exists "UNKNOWN". repeat split. discriminate.
  - exists (String (upper_ascii c) (toUpperCase s)).
    repeat split; [discriminate |].
    simpl. rewrite upper_ascii_idem, toUpperCase_idem. reflexivity.
Qed.

(** X2.  An answer whose envelope has a non-empty textual [status] and a
    list under [response.sunoData] normalises to that status in upper
    case and to that list, whatever else the payload holds. *)
Theorem documented_answer_normalizes (kieResp : value) (s : string) (xs : list value) :
  (envelope kieResp) ?. "status" = VStr s ->
  s <> "" ->
  (envelope kieResp) ?. "response" ?. "sunoData" = VArr xs ->
  observed_status kieResp = VStr (toUpperCase s)
  /\ extractSunoData kieResp = VArr xs.
Proof.
  intros Hs Hne Hxs. split.
  - destruct (observed_status_recorded kieResp) as (v & _ & -> & Hsel).
    unfold first_truthy, status_probes in Hsel. simpl in Hsel.
    rewrite Hs in Hsel. simpl in Hsel.
    destruct (String.eqb_spec s ""); [contradiction |]. simpl in Hsel. subst v.
    apply recorded_string. simpl.
    destruct (String.eqb_spec s ""); [contradiction | reflexivity].
  - rewrite extractSunoData_selects.
    unfold first_truthy, primary_probes. simpl. rewrite Hxs. reflexivity.
Qed.

Lemma documented_answer_normalizes_witness :
  observed_status (record_info "first_success" two_tracks) = VStr "FIRST_SUCCESS"
  /\ extractSunoData (record_info "first_success" two_tracks) = two_tracks.
Proof.
  apply (documented_answer_normalizes (record_info "first_success" two_tracks)
           "first_success").
  - reflexivity.
  - discriminate.
  - reflexivity.
Defined.

(** ** Asset materialiser *)

Section MaterializerMoreFacts.
Context `{!NodeEnv}.
Variable remote : value -> transfer.

Lemma sanitize_char_safe c : is_unsafe (sanitize_char c) = false.
Proof.
  unfold sanitize_char, is_unsafe.
  destruct (existsb (Ascii.eqb c) unsafe_chars) eqn:E; [reflexivity | exact E].
Qed.

Lemma replace_unsafe_safe s :
  Forall (fun c => is_unsafe c = false) (list_ascii_of_string (replace_unsafe s)).
Proof.
  induction s as [| c s IH]; simpl; constructor; [apply sanitize_char_safe | exact IH].
Qed.

Lemma slice0_length n : forall s, String.length (slice0 n s) <= n.
Proof.
  unfold slice0. induction n as [| n IH]; intros [| c s]; simpl; try lia.
  specialize (IH s). lia.
Qed.

Lemma slice0_Forall (P : ascii -> Prop) n : forall s,
  Forall P (list_ascii_of_string s) ->
  Forall P (list_ascii_of_string (slice0 n s)).
Proof.
  unfold slice0. induction n as [| n IH]; intros [| c s] Hs; simpl;
    try constructor.
  - inversion Hs; assumption.
  - apply IH. inversion Hs; assumption.
Qed.

End MaterializerMoreFacts.

(** X3.  The title part of every generated file name is at most 100
    characters long and contains none of the ten characters of
    [unsafe_chars] (slash, backslash, question mark, percent, asterisk,
    colon, bar, double quote, angle brackets), whatever the upstream put
    in [title]. *)
Theorem safeTitle_is_safe (it : value) (i : nat) (title : string) :
  safeTitle it i = Normal title ->
  String.length title <= 100
  /\ Forall (fun c => is_unsafe c = false) (list_ascii_of_string title).
Proof.
  unfold safeTitle. destruct (to_js_string _) as [s |]; [| discriminate].
  intros [= <-]. split.
  - apply slice0_length.
  - apply slice0_Forall, replace_unsafe_safe.
Qed.

Lemma safeTitle_is_safe_witness :
  String.length "Guild-Stars" <= 100
  /\ Forall (fun c => is_unsafe c = false) (list_ascii_of_string "Guild-Stars").
Proof.
  apply (safeTitle_is_safe (track "Guild/Stars" []) 0 "Guild-Stars").
  reflexivity.
Defined.

Section PlanFacts.
Context `{!NodeEnv}.
Variable remote : value -> transfer.

Lemma plan_one_length k suffix dflt url taskDir pfx :
  length (plan_one k suffix dflt url taskDir pfx) <= 1.
Proof.
  unfold plan_one. destruct (truthy url); [| simpl; lia].
  destruct (url_path _); simpl; lia.
Qed.

Lemma plan_item_length taskDir pfx elem : length (plan_item taskDir pfx elem) <= 3.
Proof.
  unfold plan_item. cbv zeta. rewrite !length_app.
  set (audioUrl := or_val (prop _ "audioUrl") _).
  set (sourceAudioUrl := or_val (prop _ "sourceAudioUrl") _).
  set (imageUrl := or_val (prop _ "imageUrl") _).
  set (sourceImageUrl := or_val (prop _ "sourceImageUrl") _).
  pose proof (plan_one_length audio "" ".mp3" audioUrl taskDir pfx).
  pose proof (plan_one_length audio_source "_source" ".mp3" sourceAudioUrl taskDir pfx).
  pose proof (plan_one_length cover "_cover" ".png" imageUrl taskDir pfx).
  pose proof (plan_one_length cover_source "_cover_source" ".png" sourceImageUrl taskDir pfx).
  destruct (truthy imageUrl); lia.
Qed.

Lemma plan_loop_length taskDir items : forall i,
  length (plan_loop taskDir i items) <= 3 * length items.
Proof.
  induction items as [| elem rest IH]; intros i; cbn [plan_loop length]; [lia |].
  destruct (prefix _ i) as [pfx |]; [| simpl; lia].
  rewrite length_app. pose proof (plan_item_length taskDir pfx elem).
  specialize (IH (S i)). lia.
Qed.

Lemma kept_length js : forall trace, length (kept js trace) <= length js.
Proof.
  induction js as [| j js IH]; intros [| e trace]; simpl; try lia.
  rewrite length_app. specialize (IH trace). destruct (event_ok e); simpl; lia.
Qed.

Lemma kept_from_plan js : forall trace f,
  f ∈ kept js trace -> exists j, j ∈ js /\ f = job_file j.
Proof.
  induction js as [| j js IH]; intros [| e trace] f Hf; simpl in Hf;
    try (apply elem_of_nil in Hf; destruct Hf).
  apply elem_of_app in Hf as [Hf | Hf].
  - destruct (event_ok e); [| apply elem_of_nil in Hf; destruct Hf].
    apply list_elem_of_singleton in Hf. exists j. split; [left | exact Hf].
  - destruct (IH trace f Hf) as (j' & Hj' & ->). exists j'. split; [right |]; auto.
Qed.

(** Every planned destination is the planned name, joined to the task
    directory. *)
Lemma plan_one_shape k suffix dflt url taskDir pfx :
  Forall (fun j => j_out j = path_join taskDir (j_name j))
    (plan_one k suffix dflt url taskDir pfx).
Proof.
  unfold plan_one. destruct (truthy url); [| constructor].
  destruct (url_path _); repeat constructor.
Qed.

Lemma plan_loop_shape taskDir items : forall i,
  Forall (fun j => j_out j = path_join taskDir (j_name j))
    (plan_loop taskDir i items).
Proof.
  induction items as [| elem rest IH]; intros i; cbn [plan_loop]; [constructor |].
  destruct (prefix _ i) as [pfx |]; [| constructor].
  apply Forall_app. split; [| apply IH].
  unfold plan_item. cbv zeta. rewrite !Forall_app.
  repeat split; try apply plan_one_shape.
  destruct (truthy _); apply plan_one_shape.
Qed.

Lemma run_jobs_saved_exist js : forall saved w saved' w',
  run_jobs remote js saved w = (Fulfilled saved', w') ->
  (forall f, f ∈ saved -> is_Some (w_fs w !! path f)) ->
  forall f, f ∈ saved' -> is_Some (w_fs w' !! path f).
Proof.
  induction js as [| j js IH]; intros saved w saved' w' Hrun Hsaved.
  - injection Hrun as <- <-. exact Hsaved.
  - cbn [run_jobs] in Hrun.
    apply and_then_fulfilled in Hrun as (saved1 & w1 & Hjob & Hrest).
    apply (IH saved1 w1 saved' w' Hrest). intros f Hf.
    unfold run_job in Hjob.
    destruct (downloadFileToPath remote (j_url j) (j_out j) w)
      as [[out | | |] w2] eqn:Hcall; try discriminate; injection Hjob as <- <-.
    + apply elem_of_app in Hf as [Hf | Hf].
      * pose proof (downloadFileToPath_keeps remote (j_url j) (j_out j) w
                      (path f) (Hsaved f Hf)) as Hk.
        rewrite Hcall in Hk. exact Hk.
      * apply list_elem_of_singleton in Hf. subst f. simpl.
        eapply downloadFileToPath_normal_exists, Hcall.
    + pose proof (downloadFileToPath_keeps remote (j_url j) (j_out j) w
                    (path f) (Hsaved f Hf)) as Hk.
      rewrite Hcall in Hk. exact Hk.
Qed.

(** The I/O of one call that settles, exactly. *)
Lemma run_job_io j saved w saved' w' :
  run_job remote j saved w = (Fulfilled saved', w') ->
  w_io w' = w_io w ++ [io_of remote w j].
Proof.
  unfold run_job, downloadFileToPath, io_of, already_fetched.
  destruct (existsSync w (j_out j) && _); [intros [= _ <-]; reflexivity |].
  destruct (open_fails _ _); [discriminate |].
  destruct (remote (j_url j)); try discriminate; intros [= _ <-]; reflexivity.
Qed.

Lemma already_fetched_lookup w w' p :
  w_fs w' !! p = w_fs w !! p -> already_fetched w' p = already_fetched w p.
Proof.
  intros Heq. unfold already_fetched, existsSync, stat_size. rewrite Heq. reflexivity.
Qed.

Lemma run_jobs_io_exact js : forall saved w saved' w',
  NoDup (map j_out js) ->
  run_jobs remote js saved w = (Fulfilled saved', w') ->
  w_io w' = w_io w ++ map (io_of remote w) js.
Proof.
  induction js as [| j js IH]; intros saved w saved' w' Hnd Hrun.
  - injection Hrun as <- <-. simpl. rewrite app_nil_r. reflexivity.
  - simpl in Hnd. apply NoDup_cons in Hnd as [Hfresh Hnd].
    cbn [run_jobs] in Hrun.
    apply and_then_fulfilled in Hrun as (saved1 & w1 & Hjob & Hrest).
    rewrite (IH saved1 w1 saved' w' Hnd Hrest), (run_job_io _ _ _ _ _ Hjob).
    rewrite <- app_assoc. simpl. do 2 f_equal.
    apply map_ext_in. intros j' Hj'. unfold io_of.
    rewrite (already_fetched_lookup w w1); [reflexivity |].
    pose proof (run_job_world remote j saved w) as Hw. rewrite Hjob in Hw.
    simpl in Hw. rewrite Hw. apply downloadFileToPath_other.
    intros Heq. apply Hfresh. rewrite <- Heq.
    apply list_elem_of_In, in_map, Hj'.
Qed.

(** The world after a materialisation, however it ends, is the world
    after the directory step and some run of the plan. *)
Lemma downloadAssetsForTask_world taskId sunoDataArray w :
  exists saved,
    (downloadAssetsForTask remote taskId sunoDataArray w).2
    = (run_jobs remote (planned taskId sunoDataArray) saved
         (ensure_dir taskId sunoDataArray w).2).2
    \/ (downloadAssetsForTask remote taskId sunoDataArray w).2
       = (ensure_dir taskId sunoDataArray w).2.
Proof.
  rewrite downloadAssetsForTask_plan.
  destruct (ensure_dir taskId sunoDataArray w) as [[u |] w1];
    [| exists []; right; reflexivity].
  exists []. left. simpl.
  destruct (run_jobs remote (planned taskId sunoDataArray) [] w1)
    as [[saved | | |] w2]; simpl; try reflexivity.
  unfold finish. destruct (titles_convert sunoDataArray); reflexivity.
Qed.

End PlanFacts.

(** X4.  A materialisation saves at most three files per asset (audio,
    source audio and one cover), however many URL fields the asset
    carries. *)
Theorem saved_at_most_three_per_asset `{!NodeEnv}
    (remote : value -> transfer) (taskId : string) (items : list value) (w : world)
    (saved : list saved_file) :
  (downloadAssetsForTask remote taskId (VArr items) w).1 = Fulfilled saved ->
  length saved <= 3 * length items.
Proof.
  intros Hret.
  assert (Hrun : downloadAssetsForTask remote taskId (VArr items) w
                 = (Fulfilled saved, (downloadAssetsForTask remote taskId (VArr items) w).2))
    by (rewrite <- Hret; apply surjective_pairing).
  destruct (downloadAssetsForTask_trace _ _ _ _ _ _ Hrun) as (trace & _ & _ & ->).
  etransitivity; [apply kept_length | apply plan_loop_length].
Qed.

(** An asset that carries every URL field the loop reads still yields
    three files. *)
Lemma saved_at_most_three_per_asset_witness :
  length [SavedFile audio "/srv/downloads/t1/1_a.mp3" "1_a.mp3";
          SavedFile audio_source "/srv/downloads/t1/1_a_source.mp3" "1_a_source.mp3";
          SavedFile cover "/srv/downloads/t1/1_a_cover.png" "1_a_cover.png"]
  <= 3 * 1.
Proof.
  apply (saved_at_most_three_per_asset all_up "t1"
           [track "a" [("audioUrl", VStr "https://cdn.kie.ai/1");
                       ("audio_url", VStr "https://cdn.kie.ai/2");
                       ("sourceAudioUrl", VStr "https://cdn.kie.ai/3");
                       ("imageUrl", VStr "https://cdn.kie.ai/4");
                       ("sourceImageUrl", VStr "https://cdn.kie.ai/5")]]
           (disk initial)).
  vm_compute. reflexivity.
Defined.

(** X5.  Every file the materialiser reports as saved lies directly in
    the task's directory under its reported name, and exists on disk when
    the materialiser returns. *)
Theorem saved_files_exist `{!NodeEnv}
    (remote : value -> transfer) (taskId : string) (sunoDataArray : value)
    (w : world) (saved : list saved_file) (f : saved_file) :
  (downloadAssetsForTask remote taskId sunoDataArray w).1 = Fulfilled saved ->
  f ∈ saved ->
  path f = path_join (path_join DOWNLOAD_DIR taskId) (name f)
  /\ is_Some (w_fs (downloadAssetsForTask remote taskId sunoDataArray w).2 !! path f).
Proof.
  intros Hret Hf.
  assert (Hrun : downloadAssetsForTask remote taskId sunoDataArray w
                 = (Fulfilled saved, (downloadAssetsForTask remote taskId sunoDataArray w).2))
    by (rewrite <- Hret; apply surjective_pairing).
  split.
  - destruct (downloadAssetsForTask_trace _ _ _ _ _ _ Hrun) as (trace & _ & _ & Hsaved).
    rewrite Hsaved in Hf.
    destruct (kept_from_plan _ _ _ Hf) as (j & Hj & ->). simpl.
    unfold planned in Hj. destruct sunoDataArray; try (apply elem_of_nil in Hj; destruct Hj).
    pose proof (plan_loop_shape (path_join DOWNLOAD_DIR taskId) xs 0) as Hshape.
    rewrite Forall_forall in Hshape. apply Hshape, Hj.
  - destruct (downloadAssetsForTask_returned _ _ _ _ _ _ Hrun)
      as (u & w1 & _ & Hjobs & _).
    apply (run_jobs_saved_exist remote _ _ _ _ _ Hjobs); [| exact Hf].
    intros f' Hf'. apply elem_of_nil in Hf'. destruct Hf'.
Qed.

Lemma saved_files_exist_witness :
  is_Some (w_fs (downloadAssetsForTask first_audio_down "t1" two_tracks (disk initial)).2
           !! "/srv/downloads/t1/2_track_2.mp3").
Proof.
  apply (saved_files_exist first_audio_down "t1" two_tracks (disk initial)
           [SavedFile cover "/srv/downloads/t1/1_Guild-Stars_cover.jpeg"
              "1_Guild-Stars_cover.jpeg";
            SavedFile audio "/srv/downloads/t1/2_track_2.mp3" "2_track_2.mp3"]
           (SavedFile audio "/srv/downloads/t1/2_track_2.mp3" "2_track_2.mp3")).
  - vm_compute. reflexivity.
  - right. left.
Defined.

(** X6.  A materialisation, however it ends, removes no path from the
    disk and changes no path but the planned destinations, except that it
    creates, as directories, the task's directory and the directories
    above it that were missing. *)
Theorem materializer_frame `{!NodeEnv}
    (remote : value -> transfer) (taskId : string) (sunoDataArray : value)
    (w : world) (p : string) :
  (is_Some (w_fs w !! p) ->
   is_Some (w_fs (downloadAssetsForTask remote taskId sunoDataArray w).2 !! p))
  /\ (p ∉ map j_out (planned taskId sunoDataArray) ->
      w_fs (downloadAssetsForTask remote taskId sunoDataArray w).2 !! p
      = w_fs w !! p
      \/ (w_fs w !! p = None
          /\ p ∈ path_ancestors (path_join DOWNLOAD_DIR taskId)
                 ++ [path_join DOWNLOAD_DIR taskId]
          /\ w_fs (downloadAssetsForTask remote taskId sunoDataArray w).2 !! p
             = Some dir_size)).
Proof.
  destruct (downloadAssetsForTask_world remote taskId sunoDataArray w)
    as (saved & [-> | ->]); split.
  - intros Hp. apply run_jobs_keeps, ensure_dir_keeps, Hp.
  - intros Hout. rewrite run_jobs_other by exact Hout. apply ensure_dir_frame.
  - apply ensure_dir_keeps.
  - intros _. apply ensure_dir_frame.
Qed.

(** For the task [x/y] the directories [x] and [x/y] are made, the
    download root is left as it was, and a path that is neither a planned
    destination nor on the way to the task directory stays absent. *)
Lemma materializer_frame_witness :
  w_fs (downloadAssetsForTask all_up "x/y" two_tracks (disk initial)).2
    !! "/srv/downloads/x" = Some 4096%N
  /\ w_fs (downloadAssetsForTask all_up "x/y" two_tracks (disk initial)).2
       !! "/srv/downloads" = Some 4096%N
  /\ w_fs (downloadAssetsForTask all_up "x/y" two_tracks (disk initial)).2
       !! "/srv/downloads/z" = None.
Proof.
  assert (Hplan : forall p,
             p ∉ ["/srv/downloads/x/y/1_Guild-Stars.mp3";
                  "/srv/downloads/x/y/1_Guild-Stars_cover.jpeg";
                  "/srv/downloads/x/y/2_track_2.mp3"] ->
             p ∉ map j_out (planned "x/y" two_tracks)) by (intros p Hp; exact Hp).
  assert (Hnot : forall p : string,
             p <> "/srv/downloads/x/y/1_Guild-Stars.mp3" ->
             p <> "/srv/downloads/x/y/1_Guild-Stars_cover.jpeg" ->
             p <> "/srv/downloads/x/y/2_track_2.mp3" ->
             p ∉ ["/srv/downloads/x/y/1_Guild-Stars.mp3";
                  "/srv/downloads/x/y/1_Guild-Stars_cover.jpeg";
                  "/srv/downloads/x/y/2_track_2.mp3"]).
  { intros p H1 H2 H3 Hin.
    repeat (apply elem_of_cons in Hin as [Hin | Hin]; [contradiction |]).
    apply elem_of_nil in Hin. exact Hin. }
  split; [| split].
  - destruct (materializer_frame all_up "x/y" two_tracks (disk initial)
                "/srv/downloads/x") as [_ Hframe].
    destruct Hframe as [Hsame | (_ & _ & Hmade)];
      [apply Hplan, Hnot; discriminate | | exact Hmade].
    vm_compute in Hsame. discriminate.
  - destruct (materializer_frame all_up "x/y" two_tracks (disk initial)
                "/srv/downloads") as [_ Hframe].
    destruct Hframe as [Hsame | (Hnone & _)];
      [apply Hplan, Hnot; discriminate | rewrite Hsame; reflexivity |].
    vm_compute in Hnone. discriminate.
  - destruct (materializer_frame all_up "x/y" two_tracks (disk initial)
                "/srv/downloads/z") as [_ Hframe].
    destruct Hframe as [Hsame | (_ & Hin & _)];
      [apply Hplan, Hnot; discriminate | rewrite Hsame; reflexivity |].
    vm_compute in Hin.
    repeat (apply elem_of_cons in Hin as [Hin | Hin]; [discriminate |]).
    apply elem_of_nil in Hin. destruct Hin.
Defined.

(** X7.  Re-running a materialisation fetches only what is missing: with
    pairwise distinct destinations, a second run that returns, after a
    first one that returned, has skipped every planned file that was on
    disk and non-empty after the first run and issued a GET for each of
    the others, in plan order. *)
Theorem rerun_fetches_only_missing `{!NodeEnv}
    (remote1 remote2 : value -> transfer) (taskId : string)
    (sunoDataArray : value) (w0 : world) (saved1 saved2 : list saved_file) :
  let first := downloadAssetsForTask remote1 taskId sunoDataArray w0 in
  let second := downloadAssetsForTask remote2 taskId sunoDataArray first.2 in
  first.1 = Fulfilled saved1 ->
  second.1 = Fulfilled saved2 ->
  NoDup (map j_out (planned taskId sunoDataArray)) ->
  w_io second.2
  = w_io first.2 ++ map (io_of remote2 first.2) (planned taskId sunoDataArray).
Proof.
  intros first second Hret1 Hret2 Hnd.
  assert (Hfirst : downloadAssetsForTask remote1 taskId sunoDataArray w0
                   = (Fulfilled saved1, first.2))
    by (rewrite <- Hret1; apply surjective_pairing).
  assert (Hsecond : downloadAssetsForTask remote2 taskId sunoDataArray first.2
                    = (Fulfilled saved2, second.2))
    by (rewrite <- Hret2; apply surjective_pairing).
  destruct (downloadAssetsForTask_returned _ _ _ _ _ _ Hsecond)
    as (u & w1 & Hdir & Hjobs & _).
  rewrite (ensure_dir_settled _ _ _ _ _ _ Hfirst) in Hdir.
  injection Hdir as <- <-.
  apply (run_jobs_io_exact remote2 _ _ _ _ _ Hnd Hjobs).
Qed.

(** The first track's audio failed in the first run; the second run
    fetches it and nothing else. *)
Lemma rerun_fetches_only_missing_witness :
  List.filter is_get
    (map (io_of all_up (downloadAssetsForTask first_audio_down "t1" two_tracks
                          (disk initial)).2)
         (planned "t1" two_tracks))
  = [IoGet (VStr "https://cdn.kie.ai/a.mp3") "/srv/downloads/t1/1_Guild-Stars.mp3" true]
  /\ w_io (downloadAssetsForTask all_up "t1" two_tracks
             (downloadAssetsForTask first_audio_down "t1" two_tracks (disk initial)).2).2
     = w_io (downloadAssetsForTask first_audio_down "t1" two_tracks (disk initial)).2
       ++ map (io_of all_up (downloadAssetsForTask first_audio_down "t1" two_tracks
                               (disk initial)).2)
              (planned "t1" two_tracks).
Proof.
  split; [vm_compute; reflexivity |].
  eapply (rerun_fetches_only_missing first_audio_down all_up "t1" two_tracks (disk initial)).
  - vm_compute. reflexivity.
  - vm_compute. reflexivity.
  - refine (bool_decide_unpack _ _). vm_compute. exact I.
Defined.

(** ** Task registry and poll scheduler *)

(** Splits a hypothesis [step e st = Some st'] (or one on a resume
    function) into the branches the code can take. *)
Ltac step_inv H :=
  repeat match type of H with
         | None = Some _ => discriminate H
         | Some _ = Some _ => injection H as <-
         | (let '(_, _) := ?p in _) = _ => destruct p eqn:?
         | context [match ?x with _ => _ end] => destruct x eqn:?
         end.

Section SchedulerMoreFacts.
Context `{!NodeEnv}.

Lemma start_shape taskId now st :
  startServerSidePoll taskId now st = st
  \/ (taskId <> ""
      /\ activePolls st !! taskId = None
      /\ timers (startServerSidePoll taskId now st)
         = timers st ++ [Closure taskId 0 true]
      /\ activePolls (startServerSidePoll taskId now st)
         = <[taskId := Handle (length (timers st)) 0]> (activePolls st)
      /\ calls (startServerSidePoll taskId now st) = calls st
      /\ disk (startServerSidePoll taskId now st) = disk st
      /\ taskCache (startServerSidePoll taskId now st)
         = match taskCache st !! taskId with
           | Some _ => taskCache st
           | None => <[taskId := Entry VNull VNull (Some now) VUndef (Some false) (Some [])]>
                       (taskCache st)
           end).
Proof.
  unfold startServerSidePoll.
  destruct (String.eqb_spec taskId ""); [left; reflexivity |].
  case_bool_decide as Hh; [left; reflexivity |].
  right. split; [assumption |].
  split; [destruct (activePolls st !! taskId); [destruct Hh; eauto | reflexivity] |].
  simpl. case_bool_decide as Hc; simpl.
  - destruct Hc as [e ->]. auto.
  - destruct (taskCache st !! taskId); [destruct Hc; eauto |]. auto.
Qed.

End SchedulerMoreFacts.

Section InvariantFacts.
Context `{!NodeEnv}.

Lemma lookup_alter_task (f : closure -> closure) (ts : list closure)
    (tid tid' : nat) (c' : closure) :
  (forall c, c_taskId (f c) = c_taskId c) ->
  alter f tid ts !! tid' = Some c' ->
  exists c, ts !! tid' = Some c /\ c_taskId c' = c_taskId c.
Proof.
  intros Hf Hl. destruct (decide (tid = tid')) as [<- | Hne].
  - rewrite list_lookup_alter_eq in Hl.
    destruct (ts !! tid) as [c |]; [| discriminate].
    injection Hl as <-. eauto.
  - rewrite list_lookup_alter_ne in Hl by exact Hne. eauto.
Qed.

Lemma start_cache_grows taskId now st t :
  is_Some (taskCache st !! t) ->
  is_Some (taskCache (startServerSidePoll taskId now st) !! t).
Proof. intros Ht. rewrite start_cache_kept by exact Ht. exact Ht. Qed.

Lemma insert_grows (m : gmap string entry) k e t :
  is_Some (m !! t) -> is_Some (<[k := e]> m !! t).
Proof.
  intros Ht. destruct (decide (k = t)) as [-> |];
    [rewrite lookup_insert_eq; eauto | rewrite lookup_insert_ne by assumption; exact Ht].
Qed.

(** No step removes a record from the registry. *)
Lemma step_cache_grows e st st' t :
  step e st = Some st' ->
  is_Some (taskCache st !! t) -> is_Some (taskCache st' !! t).
Proof.
  intros Hstep Ht. apply step_react in Hstep. destruct e; simpl in Hstep.
  - injection Hstep as <-. apply start_cache_grows, Ht.
  - rewrite (fire_cache _ _ _ Hstep). exact Ht.
  - unfold fetch_ok in Hstep. cbv zeta in Hstep. step_inv Hstep; simpl;
      apply insert_grows, Ht.
  - rewrite (fetch_err_cache _ _ _ Hstep). exact Ht.
  - unfold download_done in Hstep. cbv zeta in Hstep. step_inv Hstep; simpl;
      first [apply insert_grows, Ht | exact Ht].
  - injection Hstep as <-. unfold query_miss.
    apply start_cache_grows. simpl. apply insert_grows, Ht.
Qed.

End InvariantFacts.

Section InvariantFacts2.
Context `{!NodeEnv}.

Lemma run_preserves (P : state -> Prop) :
  (forall e st st', P st -> step e st = Some st' -> P st') ->
  forall es st st', P st -> run es st = Some st' -> P st'.
Proof.
  intros Hstep es. induction es as [| e es IH]; intros st st' HP Hrun; simpl in Hrun.
  - injection Hrun as <-. exact HP.
  - destruct (step e st) as [st1 |] eqn:He; [| discriminate].
    apply (IH st1); [eapply Hstep; eassumption | exact Hrun].
Qed.

(** A timer of the new state is a timer of the old one, polling the same
    task, or was just created by a start, which saw to the record. *)
Lemma step_timers_task e st st' tid c' :
  step e st = Some st' ->
  timers st' !! tid = Some c' ->
  (exists c, timers st !! tid = Some c /\ c_taskId c' = c_taskId c)
  \/ is_Some (taskCache st' !! c_taskId c').
Proof.
  assert (Hstart : forall taskId now s,
             timers (startServerSidePoll taskId now s) !! tid = Some c' ->
             (exists c, timers s !! tid = Some c /\ c_taskId c' = c_taskId c)
             \/ is_Some (taskCache (startServerSidePoll taskId now s) !! c_taskId c')).
  { intros taskId now s Hl.
    destruct (start_shape taskId now s) as [Hsame | (_ & _ & Ht & _ & _ & _ & Hc)].
    - rewrite Hsame in Hl. eauto.
    - rewrite Ht in Hl. apply lookup_app_Some in Hl as [Hl | [_ Hl]]; [eauto |].
      right. rewrite Hc.
      destruct (tid - length (timers s)) as [| k]; simpl in Hl; [| discriminate].
      injection Hl as <-. simpl.
      destruct (taskCache s !! taskId) eqn:E'; [rewrite E' | rewrite lookup_insert_eq];
        eauto. }
  intros Hstep Hl. apply step_react in Hstep. destruct e; simpl in Hstep.
  - injection Hstep as <-. apply Hstart, Hl.
  - unfold fire in Hstep. step_inv Hstep. simpl in Hl.
    left. eapply lookup_alter_task; [| exact Hl]. intros ?; reflexivity.
  - unfold fetch_ok in Hstep. cbv zeta in Hstep. step_inv Hstep; simpl in Hl;
      left; try (eapply lookup_alter_task; [| exact Hl]; intros ?; reflexivity); eauto.
  - unfold fetch_err in Hstep. cbv zeta in Hstep. step_inv Hstep.
    match type of Hl with context [if ?b then _ else _] => destruct b end;
      simpl in Hl; left;
      try (eapply lookup_alter_task; [| exact Hl]; intros ?; reflexivity); eauto.
  - unfold download_done in Hstep. cbv zeta in Hstep. step_inv Hstep; simpl in Hl;
      left; eauto.
  - injection Hstep as <-. unfold query_miss in *.
    destruct (Hstart _ _ _ Hl) as [Hold | Hnew]; [left; exact Hold | right; exact Hnew].
Qed.

Lemma step_timers_have_records e st st' :
  timers_have_records st -> step e st = Some st' -> timers_have_records st'.
Proof.
  intros Hinv Hstep tid c' Hl.
  destruct (step_timers_task e st st' tid c' Hstep Hl) as [(c & Hc & ->) | Hnew];
    [| exact Hnew].
  eapply step_cache_grows; [exact Hstep | eapply Hinv, Hc].
Qed.

Lemma reachable_timers_have_records st : reachable st -> timers_have_records st.
Proof.
  intros [es Hrun].
  apply (run_preserves timers_have_records step_timers_have_records es initial);
    [| exact Hrun].
  intros tid c Hl. simpl in Hl. rewrite lookup_nil in Hl. discriminate.
Qed.

End InvariantFacts2.

(** X8.  At any time every timer, and every handle, belongs to a task
    that has a registry record: the [|| {}] fallbacks of the timer
    callback are never taken, and a status query for a polled task is
    always answered from the registry. *)
Theorem polled_tasks_have_records `{!NodeEnv} (st : state) :
  reachable st ->
  (forall tid c,
      timers st !! tid = Some c ->
      exists e, taskCache st !! c_taskId c = Some e
                /\ cache_get_or_empty st (c_taskId c) = e)
  /\ (forall t,
         is_Some (activePolls st !! t) -> is_Some (task_query_cached t st)).
Proof.
  intros Hreach. split.
  - intros tid c Hl.
    destruct (reachable_timers_have_records st Hreach tid c Hl) as [e He].
    exists e. unfold cache_get_or_empty. rewrite He. auto.
  - intros t [h Hh].
    destruct (reachable_handles_live st Hreach t h Hh) as (c & Hc & <- & _).
    destruct (reachable_timers_have_records st Hreach _ c Hc) as [e He].
    unfold task_query_cached. rewrite He. eauto.
Qed.

Lemma polled_tasks_have_records_witness :
  is_Some (task_query_cached "t1" polling_t1).
Proof.
  assert (Hreach : reachable polling_t1)
    by (exists [Start "t1" 0%Z; Fire 0]; reflexivity).
  destruct (polled_tasks_have_records polling_t1 Hreach) as [_ Hq].
  apply Hq. exists (Handle 0 0). reflexivity.
Defined.

Section BudgetFacts.
Context `{!NodeEnv}.

Lemma in_flight_app (cs extra : list invocation) tid :
  (exists call, cs !! call = Some (Invocation tid AwaitFetch)) ->
  exists call, (cs ++ extra) !! call = Some (Invocation tid AwaitFetch).
Proof. intros [call Hc]. exists call. apply lookup_app_l_Some, Hc. Qed.

(** Settling an invocation of another timer, or one that is past its
    fetch, keeps a waiting tick waiting. *)
Lemma in_flight_settle (cs : list invocation) call ph tid i :
  cs !! call = Some i ->
  i <> Invocation tid AwaitFetch ->
  (exists call', cs !! call' = Some (Invocation tid AwaitFetch)) ->
  exists call',
    alter (fun i => Invocation (i_timer i) ph) call cs !! call'
    = Some (Invocation tid AwaitFetch).
Proof.
  intros Hcall Hne [call' Hc']. exists call'.
  rewrite list_lookup_alter_ne; [exact Hc' |].
  intros ->. rewrite Hcall in Hc'. congruence.
Qed.

Lemma start_over_budget taskId now st :
  over_budget_in_flight st ->
  over_budget_in_flight (startServerSidePoll taskId now st).
Proof.
  intros Hinv.
  destruct (start_shape taskId now st) as [-> | (_ & _ & Ht & _ & Hcalls & _)];
    [exact Hinv |].
  intros tid c Hl Hlive Hmax. rewrite Hcalls. rewrite Ht in Hl.
  apply lookup_app_Some in Hl as [Hl | [_ Hl]]; [eapply Hinv; eassumption |].
  destruct (tid - length (timers st)) as [| k]; simpl in Hl; [| discriminate].
  injection Hl as <-. simpl in Hmax. unfold maxAttempts in Hmax. lia.
Qed.

Lemma step_over_budget e st st' :
  over_budget_in_flight st -> step e st = Some st' -> over_budget_in_flight st'.
Proof.
  intros Hinv Hstep. apply step_react in Hstep.
  destruct e as [taskId now | tid0 | call kieResp remote now
                 | call | call now | taskId r now];
    simpl in Hstep.
  - injection Hstep as <-. apply start_over_budget, Hinv.
  - unfold fire in Hstep. step_inv Hstep.
    intros tid c' Hl Hlive Hmax. simpl in Hl |- *.
    destruct (decide (tid0 = tid)) as [-> | Hne].
    + exists (length (calls st)). apply list_lookup_middle. reflexivity.
    + rewrite list_lookup_alter_ne in Hl by exact Hne.
      apply in_flight_app. eapply Hinv; eassumption.
  - unfold fetch_ok in Hstep.
    destruct (calls st !! call) as [[tid0 []] |] eqn:Hcall; try discriminate.
    destruct (timers st !! tid0) as [c0 |] eqn:Ht0; [| discriminate].
    cbv zeta in Hstep.
    assert (Hother : forall tid c',
               tid <> tid0 -> timers st !! tid = Some c' -> c_live c' = true ->
               maxAttempts <= c_attempts c' ->
               exists call',
                 alter (fun i => Invocation (i_timer i) Settled) call (calls st) !! call'
                 = Some (Invocation tid AwaitFetch)).
    { intros tid c' Hne Hl Hlive Hmax.
      eapply in_flight_settle; [exact Hcall | congruence | eapply Hinv; eassumption]. }
    assert (Hother' : forall saved tid c',
               tid <> tid0 -> timers st !! tid = Some c' -> c_live c' = true ->
               maxAttempts <= c_attempts c' ->
               exists call',
                 alter (fun i => Invocation (i_timer i) (AwaitDownload saved)) call
                   (calls st) !! call'
                 = Some (Invocation tid AwaitFetch)).
    { intros saved tid c' Hne Hl Hlive Hmax.
      eapply in_flight_settle; [exact Hcall | congruence | eapply Hinv; eassumption]. }
    destruct (set_has FINAL_STATUSES _).
    + destruct (downloadAssetsForTask _ _ _ _) as [saved w].
      injection Hstep as <-. intros tid c' Hl Hlive Hmax. simpl in Hl |- *.
      destruct (decide (tid0 = tid)) as [-> | Hne].
      * rewrite list_lookup_alter_eq, Ht0 in Hl. injection Hl as <-. discriminate.
      * rewrite list_lookup_alter_ne in Hl by exact Hne.
        apply (Hother' saved tid c'); auto.
    + destruct (set_has ERROR_STATUSES _ || (maxAttempts <=? c_attempts c0)%nat) eqn:Hstop;
        injection Hstep as <-; intros tid c' Hl Hlive Hmax; simpl in Hl |- *.
      * destruct (decide (tid0 = tid)) as [-> | Hne].
        -- rewrite list_lookup_alter_eq, Ht0 in Hl. injection Hl as <-. discriminate.
        -- rewrite list_lookup_alter_ne in Hl by exact Hne.
           apply (Hother tid c'); auto.
      * destruct (decide (tid0 = tid)) as [-> | Hne].
        -- rewrite Ht0 in Hl. injection Hl as <-.
           apply orb_false_elim in Hstop as [_ Hlt].
           apply Nat.leb_gt in Hlt. lia.
        -- apply (Hother tid c'); auto.
  - unfold fetch_err in Hstep.
    destruct (calls st !! call) as [[tid0 []] |] eqn:Hcall; try discriminate.
    destruct (timers st !! tid0) as [c0 |] eqn:Ht0; [| discriminate].
    cbv zeta in Hstep.
    destruct (maxAttempts <=? c_attempts c0)%nat eqn:Hstop;
      injection Hstep as <-; intros tid c' Hl Hlive Hmax; simpl in Hl |- *.
    + destruct (decide (tid0 = tid)) as [-> | Hne].
      * rewrite list_lookup_alter_eq, Ht0 in Hl. injection Hl as <-. discriminate.
      * rewrite list_lookup_alter_ne in Hl by exact Hne.
        eapply in_flight_settle; [exact Hcall | congruence | eapply Hinv; eassumption].
    + destruct (decide (tid0 = tid)) as [-> | Hne].
      * rewrite Ht0 in Hl. injection Hl as <-. apply Nat.leb_gt in Hstop. lia.
      * eapply in_flight_settle; [exact Hcall | congruence | eapply Hinv; eassumption].
  - unfold download_done in Hstep.
    destruct (calls st !! call) as [[tid0 [| result |]] |] eqn:Hcall; try discriminate.
    destruct (timers st !! tid0) as [c0 |] eqn:Ht0; [| discriminate].
    cbv zeta in Hstep.
    destruct result as [saved | | |]; try discriminate; injection Hstep as <-;
      intros tid c' Hl Hlive Hmax; simpl in Hl |- *;
      (eapply in_flight_settle; [exact Hcall | congruence | eapply Hinv; eassumption]).
  - injection Hstep as <-. unfold query_miss.
    apply start_over_budget. exact Hinv.
Qed.

Lemma reachable_over_budget st : reachable st -> over_budget_in_flight st.
Proof.
  intros [es Hrun].
  apply (run_preserves over_budget_in_flight step_over_budget es initial);
    [| exact Hrun].
  intros tid c Hl. simpl in Hl. rewrite lookup_nil in Hl. discriminate.
Qed.

End BudgetFacts.

(** X9.  The attempt budget is enforced: at any time, a scheduled timer
    whose counter has reached 120 has a tick waiting for the upstream
    answer, and that tick clears the timer when it settles, whether the
    fetch succeeds (with any answer) or fails. *)
Theorem budget_is_enforced `{!NodeEnv} (st : state) (tid : nat) (c : closure) :
  reachable st ->
  timers st !! tid = Some c ->
  c_live c = true ->
  maxAttempts <= c_attempts c ->
  exists call,
    calls st !! call = Some (Invocation tid AwaitFetch)
    /\ (forall kieResp remote now,
           exists st',
             fetch_ok call kieResp remote now st = Some st'
             /\ c_live <$> timers st' !! tid = Some false)
    /\ (exists st',
           fetch_err call st = Some st'
           /\ c_live <$> timers st' !! tid = Some false).
Proof.
  intros Hreach Hl Hlive Hmax.
  destruct (reachable_over_budget st Hreach tid c Hl Hlive Hmax) as [call Hcall].
  assert (Hleb : (maxAttempts <=? c_attempts c)%nat = true) by apply Nat.leb_le, Hmax.
  exists call. split; [exact Hcall |]. split.
  - intros kieResp remote now.
    destruct (fetch_ok_stops st call tid c kieResp remote now Hcall Hl)
      as (st' & Hstep & _ & Hdead); [| eauto].
    rewrite Hleb. apply orb_true_r.
  - destruct (fetch_err_effect st call tid c Hcall Hl)
      as (st' & Hstep & _ & _ & _ & _ & Hstop).
    rewrite Hleb in Hstop. destruct Hstop as [_ Htimers].
    exists st'. rewrite Htimers, list_lookup_alter_eq, Hl. auto.
Qed.

Lemma budget_is_enforced_witness :
  exists call, calls at_ceiling !! call = Some (Invocation 0 AwaitFetch).
Proof.
  destruct (budget_is_enforced at_ceiling 0 (Closure "t1" 120 true))
    as (call & Hcall & _).
  - exists (Start "t1" 0%Z :: pending_rounds 119 0 ++ [Fire 0]). vm_compute. reflexivity.
  - vm_compute. reflexivity.
  - reflexivity.
  - unfold maxAttempts. simpl. lia.
  - exists call. exact Hcall.
Defined.

Section IsolationFacts.
Context `{!NodeEnv}.


End IsolationFacts.



(** X11.  Before a download settles nothing touches the download result
    of a record: start requests, timer firings and resuming ticks, with
    any answer or failure, keep [downloaded] and [localFiles] of every
    record as they are. *)
Theorem download_result_is_kept `{!NodeEnv}
    (e : event) (st st' : state) (t : string) (entry : entry) :
  before_download e = true ->
  step e st = Some st' ->
  taskCache st !! t = Some entry ->
  exists entry',
    taskCache st' !! t = Some entry'
    /\ downloaded entry' = downloaded entry
    /\ localFiles entry' = localFiles entry.
Proof.
  intros Hkind Hstep Ht. apply step_react in Hstep.
  destruct e as [taskId now | tid0 | call kieResp remote now
                 | call | call now | taskId r now];
    try discriminate; simpl in Hstep.
  - injection Hstep as <-. exists entry.
    rewrite start_cache_kept by (rewrite Ht; eauto). auto.
  - rewrite <- (fire_cache _ _ _ Hstep) in Ht. eauto.
  - unfold fetch_ok in Hstep.
    destruct (calls st !! call) as [[tid0 []] |] eqn:Hcall; try discriminate.
    destruct (timers st !! tid0) as [c0 |] eqn:Ht0; [| discriminate].
    cbv zeta in Hstep.
    assert (Hins : exists entry',
               <[c_taskId c0 :=
                   Entry kieResp (observed_status kieResp) (Some now)
                     (extractSunoData kieResp)
                     (downloaded (cache_get_or_empty st (c_taskId c0)))
                     (localFiles (cache_get_or_empty st (c_taskId c0)))]>
                 (taskCache st) !! t = Some entry'
               /\ downloaded entry' = downloaded entry
               /\ localFiles entry' = localFiles entry).
    { destruct (decide (c_taskId c0 = t)) as [Heq | Hne].
      - rewrite Heq, lookup_insert_eq. eexists. split; [reflexivity |].
        unfold cache_get_or_empty. rewrite Ht. auto.
      - rewrite lookup_insert_ne by exact Hne. eauto. }
    step_inv Hstep; simpl; exact Hins.
  - rewrite <- (fetch_err_cache _ _ _ Hstep) in Ht. eauto.
Qed.

(** A start request after the download has settled leaves its result in
    place. *)
Lemma download_result_is_kept_witness :
  exists entry',
    taskCache (startServerSidePoll "t1" 9 cover_only) !! "t1" = Some entry'
    /\ downloaded entry' = Some true.
Proof.
  destruct (download_result_is_kept (Start "t1" 9) cover_only
              (startServerSidePoll "t1" 9 cover_only) "t1"
              (Entry (record_info "SUCCESS" one_track) (VStr "SUCCESS") (Some 2%Z)
                 one_track (Some true)
                 (Some [SavedFile cover "/srv/downloads/t1/1_Guild-Stars_cover.jpeg"
                          "1_Guild-Stars_cover.jpeg"])))
    as (entry' & He & Hd & _).
  - reflexivity.
  - reflexivity.
  - vm_compute. reflexivity.
  - exists entry'. split; [exact He | exact Hd].
Defined.

(** A tick that observes a status outside both terminal sets, with the
    counter below the ceiling, keeps the poller as it is (handle, timer,
    disk) and overwrites the record with the latest answer: raw payload,
    status and asset list are replaced, the download result is carried
    over.  The timer, if scheduled, can fire again. *)
Lemma nonterminal_tick_keeps_polling `{!NodeEnv}
    (st : state) (call tid : nat) (c : closure)
    (kieResp : value) (remote : value -> transfer) (now : Z) :
  calls st !! call = Some (Invocation tid AwaitFetch) ->
  timers st !! tid = Some c ->
  set_has FINAL_STATUSES (observed_status kieResp) = false ->
  set_has ERROR_STATUSES (observed_status kieResp) = false ->
  c_attempts c < maxAttempts ->
  exists st',
    fetch_ok call kieResp remote now st = Some st'
    /\ timers st' = timers st
    /\ activePolls st' = activePolls st
    /\ disk st' = disk st
    /\ taskCache st'
       = <[c_taskId c :=
             Entry kieResp (observed_status kieResp) (Some now)
               (extractSunoData kieResp)
               (downloaded (cache_get_or_empty st (c_taskId c)))
               (localFiles (cache_get_or_empty st (c_taskId c)))]> (taskCache st)
    /\ (is_Some (fire tid st') <-> c_live c = true).
Proof.
  intros Hcall Ht Hfinal Herror Hlt.
  unfold fetch_ok. rewrite Hcall, Ht. cbv zeta. rewrite Hfinal, Herror.
  apply Nat.leb_gt in Hlt. rewrite Hlt. simpl.
  eexists. split; [reflexivity |]. simpl. repeat split; try reflexivity.
  - unfold fire. simpl. rewrite Ht.
    destruct (c_live c); [reflexivity | intros []; discriminate].
  - unfold fire. simpl. rewrite Ht. intros ->. eauto.
Qed.

(** The upstream answers with a body that is not JSON: the status is
    [UNKNOWN] and the poller goes on. *)
Lemma nonterminal_tick_keeps_polling_witness :
  exists st',
    fetch_ok 0 (VStr "<html>502 Bad Gateway</html>") all_up 1 polling_t1 = Some st'
    /\ activePolls st' = activePolls polling_t1
    /\ status <$> taskCache st' !! "t1" = Some (VStr "UNKNOWN")
    /\ is_Some (fire 0 st').
Proof.
  destruct (nonterminal_tick_keeps_polling polling_t1 0 0 (Closure "t1" 1 true)
              (VStr "<html>502 Bad Gateway</html>") all_up 1)
    as (st' & Hstep & _ & Hpolls & _ & Hcache & Hfire).
  - reflexivity.
  - reflexivity.
  - reflexivity.
  - reflexivity.
  - unfold maxAttempts. simpl. lia.
  - exists st'. repeat split; try assumption.
    + rewrite Hcache. simpl. rewrite lookup_insert_eq. reflexivity.
    + apply Hfire. reflexivity.
Defined.

(** X13.  A terminal-success answer that carries no non-empty track list
    still ends the poll as a success: nothing is written to disk (no task
    directory), and once the download settles the record is marked
    downloaded with an empty file list. *)
Theorem success_without_tracks `{!NodeEnv}
    (st : state) (call tid : nat) (c : closure)
    (kieResp : value) (remote : value -> transfer) (now now' : Z) :
  calls st !! call = Some (Invocation tid AwaitFetch) ->
  timers st !! tid = Some c ->
  set_has FINAL_STATUSES (observed_status kieResp) = true ->
  (forall first rest, extractSunoData kieResp <> VArr (first :: rest)) ->
  exists st1 st2 e,
    fetch_ok call kieResp remote now st = Some st1
    /\ disk st1 = disk st
    /\ activePolls st1 !! c_taskId c = None
    /\ download_done call now' st1 = Some st2
    /\ taskCache st2 !! c_taskId c = Some e
    /\ downloaded e = Some true
    /\ localFiles e = Some [].
Proof.
  intros Hcall Ht Hfinal Hnone.
  assert (Hrun : forall w,
             downloadAssetsForTask remote (c_taskId c) (extractSunoData kieResp) w
             = (Fulfilled [], w)).
  { intros w. unfold downloadAssetsForTask.
    destruct (extractSunoData kieResp) as [| | | | | [| first rest] |] eqn:E;
      try reflexivity.
    destruct (Hnone first rest eq_refl). }
  unfold fetch_ok. rewrite Hcall, Ht. cbv zeta. rewrite Hfinal, Hrun.
  eexists. eexists. eexists. split; [reflexivity |]. simpl.
  split; [reflexivity |]. rewrite lookup_delete_eq. split; [reflexivity |].
  unfold download_done. simpl.
  rewrite list_lookup_alter_eq, Hcall. simpl.
  rewrite list_lookup_alter_eq, Ht. simpl.
  split; [reflexivity |]. simpl. rewrite lookup_insert_eq. auto.
Qed.

Lemma success_without_tracks_witness :
  exists st1 st2,
    fetch_ok 0 (VObj [("status", VStr "SUCCESS")]) all_up 1 polling_t1 = Some st1
    /\ disk st1 = disk polling_t1
    /\ download_done 0 2 st1 = Some st2
    /\ downloaded <$> taskCache st2 !! "t1" = Some (Some true).
Proof.
  destruct (success_without_tracks polling_t1 0 0 (Closure "t1" 1 true)
              (VObj [("status", VStr "SUCCESS")]) all_up 1 2)
    as (st1 & st2 & e & Hstep1 & Hdisk & _ & Hstep2 & He & Hd & _).
  - reflexivity.
  - reflexivity.
  - reflexivity.
  - intros first rest. vm_compute. discriminate.
  - exists st1, st2. simpl in He. rewrite He. simpl. rewrite Hd. auto.
Defined.

(** X14.  Starting a poller is idempotent: after a start request for a
    non-empty task identifier the task has a handle, and any further
    start request for it changes nothing (no second timer, no reset of
    the record). *)
Theorem start_is_idempotent `{!NodeEnv}
    (st : state) (taskId : string) (now now' : Z) :
  taskId <> "" ->
  is_Some (activePolls (startServerSidePoll taskId now st) !! taskId)
  /\ startServerSidePoll taskId now' (startServerSidePoll taskId now st)
     = startServerSidePoll taskId now st.
Proof.
  intros Hne.
  assert (Hh : is_Some (activePolls (startServerSidePoll taskId now st) !! taskId)).
  { unfold startServerSidePoll.
    destruct (String.eqb_spec taskId ""); [contradiction |].
    case_bool_decide as Hh; [exact Hh |].
    simpl. case_bool_decide; simpl; rewrite lookup_insert_eq; eauto. }
  split; [exact Hh | apply start_noop, Hh].
Qed.

Lemma start_is_idempotent_witness :
  startServerSidePoll "t1" 8 (startServerSidePoll "t1" 7 initial)
  = startServerSidePoll "t1" 7 initial.
Proof.
  apply (start_is_idempotent initial "t1" 7 8). discriminate.
Defined.

(** ** Client-facing handlers *)

Section HandlerFacts.
Context `{!NodeEnv}.

Lemma extractSunoData_truthy kieResp : truthy (extractSunoData kieResp) = true.
Proof.
  rewrite extractSunoData_selects.
  destruct (first_truthy (primary_probes kieResp)) as [[] |]; try reflexivity;
    destruct (truthy (fallback_probe kieResp)) eqn:E; try exact E; reflexivity.
Qed.

(** A local answer is a file of the task that is on disk. *)
Lemma serve_local_sends fileUrl taskId st r :
  serve_local fileUrl taskId st = Normal (Some r) ->
  exists f,
    f ∈ task_files taskId st /\ r = SendFile (path f) (name f)
    /\ existsSync (disk st) (path f) = true.
Proof.
  unfold serve_local, task_files.
  destruct (given taskId) as [t |]; [| discriminate].
  destruct (taskCache st !! t) as [entry |]; [| discriminate].
  destruct (localFiles entry) as [[| first others] |]; try discriminate.
  cbv zeta. set (files := first :: others). unfold mbind, completion_bind.
  assert (Haudio : default first (List.find is_audio files) ∈ files).
  { destruct (List.find is_audio files) as [a |] eqn:Hfind; simpl; [| left].
    apply List.find_some in Hfind as [Hin _]. apply list_elem_of_In, Hin. }
  assert (Hfall :
            (if existsSync (disk st) (path (default first (List.find is_audio files)))
             then Normal (Some (SendFile (path (default first (List.find is_audio files)))
                                  (name (default first (List.find is_audio files)))))
             else Normal None) = Normal (Some r) ->
            exists f, f ∈ files /\ r = SendFile (path f) (name f)
                      /\ existsSync (disk st) (path f) = true).
  { destruct (existsSync _ _) eqn:Hex; [| discriminate].
    intros [= <-]. eauto. }
  destruct (given fileUrl) as [u |]; [| exact Hfall].
  destruct (url_pathname u) as [pathname |]; [| discriminate].
  destruct (List.find (name_matches (path_basename pathname)) files)
    as [found |] eqn:Hfind; [| exact Hfall].
  destruct (existsSync (disk st) (path found)) eqn:Hex; [| exact Hfall].
  intros [= <-]. exists found. repeat split; [| exact Hex].
  apply List.find_some in Hfind as [Hin _]. apply list_elem_of_In, Hin.
Qed.

Lemma serve_remote_not_local fileUrl remote_ok p n :
  serve_remote fileUrl remote_ok <> SendFile p n.
Proof.
  unfold serve_remote. destruct (given fileUrl); [| discriminate].
  destruct remote_ok; [| discriminate]. destruct (url_pathname _); discriminate.
Qed.

Lemma serve_remote_caught fileUrl remote_ok :
  serve_remote fileUrl remote_ok <> Uncaught.
Proof.
  unfold serve_remote. destruct (given fileUrl); [| discriminate].
  destruct remote_ok; [| discriminate]. destruct (url_pathname _); discriminate.
Qed.

Lemma serve_local_throws fileUrl taskId st :
  serve_local fileUrl taskId st = Throw
  <-> task_files taskId st <> []
      /\ exists u, given fileUrl = Some u /\ url_pathname u = None.
Proof.
  unfold serve_local, task_files.
  destruct (given taskId) as [t |]; [| split; [discriminate | intros [[] _]; reflexivity]].
  destruct (taskCache st !! t) as [entry |];
    [| split; [discriminate | intros [[] _]; reflexivity]].
  destruct (localFiles entry) as [[| first others] |];
    try (split; [discriminate | intros [[] _]; reflexivity]).
  cbv zeta. set (files := first :: others). unfold mbind, completion_bind.
  destruct (given fileUrl) as [u |].
  - destruct (url_pathname u) as [pathname |] eqn:Hu.
    + split.
      * destruct (List.find _ files) as [found |];
          repeat (match goal with
                  | |- context [existsSync ?w ?p] => destruct (existsSync w p)
                  end); discriminate.
      * intros [_ (u' & [= <-] & Hnone)]. congruence.
    + split; [intros _; split; [discriminate | eauto] | reflexivity].
  - split.
    + destruct (existsSync _ _); discriminate.
    + intros [_ (u' & Hu' & _)]. discriminate.
Qed.

End HandlerFacts.

(** X15.  The uncached branch of the status query is coherent with the
    cached one: right after it has written the record, a cached query
    shows the same status, assets, [downloaded = false] and empty
    [localFiles] that the uncached answer carried; and for a non-empty
    task identifier a poller handle is in place. *)
Theorem uncached_query_is_coherent `{!NodeEnv}
    (st : state) (taskId : string) (r : value) (now : Z) :
  task_query_cached taskId (query_miss taskId r now st)
  = Some (TaskView taskId
            (v_status (task_query_miss_answer taskId r))
            (Some now)
            (v_sunoData (task_query_miss_answer taskId r))
            (v_downloaded (task_query_miss_answer taskId r))
            (v_localFiles (task_query_miss_answer taskId r)))
  /\ (taskId <> "" -> is_Some (activePolls (query_miss taskId r now st) !! taskId)).
Proof.
  split.
  - unfold task_query_cached, query_miss.
    rewrite start_cache_kept by (simpl; rewrite lookup_insert_eq; eauto).
    simpl. rewrite lookup_insert_eq. simpl.
    unfold or_val. rewrite extractSunoData_truthy. reflexivity.
  - intros Hne. unfold query_miss, startServerSidePoll.
    destruct (String.eqb_spec taskId ""); [contradiction |].
    case_bool_decide as Hh; [exact Hh |].
    simpl. case_bool_decide; simpl; rewrite lookup_insert_eq; eauto.
Qed.

(** X16.  [GET /download] only ever sends a file that belongs to the
    requested task's [localFiles] and exists on disk, under the name
    recorded for it. *)
Theorem download_sends_only_task_files `{!NodeEnv}
    (st : state) (fileUrl taskId : option string) (remote_ok : bool)
    (p n : string) :
  download_route fileUrl taskId remote_ok st = SendFile p n ->
  exists f,
    f ∈ task_files taskId st /\ path f = p /\ name f = n
    /\ existsSync (disk st) p = true.
Proof.
  unfold download_route.
  destruct (serve_local fileUrl taskId st) as [[r |] |] eqn:Hlocal.
  - intros ->. destruct (serve_local_sends _ _ _ _ Hlocal) as (f & Hf & [= -> ->] & Hex).
    eauto.
  - intros Hremote. destruct (serve_remote_not_local _ _ _ _ Hremote).
  - discriminate.
Qed.

Lemma download_sends_only_task_files_witness :
  exists f,
    f ∈ task_files (Some "t1") cover_only
    /\ path f = "/srv/downloads/t1/1_Guild-Stars_cover.jpeg".
Proof.
  destruct (download_sends_only_task_files cover_only None (Some "t1") false
              "/srv/downloads/t1/1_Guild-Stars_cover.jpeg" "1_Guild-Stars_cover.jpeg")
    as (f & Hf & Hp & _).
  - vm_compute. reflexivity.
  - exists f. split; assumption.
Defined.

(** X17.  The only way an exception leaves the [/download] handler is a
    malformed [url] on a request for a task that has local files; with no
    local files, or a well-formed or absent [url], the handler answers
    (file, stream, 400 or 500). *)
Theorem download_uncaught_iff `{!NodeEnv}
    (st : state) (fileUrl taskId : option string) (remote_ok : bool) :
  download_route fileUrl taskId remote_ok st = Uncaught
  <-> task_files taskId st <> []
      /\ exists u, given fileUrl = Some u /\ url_pathname u = None.
Proof.
  rewrite <- serve_local_throws. unfold download_route.
  destruct (serve_local fileUrl taskId st) as [[r |] |] eqn:Hlocal.
  - split; [| discriminate]. intros ->.
    destruct (serve_local_sends _ _ _ _ Hlocal) as (f & _ & Hr & _). discriminate.
  - split; [| discriminate]. intros Hr. destruct (serve_remote_caught _ _ Hr).
  - split; reflexivity.
Qed.

Lemma uncached_query_is_coherent_witness :
  is_Some (activePolls (query_miss "t9" (record_info "PENDING" (VArr [])) 3 initial)
           !! "t9").
Proof.
  destruct (uncached_query_is_coherent initial "t9" (record_info "PENDING" (VArr [])) 3)
    as [_ Hpoll].
  apply Hpoll. discriminate.
Defined.

(** A request for the materialised task with a malformed [url]. *)
Lemma download_uncaught_iff_witness :
  download_route (Some "not a url") (Some "t1") true cover_only = Uncaught.
Proof.
  apply (download_uncaught_iff cover_only (Some "not a url") (Some "t1") true).
  split.
  - vm_compute. discriminate.
  - exists "not a url". split; reflexivity.
Defined.

(** X18.  A submission route whose upstream answer carries a fresh task
    identifier under [data.taskId] starts the poller for it: from then on
    the status query for that task is answered from the registry (status
    [null], no assets, not downloaded), whatever sits under a top-level
    [taskId]. *)
Theorem submission_then_query `{!NodeEnv}
    (st : state) (body : value) (t : string) (now : Z) :
  body ?. "data" ?. "taskId" = VStr t ->
  t <> "" ->
  taskCache st !! t = None ->
  activePolls st !! t = None ->
  exists st',
    after_submission body now st = Some st'
    /\ is_Some (activePolls st' !! t)
    /\ task_query_cached t st'
       = Some (TaskView t VNull (Some now) (VArr []) false []).
Proof.
  intros Hid Hne Hc Ha.
  assert (Hsub : submitted_taskId body = VStr t).
  { unfold submitted_taskId, or_val. rewrite Hid. simpl.
    destruct (String.eqb_spec t ""); [contradiction | reflexivity]. }
  unfold after_submission. rewrite Hsub. eexists. split; [reflexivity |].
  split.
  - unfold startServerSidePoll.
    destruct (String.eqb_spec t ""); [contradiction |].
    rewrite bool_decide_eq_false_2 by (rewrite Ha; apply is_Some_None).
    simpl. case_bool_decide; simpl; rewrite lookup_insert_eq; eauto.
  - unfold task_query_cached. rewrite (start_fresh t now st Hne Hc Ha). reflexivity.
Qed.

Lemma submission_then_query_witness :
  exists st',
    after_submission
      (VObj [("code", VNum 200); ("msg", VStr "success");
             ("data", VObj [("taskId", VStr "5c79be8e")])]) 4 initial
    = Some st'
    /\ is_Some (activePolls st' !! "5c79be8e").
Proof.
  destruct (submission_then_query initial
              (VObj [("code", VNum 200); ("msg", VStr "success");
                     ("data", VObj [("taskId", VStr "5c79be8e")])])
              "5c79be8e" 4)
    as (st' & Hstep & Hpoll & _).
  - reflexivity.
  - discriminate.
  - reflexivity.
  - reflexivity.
  - exists st'. split; assumption.
Defined.

(** ** The stand-alone script *)

Section ScriptFacts.
Import DownloadTracks.
Context `{!NodeEnv}.
Variable dirname : string.
Variable https_get : string -> reply.

Abbreviation download := (DownloadTracks.download dirname https_get).
Abbreviation loop := (DownloadTracks.loop dirname https_get).
Abbreviation outPath_of f := (path_join (outDir dirname) (DownloadTracks.name f)).

Lemma download_resolved f fs p fs' :
  download f fs = (Resolved p, fs') ->
  p = outPath_of f /\ is_Some (fs' !! p).
Proof.
  unfold DownloadTracks.download. cbv zeta.
  destruct (https_get (url f)) as [r | m]; [| discriminate].
  destruct (redirect_target r) as [target |].
  - destruct (https_get target) as [r2 | m]; [| discriminate].
    intros [= <- <-]. rewrite lookup_insert_eq. eauto.
  - destruct (statusCode r =? 200)%nat; [| discriminate].
    intros [= <- <-]. rewrite lookup_insert_eq. eauto.
Qed.

Lemma download_keeps f fs q :
  is_Some (fs !! q) -> is_Some ((download f fs).2 !! q).
Proof.
  intros Hq. unfold DownloadTracks.download. cbv zeta.
  assert (H0 : is_Some (<[outPath_of f := 0%N]> fs !! q)).
  { destruct (decide (outPath_of f = q)) as [-> |];
      [rewrite lookup_insert_eq; eauto | rewrite lookup_insert_ne by assumption; exact Hq]. }
  assert (H1 : forall n, is_Some (<[outPath_of f := n]> (<[outPath_of f := 0%N]> fs) !! q)).
  { intros n. destruct (decide (outPath_of f = q)) as [-> |];
      [rewrite lookup_insert_eq; eauto | rewrite lookup_insert_ne by assumption; exact H0]. }
  destruct (https_get (url f)) as [r | m]; [| exact H0].
  destruct (redirect_target r) as [target |].
  - destruct (https_get target); [apply H1 | exact H0].
  - destruct (statusCode r =? 200)%nat; [apply H1 | exact H0].
Qed.

Lemma loop_app pre post : forall fs out,
  loop (pre ++ post) fs out
  = match loop pre fs out with
    | (LoopDone, fs1, out1) => loop post fs1 out1
    | stopped => stopped
    end.
Proof.
  induction pre as [| f pre IH]; intros fs out; simpl; [reflexivity |].
  destruct (download f fs) as [[p | m |] fs']; [apply IH | reflexivity | reflexivity].
Qed.

Lemma loop_keeps fl q : forall fs out,
  is_Some (fs !! q) -> is_Some ((loop fl fs out).1.2 !! q).
Proof.
  induction fl as [| f fl IH]; intros fs out Hq; simpl; [exact Hq |].
  pose proof (download_keeps f fs q Hq) as Hk.
  destruct (download f fs) as [[p | m |] fs']; simpl in Hk |- *; auto.
Qed.

Lemma loop_log_grows fl : forall fs out,
  exists more, (loop fl fs out).2 = out ++ more.
Proof.
  induction fl as [| f fl IH]; intros fs out; simpl.
  - exists []. rewrite app_nil_r. reflexivity.
  - destruct (download f fs) as [[p | m |] fs']; simpl.
    + destruct (IH fs' ((out ++ [Downloading (DownloadTracks.name f)]) ++ [SavedTo p]))
        as [more ->].
      rewrite <- !app_assoc. eauto.
    + eauto.
    + eauto.
Qed.

Lemma loop_done fl : forall fs out fs' out' f,
  loop fl fs out = (LoopDone, fs', out') ->
  f ∈ fl ->
  SavedTo (outPath_of f) ∈ out' /\ is_Some (fs' !! outPath_of f).
Proof.
  induction fl as [| g fl IH]; intros fs out fs' out' f Hloop Hf.
  - apply elem_of_nil in Hf. destruct Hf.
  - simpl in Hloop.
    destruct (download g fs) as [[p | m |] fs1] eqn:Hd; try discriminate.
    destruct (download_resolved g fs p fs1 Hd) as [-> Hex].
    apply elem_of_cons in Hf as [-> | Hf]; [| eapply IH; eassumption].
    split.
    + destruct (loop_log_grows fl fs1
                  ((out ++ [Downloading (DownloadTracks.name g)]) ++ [SavedTo (outPath_of g)]))
        as [more Hmore].
      rewrite Hloop in Hmore. simpl in Hmore. rewrite Hmore.
      apply elem_of_app. left. apply elem_of_app. right. left.
    + pose proof (loop_keeps fl (outPath_of g) fs1
                    ((out ++ [Downloading (DownloadTracks.name g)]) ++ [SavedTo (outPath_of g)])
                    Hex) as Hk.
      rewrite Hloop in Hk. exact Hk.
Qed.

Lemma loop_no_done fl : forall fs out,
  AllDone ∉ out -> AllDone ∉ (loop fl fs out).2.
Proof.
  induction fl as [| f fl IH]; intros fs out Hout; simpl; [exact Hout |].
  assert (H1 : AllDone ∉ out ++ [Downloading (DownloadTracks.name f)]).
  { intros Hin. apply elem_of_app in Hin as [Hin | Hin]; [auto |].
    apply list_elem_of_singleton in Hin. discriminate. }
  destruct (download f fs) as [[p | m |] fs']; simpl; try exact H1.
  apply IH. intros Hin. apply elem_of_app in Hin as [Hin | Hin]; [auto |].
  apply list_elem_of_singleton in Hin. discriminate.
Qed.

End ScriptFacts.

(** X19.  The script stops at the first download that does not resolve:
    the files listed after it are never requested and change nothing, so
    the run is the run of the list cut after the failing file. *)
Theorem script_stops_at_first_failure `{!NodeEnv}
    (dirname : string) (https_get : string -> DownloadTracks.reply)
    (pre post : list DownloadTracks.file) (f : DownloadTracks.file)
    (fs fs1 : gmap string N) (out1 : list DownloadTracks.line) :
  DownloadTracks.loop dirname https_get pre (DownloadTracks.ensure_outDir dirname fs) []
  = (DownloadTracks.LoopDone, fs1, out1) ->
  (forall p, (DownloadTracks.download dirname https_get f fs1).1
             <> DownloadTracks.Resolved p) ->
  DownloadTracks.main dirname https_get (pre ++ f :: post) fs
  = DownloadTracks.main dirname https_get (pre ++ [f]) fs.
Proof.
  intros Hpre Hfail. unfold DownloadTracks.main. cbv zeta.
  rewrite !loop_app, Hpre. simpl.
  destruct (DownloadTracks.download dirname https_get f fs1) as [[p | m |] fs2];
    [destruct (Hfail p eq_refl) | reflexivity | reflexivity].
Qed.

(** The second address of the list answers 404: whatever is listed after
    it plays no part. *)
Lemma script_stops_at_first_failure_witness :
  DownloadTracks.main "/app" DownloadTracks.sample_net
    (DownloadTracks.files ++ [DownloadTracks.File "https://cdn.kie.ai/three.mp3" "3.mp3"]) ∅
  = DownloadTracks.main "/app" DownloadTracks.sample_net DownloadTracks.files ∅.
Proof.
  apply (script_stops_at_first_failure "/app" DownloadTracks.sample_net
           [DownloadTracks.File
              "https://musicfile.kie.ai/NGRmZjRjZmQtNGE5Yy00MDg5LWE1YjctYjNhOGNlMWRiNzEx.mp3"
              "GuildOfStars_1.mp3"]
           [DownloadTracks.File "https://cdn.kie.ai/three.mp3" "3.mp3"]
           (DownloadTracks.File
              "https://musicfile.kie.ai/MTFiMTZkNjgtYjJiMi00OGE3LTlkM2QtZTI1N2E5NTg3OTA2.mp3"
              "GuildOfStars_2.mp3")
           ∅
           (<["/app/downloads/GuildOfStars_1.mp3" := 700%N]>
              (<["/app/downloads/GuildOfStars_1.mp3" := 0%N]>
                 (<["/app/downloads" := 4096%N]> ∅)))
           [DownloadTracks.Downloading "GuildOfStars_1.mp3";
            DownloadTracks.SavedTo "/app/downloads/GuildOfStars_1.mp3"]).
  - vm_compute. reflexivity.
  - intros p. vm_compute. discriminate.
Defined.

(** X20.  When the script reports [All done.], it has reported
    [Saved to] for every listed file, and each of those paths exists on
    disk. *)
Theorem script_all_done `{!NodeEnv}
    (dirname : string) (https_get : string -> DownloadTracks.reply)
    (fl : list DownloadTracks.file) (fs : gmap string N) (f : DownloadTracks.file) :
  DownloadTracks.AllDone ∈ (DownloadTracks.main dirname https_get fl fs).2 ->
  f ∈ fl ->
  DownloadTracks.SavedTo
    (path_join (DownloadTracks.outDir dirname) (DownloadTracks.name f))
    ∈ (DownloadTracks.main dirname https_get fl fs).2
  /\ is_Some ((DownloadTracks.main dirname https_get fl fs).1
              !! path_join (DownloadTracks.outDir dirname) (DownloadTracks.name f)).
Proof.
  unfold DownloadTracks.main. cbv zeta.
  set (fs0 := DownloadTracks.ensure_outDir dirname fs).
  destruct (DownloadTracks.loop dirname https_get fl fs0 [])
    as [[[| m |] fs'] out] eqn:Hloop; simpl; intros Hdone Hf.
  - destruct (loop_done dirname https_get fl fs0 [] fs' out f Hloop Hf) as [Hs He].
    split; [apply elem_of_app; left; exact Hs | exact He].
  - exfalso.
    pose proof (loop_no_done dirname https_get fl fs0 [] (not_elem_of_nil _)) as Hno.
    rewrite Hloop in Hno. simpl in Hno.
    apply elem_of_app in Hdone as [Hdone | Hdone]; [auto |].
    apply list_elem_of_singleton in Hdone. discriminate.
  - exfalso.
    pose proof (loop_no_done dirname https_get fl fs0 [] (not_elem_of_nil _)) as Hno.
    rewrite Hloop in Hno. auto.
Qed.

(** Every address answers 200 with a five-byte body. *)
Lemma script_all_done_witness :
  DownloadTracks.SavedTo "/app/downloads/GuildOfStars_2.mp3"
  ∈ (DownloadTracks.main "/app"
       (fun _ => DownloadTracks.Answer (DownloadTracks.Incoming 200 None 5))
       DownloadTracks.files ∅).2.
Proof.
  destruct (script_all_done "/app"
              (fun _ => DownloadTracks.Answer (DownloadTracks.Incoming 200 None 5))
              DownloadTracks.files ∅
              (DownloadTracks.File
                 "https://musicfile.kie.ai/MTFiMTZkNjgtYjJiMi00OGE3LTlkM2QtZTI1N2E5NTg3OTA2.mp3"
                 "GuildOfStars_2.mp3")) as [Hsaved _].
  - vm_compute. do 4 right. left.
  - right. left.
  - exact Hsaved.
Defined.



Section SequentialFacts.
Context `{!NodeEnv}.

Lemma run_cons e es st :
  run (e :: es) st = match step e st with Some st' => run es st' | None => None end.
Proof. reflexivity. Qed.

Lemma run_two a b es st :
  run (a :: b :: es) st
  = match run [a; b] st with Some st' => run es st' | None => None end.
Proof.
  rewrite !run_cons. destruct (step a st) as [st1 |]; [| reflexivity].
  rewrite !run_cons. destruct (step b st1); reflexivity.
Qed.

(** Giving an invocation a phase other than the one that ends the process
    keeps the process running. *)
Lemma settle_running (cs : list invocation) (call : nat) (ph : phase) :
  ph <> AwaitDownload Crash ->
  existsb ended cs = false ->
  existsb ended (alter (fun i => Invocation (i_timer i) ph) call cs) = false.
Proof.
  intros Hph. revert call. induction cs as [| i cs IH]; intros call Hcs;
    [reflexivity |].
  simpl in Hcs. apply orb_false_elim in Hcs as [Hi Hcs].
  destruct call as [| call]; simpl.
  - rewrite Hcs, orb_false_r. unfold ended. simpl.
    destruct ph as [| [] |]; try reflexivity. destruct Hph. reflexivity.
  - rewrite Hi. apply IH, Hcs.
Qed.

(** One tick that fires and gets a non-terminal answer before anything
    else happens. *)
Lemma round_effect st tid c kieResp remote now :
  exited st = false ->
  timers st !! tid = Some c ->
  c_live c = true ->
  nonterminal kieResp = true ->
  S (c_attempts c) < maxAttempts ->
  exists st2,
    run [Fire tid; FetchOk (length (calls st)) kieResp remote now] st = Some st2
    /\ exited st2 = false
    /\ timers st2 !! tid = Some (Closure (c_taskId c) (S (c_attempts c)) true)
    /\ length (calls st2) = S (length (calls st))
    /\ activePolls st2 = activePolls st
    /\ disk st2 = disk st
    /\ taskCache st2 !! c_taskId c
       = Some (Entry kieResp (observed_status kieResp) (Some now)
                 (extractSunoData kieResp)
                 (downloaded (cache_get_or_empty st (c_taskId c)))
                 (localFiles (cache_get_or_empty st (c_taskId c)))).
Proof.
  intros Hrunning Ht Hlive Hnon Hlt.
  apply andb_prop in Hnon as [Hfinal Herror].
  apply negb_true_iff in Hfinal, Herror.
  destruct (fire_counts tid c st Ht Hlive)
    as (st1 & Hfire & Ht1 & Hcall1 & Hcache1 & Hpolls1 & Hdisk1 & _).
  assert (Hcalls1 : calls st1 = calls st ++ [Invocation tid AwaitFetch]).
  { unfold fire in Hfire. rewrite Ht, Hlive in Hfire. injection Hfire as <-.
    reflexivity. }
  assert (Hrunning1 : exited st1 = false).
  { unfold exited. rewrite Hcalls1, existsb_app. fold (exited st).
    rewrite Hrunning. reflexivity. }
  destruct (nonterminal_tick_keeps_polling st1 (length (calls st)) tid
              (Closure (c_taskId c) (S (c_attempts c)) true) kieResp remote now
              Hcall1 Ht1 Hfinal Herror Hlt)
    as (st2 & Hok & Ht2 & Hpolls2 & Hdisk2 & Hcache2 & _).
  assert (Hcalls2 : calls st2
                    = alter (fun i => Invocation (i_timer i) Settled)
                        (length (calls st)) (calls st1)).
  { unfold fetch_ok in Hok. rewrite Hcall1, Ht1 in Hok. cbv zeta in Hok.
    rewrite Hfinal, Herror in Hok.
    destruct (maxAttempts <=? _)%nat; simpl in Hok; injection Hok as <-;
      reflexivity. }
  exists st2. rewrite run_cons, (react_step _ _ Hrunning). simpl react.
  rewrite Hfire, run_cons, (react_step _ _ Hrunning1). simpl react. rewrite Hok.
  split; [reflexivity |]. rewrite Ht2, Hpolls2, Hdisk2, Hcache2.
  split; [unfold exited; rewrite Hcalls2; apply settle_running;
          [discriminate | exact Hrunning1] |].
  split; [exact Ht1 |]. split.
  - rewrite Hcalls2, length_alter, Hcalls1, length_app. simpl. lia.
  - split; [exact Hpolls1 |]. split; [exact Hdisk1 |].
    simpl. rewrite lookup_insert_eq. unfold cache_get_or_empty. rewrite Hcache1.
    reflexivity.
Qed.

End SequentialFacts.

(** X12.  Polling goes on while the answers are non-terminal: when the
    ticks of a scheduled timer do not overlap and every answer has a
    status outside both terminal sets, then, in a running server and as
    long as the counter stays below 120, the timer remains scheduled with
    one attempt counted per tick, handle and disk are untouched, and the
    record shows the last answer (raw payload, status, assets, time). *)
Theorem sequential_polling `{!NodeEnv} (answers : list (value * Z)) :
  forall (st : state) (tid : nat) (c : closure),
    exited st = false ->
    timers st !! tid = Some c ->
    c_live c = true ->
    forallb (fun a => nonterminal a.1) answers = true ->
    c_attempts c + length answers < maxAttempts ->
    exists st',
      run (rounds tid (length (calls st)) answers) st = Some st'
      /\ timers st' !! tid
         = Some (Closure (c_taskId c) (c_attempts c + length answers) true)
      /\ activePolls st' = activePolls st
      /\ disk st' = disk st
      /\ (forall kieResp now,
             last answers = Some (kieResp, now) ->
             exists e,
               taskCache st' !! c_taskId c = Some e
               /\ lastRaw e = kieResp
               /\ status e = observed_status kieResp
               /\ sunoData e = extractSunoData kieResp
               /\ updatedAt e = Some now).
Proof.
  induction answers as [| [k now] rest IH];
    intros st tid c Hrunning Ht Hlive Hall Hlt.
  - exists st. simpl. rewrite Nat.add_0_r. destruct c; simpl in *. subst.
    repeat split; auto. intros ? ? [=].
  - simpl in Hall, Hlt. apply andb_prop in Hall as [Hk Hrest].
    destruct (round_effect st tid c k (fun _ => Refused) now Hrunning Ht Hlive Hk)
      as (st2 & Hrun2 & Hrunning2 & Ht2 & Hlen2 & Hpolls2 & Hdisk2 & Hcache2);
      [lia |].
    destruct (IH st2 tid (Closure (c_taskId c) (S (c_attempts c)) true)
                Hrunning2 Ht2 eq_refl Hrest)
      as (st' & Hrun & Ht' & Hpolls & Hdisk & Hlast); [simpl; lia |].
    exists st'. split.
    + simpl rounds. rewrite run_two, Hrun2, <- Hlen2. exact Hrun.
    + simpl in Ht'. cbn [length]. rewrite Nat.add_succ_r. split; [exact Ht' |].
      split; [congruence |]. split; [congruence |].
      intros k' now' Hl. destruct rest as [| a rest'].
      * simpl in Hl. injection Hl as <- <-.
        simpl in Hrun. injection Hrun as <-.
        eexists. split; [exact Hcache2 |]. auto.
      * apply (Hlast k' now'). exact Hl.
Qed.

(** Three non-terminal answers in a row for the fresh poller of [t1]. *)
Lemma sequential_polling_witness :
  exists st',
    run (rounds 0 0 [(record_info "PENDING" (VArr []), 1%Z);
                     (record_info "TEXT_SUCCESS" (VArr []), 2%Z);
                     (VNull, 3%Z)])
      (startServerSidePoll "t1" 0 initial)
    = Some st'
    /\ timers st' !! 0 = Some (Closure "t1" 3 true)
    /\ status <$> taskCache st' !! "t1" = Some (VStr "UNKNOWN").
Proof.
  destruct (sequential_polling
              [(record_info "PENDING" (VArr []), 1%Z);
               (record_info "TEXT_SUCCESS" (VArr []), 2%Z);
               (VNull, 3%Z)]
              (startServerSidePoll "t1" 0 initial) 0 (Closure "t1" 0 true))
    as (st' & Hrun & Ht & _ & _ & Hlast).
  - reflexivity.
  - reflexivity.
  - reflexivity.
  - reflexivity.
  - unfold maxAttempts. simpl. lia.
  - exists st'. split; [exact Hrun |]. split; [exact Ht |].
    destruct (Hlast VNull 3%Z eq_refl) as (e & He & _ & Hs & _).
    simpl in He. rewrite He. simpl. rewrite Hs. reflexivity.
Defined.

(** X22.  The registry never forgets a task: whatever runs, a record
    that exists stays in the registry. *)
Theorem registry_never_shrinks `{!NodeEnv}
    (es : list event) (st st' : state) (t : string) :
  run es st = Some st' ->
  is_Some (taskCache st !! t) ->
  is_Some (taskCache st' !! t).
Proof.
  intros Hrun Ht.
  apply (run_preserves (fun s => is_Some (taskCache s !! t))
           (fun e s s' Hs Hstep => step_cache_grows e s s' t Hstep Hs)
           es st st' Ht Hrun).
Qed.

Lemma registry_never_shrinks_witness :
  is_Some (taskCache (state_after overlapping_ticks initial) !! "t1").
Proof.
  apply (registry_never_shrinks
           (tl overlapping_ticks) (startServerSidePoll "t1" 0 initial)
           (state_after overlapping_ticks initial) "t1").
  - vm_compute. reflexivity.
  - vm_compute. eauto.
Defined.

(** X23.  A refused GET is swallowed.  When a tick observes a
    terminal-success status and nothing but refused GETs goes wrong (the
    task directory is there or can be made, every title converts to a
    string, every planned destination can be opened in the task
    directory and no body is cut), every job of the download plan is
    attempted, whatever became of the jobs before it: the I/O history
    gains one event per planned job, in order.  The jobs whose GET was
    refused are left out of the result and the others kept, and once the
    download has settled the record has [downloaded = true] and exactly
    the kept files as [localFiles]. *)
Theorem refused_downloads_are_isolated `{!NodeEnv}
    (st : state) (call tid : nat) (c : closure)
    (kieResp : value) (remote : value -> transfer) (now now' : Z) :
  calls st !! call = Some (Invocation tid AwaitFetch) ->
  timers st !! tid = Some c ->
  set_has FINAL_STATUSES (observed_status kieResp) = true ->
  is_Some (w_fs (disk st) !! path_join DOWNLOAD_DIR (c_taskId c))
  \/ mkdir_stops (w_fs (disk st)) (path_join DOWNLOAD_DIR (c_taskId c)) = None ->
  titles_convert (extractSunoData kieResp) = true ->
  (forall j fs,
      j ∈ planned (c_taskId c) (extractSunoData kieResp) ->
      is_Some (fs !! path_join DOWNLOAD_DIR (c_taskId c)) ->
      open_fails fs (j_out j) = false) ->
  (forall j size,
      j ∈ planned (c_taskId c) (extractSunoData kieResp) ->
      remote (j_url j) <> Cut size) ->
  exists st1 st2 trace e,
    fetch_ok call kieResp remote now st = Some st1
    /\ w_io (disk st1) = w_io (disk st) ++ trace
    /\ Forall2 (attempt_of remote)
         (planned (c_taskId c) (extractSunoData kieResp)) trace
    /\ download_done call now' st1 = Some st2
    /\ taskCache st2 !! c_taskId c = Some e
    /\ downloaded e = Some true
    /\ localFiles e
       = Some (kept (planned (c_taskId c) (extractSunoData kieResp)) trace).
Proof.
  intros Hcall Ht Hfinal Hmk Htitles Hopen Hcut.
  destruct (downloadAssetsForTask_returns remote (c_taskId c)
              (extractSunoData kieResp) (disk st) Hmk Htitles Hopen Hcut)
    as (saved & w & Hrun).
  destruct (downloadAssetsForTask_trace _ _ _ _ _ _ Hrun)
    as (trace & Hio & Hall & Hsaved).
  unfold fetch_ok. rewrite Hcall, Ht. cbv zeta. rewrite Hfinal.
  simpl disk. rewrite Hrun.
  eexists. eexists. exists trace. eexists.
  split; [reflexivity |]. split; [exact Hio |]. split; [exact Hall |].
  unfold download_done. simpl.
  rewrite list_lookup_alter_eq, Hcall. simpl.
  rewrite list_lookup_alter_eq, Ht. simpl.
  split; [reflexivity |]. simpl. rewrite lookup_insert_eq.
  split; [reflexivity |]. simpl. rewrite Hsaved. auto.
Qed.

(** The scenario of the specification: the first track's audio is
    unreachable; its cover and the second track's audio are saved and
    the task is marked downloaded. *)
Lemma refused_downloads_are_isolated_witness :
  exists st1 st2,
    fetch_ok 0 (record_info "SUCCESS" two_tracks) first_audio_down 1 polling_t1
    = Some st1
    /\ download_done 0 2 st1 = Some st2
    /\ downloaded <$> taskCache st2 !! "t1" = Some (Some true)
    /\ (fun e => length <$> localFiles e) <$> taskCache st2 !! "t1"
       = Some (Some 2).
Proof.
  destruct (refused_downloads_are_isolated polling_t1 0 0 (Closure "t1" 1 true)
              (record_info "SUCCESS" two_tracks) first_audio_down 1 2)
    as (st1 & st2 & trace & e & Hstep1 & Hio & _ & Hstep2 & He & Hd & Hfiles).
  - reflexivity.
  - reflexivity.
  - reflexivity.
  - right. vm_compute. reflexivity.
  - reflexivity.
  - intros j fs Hj Hfs.
    change (is_Some (fs !! "/srv/downloads/t1")) in Hfs.
    assert (Hopen : forall p : string,
               Posix.name_too_long p = false ->
               Posix.dirname p = "/srv/downloads/t1" ->
               Posix.cannot_open fs p = false).
    { intros p Hname Hdir. unfold Posix.cannot_open. rewrite Hname, Hdir.
      rewrite bool_decide_eq_true_2 by exact Hfs. reflexivity. }
    vm_compute in Hj.
    repeat (apply elem_of_cons in Hj as [-> | Hj];
            [apply Hopen; vm_compute; reflexivity |]).
    apply elem_of_nil in Hj. destruct Hj.
  - intros j size Hj. vm_compute in Hj.
    repeat (apply elem_of_cons in Hj as [-> | Hj]; [discriminate |]).
    apply elem_of_nil in Hj. destruct Hj.
  - exists st1, st2. split; [exact Hstep1 |]. split; [exact Hstep2 |].
    simpl in He. rewrite He. simpl. rewrite Hd, Hfiles.
    split; [reflexivity |].
    vm_compute in Hstep1. injection Hstep1 as <-.
    vm_compute in Hio. subst trace. reflexivity.
Defined.
